(** * The update manager of the storage engine: caches of delete vectors,
      delta column groups, update states and primary indexes.

    Shallow embedding of [be/src/storage/update_manager.cpp].  Every method of
    [UpdateManager] that the properties below talk about is a function on an
    explicit state; the persistent meta store, the loaders and the helper
    classes that live in other files are the fields of [Collaborators]. *)

From stdpp Require Import gmap strings list fin_maps sorting pretty.

Local Open Scope Z_scope.

(** ** Status *)

Inductive StatusCode :=
  | InternalError
  | MemLimitExceeded
  | TimeOut
  | IOError
  | NotFound
  | Uninitialized.

Inductive Status :=
  | OK
  | Err (code : StatusCode) (msg : string).

Definition status_ok (st : Status) : bool :=
  match st with OK => true | Err _ _ => false end.

Definition is_mem_limit_exceeded (st : Status) : bool :=
  match st with Err MemLimitExceeded _ => true | _ => false end.

Definition is_time_out (st : Status) : bool :=
  match st with Err TimeOut _ => true | _ => false end.

Definition status_message (st : Status) : string :=
  match st with OK => "" | Err _ msg => msg end.

Inductive StatusOr (A : Type) :=
  | Value (a : A)
  | Failed (code : StatusCode) (msg : string).
Arguments Value {A} a.
Arguments Failed {A} code msg.

(** ** Machine integers *)

Definition INT64_MAX : Z := 2 ^ 63 - 1.

(** The value of a 64-bit pattern read as [int64_t]. *)
Definition to_int64 (x : Z) : Z := (x + 2 ^ 63) mod 2 ^ 64 - 2 ^ 63.

(** The value of a 64-bit pattern read as [size_t]. *)
Definition to_uint64 (x : Z) : Z := x mod 2 ^ 64.

Definition in_int64 (x : Z) : Prop := - 2 ^ 63 <= x < 2 ^ 63.

(** ** Keys and cached values *)

Record TabletSegmentId := {
  tablet_id : Z;
  segment_id : N;
}.

#[global] Instance TabletSegmentId_eq_dec : EqDecision TabletSegmentId.
Proof. solve_decision. Defined.

#[global] Instance TabletSegmentId_countable : Countable TabletSegmentId.
Proof.
  apply (inj_countable' (fun k => (tablet_id k, segment_id k))
                        (fun p => {| tablet_id := p.1; segment_id := p.2 |})).
  by intros [].
Defined.

(** [operator<] of the key, turned into the order of the ordered containers. *)
Definition tsid_le (a b : TabletSegmentId) : Prop :=
  tablet_id a < tablet_id b \/ (tablet_id a = tablet_id b /\ (segment_id a <= segment_id b)%N).

#[global] Instance tsid_le_dec a b : Decision (tsid_le a b).
Proof. unfold tsid_le. apply _. Defined.

(** A delete vector: its version and the deleted row ordinals. *)
Record DelVector := {
  version : Z;
  roaring : list N;
}.

#[global] Instance DelVector_eq_dec : EqDecision DelVector.
Proof. solve_decision. Defined.

(** [new DelVector()] *)
Definition DelVector_new : DelVector := {| version := 0; roaring := [] |}.

Definition cardinality (d : DelVector) : nat := length (roaring d).

(** One delta column group: the version at which it became effective and the
    files holding the overwritten columns. *)
Record DeltaColumnGroup := {
  dcg_version : Z;
  column_files : list string;
}.

#[global] Instance DeltaColumnGroup_eq_dec : EqDecision DeltaColumnGroup.
Proof. solve_decision. Defined.

Abbreviation DeltaColumnGroupList := (list DeltaColumnGroup).

(** ** Memory tracker *)

(** Modelled from the spec: [MemTracker] (util/mem_tracker.h is not part of the
    sources).  [consume] adds to the counter, [release] subtracts and clamps at
    zero, [consumption] reads it.  The propagation to the parent tracker is
    left out: the properties below are about a tracker's own counter. *)
Record MemTracker := {
  consumption : Z;
  limit : Z;
}.

Definition consume (bytes : Z) (t : MemTracker) : MemTracker :=
  {| consumption := consumption t + bytes; limit := limit t |}.

Definition release (bytes : Z) (t : MemTracker) : MemTracker :=
  {| consumption := Z.max 0 (consumption t - bytes); limit := limit t |}.

(** ** Collaborators *)

(** Calls on the persistent meta store, in the order they are made. *)
Inductive MetaCall :=
  | GetDelVector (tsid : TabletSegmentId) (version : Z)
  | GetDeltaColumnGroup (tsid : TabletSegmentId) (version : Z)
  | DeleteDeltaColumnGroup (tsid : TabletSegmentId) (version : Z)
  | WriteBatch (wb : list (TabletSegmentId * Z)).

#[global] Instance MetaCall_eq_dec : EqDecision MetaCall.
Proof. solve_decision. Defined.

(** What the update manager calls but does not define. *)
Class Collaborators := {
  KVStore : Type;
  (** [TabletMetaManager::get_del_vector(meta, tablet_id, segment_id, version,
      delvec, latest_version)]: the status, the vector written to [delvec] and
      the value written to [latest_version]. *)
  TabletMetaManager_get_del_vector : KVStore -> Z -> N -> Z -> Status * DelVector * Z;
  (** [TabletMetaManager::get_delta_column_group(meta, tablet_id, segment_id,
      version, dcgs)] *)
  TabletMetaManager_get_delta_column_group : KVStore -> Z -> N -> Z -> Status * DeltaColumnGroupList;
  (** [TabletMetaManager::delete_delta_column_group(meta, wb, tsid, version)] *)
  TabletMetaManager_delete_delta_column_group : KVStore -> TabletSegmentId -> Z -> Status;
  (** [meta->write_batch(&wb)], the batch given by the deletions put in it *)
  KVStore_write_batch : KVStore -> list (TabletSegmentId * Z) -> Status;
  (** [FileSystem::CreateSharedFromString(tablet_path)] *)
  FileSystem_CreateSharedFromString : string -> Status;
  (** [DelVector::memory_usage()] *)
  memory_usage : DelVector -> N;
  (** [DeltaColumnGroup::memory_usage()] *)
  dcg_memory_usage : DeltaColumnGroup -> N;
  (** [StorageEngine::search_delta_column_groups_by_version(all_dcgs, version,
      dcgs)]: the content of [dcgs] after the call, from its content before. *)
  search_delta_column_groups_by_version :
    DeltaColumnGroupList -> Z -> DeltaColumnGroupList -> DeltaColumnGroupList;
}.

(** ** State of the two keyed caches *)

Record UpdateManager := {
  _del_vec_cache : gmap TabletSegmentId DelVector;
  _del_vec_cache_mem_tracker : MemTracker;
  _delta_column_group_cache : gmap TabletSegmentId DeltaColumnGroupList;
  _delta_column_group_cache_mem_tracker : MemTracker;
  (** the calls made on the meta store so far, oldest first *)
  meta_calls : list MetaCall;
}.

Definition with_del_vec (m : gmap TabletSegmentId DelVector) (t : MemTracker)
    (um : UpdateManager) : UpdateManager :=
  {| _del_vec_cache := m;
     _del_vec_cache_mem_tracker := t;
     _delta_column_group_cache := _delta_column_group_cache um;
     _delta_column_group_cache_mem_tracker := _delta_column_group_cache_mem_tracker um;
     meta_calls := meta_calls um |}.

Definition with_dcg (m : gmap TabletSegmentId DeltaColumnGroupList) (t : MemTracker)
    (um : UpdateManager) : UpdateManager :=
  {| _del_vec_cache := _del_vec_cache um;
     _del_vec_cache_mem_tracker := _del_vec_cache_mem_tracker um;
     _delta_column_group_cache := m;
     _delta_column_group_cache_mem_tracker := t;
     meta_calls := meta_calls um |}.

Definition log_meta_call (c : MetaCall) (um : UpdateManager) : UpdateManager :=
  {| _del_vec_cache := _del_vec_cache um;
     _del_vec_cache_mem_tracker := _del_vec_cache_mem_tracker um;
     _delta_column_group_cache := _delta_column_group_cache um;
     _delta_column_group_cache_mem_tracker := _delta_column_group_cache_mem_tracker um;
     meta_calls := meta_calls um ++ [c] |}.

Section KeyedCaches.
Context {CO : Collaborators}.

(** [UpdateManager::get_del_vec_in_meta] *)
Definition get_del_vec_in_meta (meta : KVStore) (tsid : TabletSegmentId) (ver : Z)
    (um : UpdateManager) : Status * DelVector * Z * UpdateManager :=
  (TabletMetaManager_get_del_vector meta (tablet_id tsid) (segment_id tsid) ver,
   log_meta_call (GetDelVector tsid ver) um).

(** First critical section of [get_del_vec]: the cached vector when it is
    valid for [ver]. *)
Definition get_del_vec_cached (tsid : TabletSegmentId) (ver : Z)
    (um : UpdateManager) : option DelVector :=
  match _del_vec_cache um !! tsid with
  | Some cached => if bool_decide (version cached <= ver) then Some cached else None
  | None => None
  end.

(** Second critical section of [get_del_vec]: the vector just loaded goes
    into the cache when it is the latest of the store. *)
Definition get_del_vec_fill (tsid : TabletSegmentId) (delvec : DelVector)
    (latest_version : Z) (um : UpdateManager) : UpdateManager :=
  if bool_decide (version delvec = latest_version) then
    match _del_vec_cache um !! tsid with
    | None =>
        with_del_vec (<[tsid := delvec]> (_del_vec_cache um))
          (consume (Z.of_N (memory_usage delvec)) (_del_vec_cache_mem_tracker um)) um
    | Some cached =>
        if bool_decide (version cached < latest_version) then
          with_del_vec (<[tsid := delvec]> (_del_vec_cache um))
            (consume (Z.of_N (memory_usage delvec))
               (release (Z.of_N (memory_usage cached)) (_del_vec_cache_mem_tracker um))) um
        else um
    end
  else um.

(** [UpdateManager::get_del_vec]: status, [*pdelvec] after the call, state. *)
Definition get_del_vec (meta : KVStore) (tsid : TabletSegmentId) (ver : Z)
    (pdelvec : option DelVector) (um : UpdateManager)
    : Status * option DelVector * UpdateManager :=
  match get_del_vec_cached tsid ver um with
  | Some cached => (OK, Some cached, um)
  | None =>
      let '(st, delvec, latest_version, um1) := get_del_vec_in_meta meta tsid ver um in
      if status_ok st then (OK, Some delvec, get_del_vec_fill tsid delvec latest_version um1)
      else (st, Some delvec, um1)
  end.

(** [UpdateManager::get_latest_del_vec] *)
Definition get_latest_del_vec (meta : KVStore) (tsid : TabletSegmentId)
    (pdelvec : option DelVector) (um : UpdateManager)
    : Status * option DelVector * UpdateManager :=
  match _del_vec_cache um !! tsid with
  | Some cached => (OK, Some cached, um)
  | None =>
      let '(st, delvec, latest_version, um1) := get_del_vec_in_meta meta tsid INT64_MAX um in
      if status_ok st then
        (OK, Some delvec,
         with_del_vec (<[tsid := delvec]> (_del_vec_cache um1))
           (consume (Z.of_N (memory_usage delvec)) (_del_vec_cache_mem_tracker um1)) um1)
      else (st, Some delvec, um1)
  end.

(** [UpdateManager::set_cached_del_vec] *)
Definition set_cached_del_vec (tsid : TabletSegmentId) (delvec : DelVector)
    (um : UpdateManager) : Status * UpdateManager :=
  match _del_vec_cache um !! tsid with
  | Some cached =>
      if bool_decide (version delvec <= version cached) then
        (Err InternalError
           ("UpdateManager::set_cached_del_vec: new version(" +:+ pretty (version delvec)
            +:+ ") < old version(" +:+ pretty (version cached) +:+ ")"), um)
      else
        (OK,
         with_del_vec (<[tsid := delvec]> (_del_vec_cache um))
           (consume (Z.of_N (memory_usage delvec))
              (release (Z.of_N (memory_usage cached)) (_del_vec_cache_mem_tracker um))) um)
  | None =>
      (OK,
       with_del_vec (<[tsid := delvec]> (_del_vec_cache um))
         (consume (Z.of_N (memory_usage delvec)) (_del_vec_cache_mem_tracker um)) um)
  end.


(** [UpdateManager::clear_cached_del_vec]: one round of the loop per key. *)
Definition clear_cached_del_vec (tsids : list TabletSegmentId) (um : UpdateManager)
    : UpdateManager :=
  foldl (fun um tsid =>
           match _del_vec_cache um !! tsid with
           | Some cached =>
               with_del_vec (delete tsid (_del_vec_cache um))
                 (release (Z.of_N (memory_usage cached)) (_del_vec_cache_mem_tracker um)) um
           | None => um
           end) um tsids.

(** ** Delta column groups *)

(** Modelled from the spec: [StorageEngine::delta_column_group_list_memory_usage]
    (storage_engine.cpp is not part of the sources); the usage of a cached list
    is the total of the usages of the groups it holds. *)
Definition delta_column_group_list_memory_usage (dcgs : DeltaColumnGroupList) : Z :=
  foldr (fun dcg acc => Z.of_N (dcg_memory_usage dcg) + acc) 0 dcgs.

(** [TabletMetaManager::get_delta_column_group] on the segment, version
    [INT64_MAX], as the three cache-filling methods call it. *)
Definition get_delta_column_group_in_meta (meta : KVStore) (tsid : TabletSegmentId)
    (um : UpdateManager) : Status * DeltaColumnGroupList * UpdateManager :=
  (TabletMetaManager_get_delta_column_group meta (tablet_id tsid) (segment_id tsid) INT64_MAX,
   log_meta_call (GetDeltaColumnGroup tsid INT64_MAX) um).

(** Second critical section of [get_delta_column_group]: [insert] keeps an
    entry that is already there, and the tracker follows a real insertion. *)
Definition get_delta_column_group_fill (tsid : TabletSegmentId)
    (new_dcgs : DeltaColumnGroupList) (um : UpdateManager) : UpdateManager :=
  match _delta_column_group_cache um !! tsid with
  | Some _ => um
  | None =>
      with_dcg (<[tsid := new_dcgs]> (_delta_column_group_cache um))
        (consume (delta_column_group_list_memory_usage new_dcgs)
           (_delta_column_group_cache_mem_tracker um)) um
  end.

(** [UpdateManager::get_delta_column_group]: status, [*dcgs] after the call,
    state. *)
Definition get_delta_column_group (meta : KVStore) (tsid : TabletSegmentId) (ver : Z)
    (dcgs : DeltaColumnGroupList) (um : UpdateManager)
    : Status * DeltaColumnGroupList * UpdateManager :=
  match _delta_column_group_cache um !! tsid with
  | Some cached => (OK, search_delta_column_groups_by_version cached ver dcgs, um)
  | None =>
      let '(st, new_dcgs, um1) := get_delta_column_group_in_meta meta tsid um in
      if status_ok st then
        (OK, search_delta_column_groups_by_version new_dcgs ver dcgs,
         get_delta_column_group_fill tsid new_dcgs um1)
      else (st, dcgs, um1)
  end.

(** [UpdateManager::get_cached_delta_column_group]: result, [*dcgs] after the
    call, state. *)
Definition get_cached_delta_column_group (tsid : TabletSegmentId) (ver : Z)
    (dcgs : DeltaColumnGroupList) (um : UpdateManager)
    : bool * DeltaColumnGroupList * UpdateManager :=
  match _delta_column_group_cache um !! tsid with
  | Some cached => (true, search_delta_column_groups_by_version cached ver dcgs, um)
  | None => (false, dcgs, um)
  end.

(** [UpdateManager::set_cached_empty_delta_column_group] *)
Definition set_cached_empty_delta_column_group (meta : KVStore) (tsid : TabletSegmentId)
    (um : UpdateManager) : Status * UpdateManager :=
  match _delta_column_group_cache um !! tsid with
  | Some _ => (OK, um)
  | None =>
      let '(st, new_dcgs, um1) := get_delta_column_group_in_meta meta tsid um in
      if status_ok st then
        match _delta_column_group_cache um1 !! tsid with
        | Some _ => (OK, um1)
        | None =>
            match new_dcgs with
            | [] =>
                (OK, with_dcg (<[tsid := new_dcgs]> (_delta_column_group_cache um1))
                       (_delta_column_group_cache_mem_tracker um1) um1)
            | _ :: _ => (OK, um1)
            end
        end
      else (st, um1)
  end.

(** [UpdateManager::set_cached_delta_column_group] *)
Definition set_cached_delta_column_group (meta : KVStore) (tsid : TabletSegmentId)
    (dcg : DeltaColumnGroup) (um : UpdateManager) : Status * UpdateManager :=
  match _delta_column_group_cache um !! tsid with
  | Some cached =>
      (OK, with_dcg (<[tsid := dcg :: cached]> (_delta_column_group_cache um))
             (consume (Z.of_N (dcg_memory_usage dcg)) (_delta_column_group_cache_mem_tracker um))
             um)
  | None =>
      let '(st, new_dcgs, um1) := get_delta_column_group_in_meta meta tsid um in
      if status_ok st then
        let t1 :=
          match _delta_column_group_cache um1 !! tsid with
          | Some old =>
              release (delta_column_group_list_memory_usage old)
                (_delta_column_group_cache_mem_tracker um1)
          | None => _delta_column_group_cache_mem_tracker um1
          end in
        (OK, with_dcg (<[tsid := new_dcgs]> (_delta_column_group_cache um1))
               (consume (delta_column_group_list_memory_usage new_dcgs) t1) um1)
      else (st, um1)
  end.

(** [UpdateManager::clear_cached_delta_column_group] *)
Definition clear_cached_delta_column_group (tsids : list TabletSegmentId)
    (um : UpdateManager) : UpdateManager :=
  foldl (fun um tsid =>
           match _delta_column_group_cache um !! tsid with
           | Some cached =>
               with_dcg (delete tsid (_delta_column_group_cache um))
                 (release (delta_column_group_list_memory_usage cached)
                    (_delta_column_group_cache_mem_tracker um)) um
           | None => um
           end) um tsids.

(** Modelled from the spec: [DeltaColumnGroupListHelper::garbage_collection]
    (storage/delta_column_group.cpp is not part of the sources).  The data
    model of the specification reads: a lookup for read version V returns the
    most recent delta whose version is at most V, and garbage collection
    removes the entries whose version is below the minimum readable version,
    provided doing so does not remove the only version still needed.  The
    version still needed is the one a read at the minimum readable version
    resolves to: the newest version of the list that is not above it. *)
Definition still_needed_version (min_readable_version : Z) (dcgs : DeltaColumnGroupList)
    : option Z :=
  foldr (fun dcg acc =>
           if bool_decide (dcg_version dcg <= min_readable_version) then
             Some (match acc with
                   | Some v => Z.max v (dcg_version dcg)
                   | None => dcg_version dcg
                   end)
           else acc) None dcgs.

Definition is_garbage (min_readable_version : Z) (dcgs : DeltaColumnGroupList)
    (dcg : DeltaColumnGroup) : Prop :=
  dcg_version dcg < min_readable_version
  /\ still_needed_version min_readable_version dcgs <> Some (dcg_version dcg).

#[global] Instance is_garbage_dec min_readable_version dcgs dcg :
  Decision (is_garbage min_readable_version dcgs dcg).
Proof. unfold is_garbage. apply _. Defined.

(** What [garbage_collection] leaves in the list. *)
Definition live_groups (min_readable_version : Z) (dcgs : DeltaColumnGroupList)
    : DeltaColumnGroupList :=
  filter (fun dcg => ~ is_garbage min_readable_version dcgs dcg) dcgs.

(** Each group that leaves the list is added to [clear_dcgs] with the key of
    its segment, and its files, under the tablet path, to [clear_filenames]. *)
Definition garbage_collection (dcgs : DeltaColumnGroupList) (tsid : TabletSegmentId)
    (min_readable_version : Z) (tablet_path : string)
    (clear_dcgs : list (TabletSegmentId * Z)) (clear_filenames : list string)
    : DeltaColumnGroupList * list (TabletSegmentId * Z) * list string :=
  let garbage := filter (is_garbage min_readable_version dcgs) dcgs in
  (live_groups min_readable_version dcgs,
   clear_dcgs ++ ((fun dcg => (tsid, dcg_version dcg)) <$> garbage),
   clear_filenames
     ++ (garbage ≫= fun dcg => (fun f => tablet_path +:+ "/" +:+ f) <$> column_files dcg)).

(** The entries of an ordered map from [begin()] to [end()]. *)
Definition map_entries {V : Type} (m : gmap TabletSegmentId V) : list (TabletSegmentId * V) :=
  merge_sort (fun a b => tsid_le a.1 b.1) (map_to_list m).

(** The entries of an ordered map from [lower_bound(k)] to [end()]. *)
Definition map_lower_bound {V : Type} (k : TabletSegmentId) (m : gmap TabletSegmentId V)
    : list (TabletSegmentId * V) :=
  filter (fun e => tsid_le k e.1) (map_entries m).

(** The lambda [is_timeout]: more than 10 ms since [begin_ms]. *)
Definition is_timeout (begin_ms now_ms : Z) : bool := bool_decide (begin_ms + 10 < now_ms).

(** The loop of [clear_delta_column_group_before_version], under the cache
    lock.  [UnixMillis n] is the (n+1)-th reading of the clock by this call;
    [itr] are the entries from the iterator to the end of the map. *)
Fixpoint garbage_collection_loop (UnixMillis : nat -> Z) (begin_ms : Z) (reading : nat)
    (tablet : Z) (min_readable_version : Z) (tablet_path : string)
    (itr : list (TabletSegmentId * DeltaColumnGroupList))
    (cache : gmap TabletSegmentId DeltaColumnGroupList)
    (clear_dcgs : list (TabletSegmentId * Z)) (clear_filenames : list string)
    : gmap TabletSegmentId DeltaColumnGroupList * list (TabletSegmentId * Z) * list string :=
  match itr with
  | [] => (cache, clear_dcgs, clear_filenames)
  | (tsid, dcgs) :: itr' =>
      if is_timeout begin_ms (UnixMillis reading) then (cache, clear_dcgs, clear_filenames)
      else if bool_decide (tablet_id tsid = tablet) then
        let '(dcgs', clear_dcgs', clear_filenames') :=
          garbage_collection dcgs tsid min_readable_version tablet_path
            clear_dcgs clear_filenames in
        garbage_collection_loop UnixMillis begin_ms (S reading) tablet min_readable_version
          tablet_path itr' (<[tsid := dcgs']> cache) clear_dcgs' clear_filenames'
      else (cache, clear_dcgs, clear_filenames)
  end.

(** The critical section of [clear_delta_column_group_before_version]: the
    cache after it, the groups and the files collected.  The first reading of
    the clock is [begin_ms]; the iteration starts at the lower bound of the
    tablet's keys. *)
Definition collect_before_version (UnixMillis : nat -> Z) (tablet_path : string)
    (tablet : Z) (min_readable_version : Z) (um : UpdateManager)
    : gmap TabletSegmentId DeltaColumnGroupList * list (TabletSegmentId * Z) * list string :=
  garbage_collection_loop UnixMillis (UnixMillis 0%nat) 1 tablet min_readable_version
    tablet_path
    (map_lower_bound {| tablet_id := tablet; segment_id := 0 |} (_delta_column_group_cache um))
    (_delta_column_group_cache um) [] [].

(** The deletions of the collected groups from the meta store: every one is
    tried, the ones that succeed make the batch. *)
Definition delete_collected (meta : KVStore) (clear_dcgs : list (TabletSegmentId * Z))
    (um : UpdateManager) : list (TabletSegmentId * Z) * UpdateManager :=
  foldl (fun '(wb, um) dcg =>
           let st := TabletMetaManager_delete_delta_column_group meta dcg.1 dcg.2 in
           (if status_ok st then wb ++ [dcg] else wb,
            log_meta_call (DeleteDeltaColumnGroup dcg.1 dcg.2) um))
        ([], um) clear_dcgs.

(** [UpdateManager::clear_delta_column_group_before_version]: the result, the
    files deleted from the file system, the state. *)
Definition clear_delta_column_group_before_version (UnixMillis : nat -> Z) (meta : KVStore)
    (tablet_path : string) (tablet : Z) (min_readable_version : Z) (um : UpdateManager)
    : StatusOr nat * list string * UpdateManager :=
  let '(cache, clear_dcgs, clear_filenames) :=
    collect_before_version UnixMillis tablet_path tablet min_readable_version um in
  let um1 := with_dcg cache (_delta_column_group_cache_mem_tracker um) um in
  let '(wb, um2) := delete_collected meta clear_dcgs um1 in
  let um3 := log_meta_call (WriteBatch wb) um2 in
  match KVStore_write_batch meta wb with
  | Err code msg => (Failed code msg, [], um3)
  | OK =>
      match FileSystem_CreateSharedFromString tablet_path with
      | Err code msg => (Failed code msg, [], um3)
      | OK => (Value (length clear_dcgs), clear_filenames, um3)
      end
  end.

(** [UpdateManager::clear_cached_del_vec_by_tablet_id] *)
Definition clear_cached_del_vec_by_tablet_id (tablet : Z) (um : UpdateManager)
    : UpdateManager :=
  foldl (fun um iter =>
           if bool_decide (tablet_id iter.1 = tablet) then
             with_del_vec (delete iter.1 (_del_vec_cache um))
               (release (Z.of_N (memory_usage iter.2)) (_del_vec_cache_mem_tracker um)) um
           else um) um (map_entries (_del_vec_cache um)).

(** [UpdateManager::clear_cached_delta_column_group_by_tablet_id] *)
Definition clear_cached_delta_column_group_by_tablet_id (tablet : Z) (um : UpdateManager)
    : UpdateManager :=
  foldl (fun um iter =>
           if bool_decide (tablet_id iter.1 = tablet) then
             with_dcg (delete iter.1 (_delta_column_group_cache um))
               (release (delta_column_group_list_memory_usage iter.2)
                  (_delta_column_group_cache_mem_tracker um)) um
           else um) um (map_entries (_delta_column_group_cache um)).

(** [UpdateManager::clear_cache], for the two keyed caches: each is emptied
    and its tracker releases all it has consumed. *)
Definition clear_cache (um : UpdateManager) : UpdateManager :=
  {| _del_vec_cache := ∅;
     _del_vec_cache_mem_tracker :=
       release (consumption (_del_vec_cache_mem_tracker um)) (_del_vec_cache_mem_tracker um);
     _delta_column_group_cache := ∅;
     _delta_column_group_cache_mem_tracker :=
       release (consumption (_delta_column_group_cache_mem_tracker um))
         (_delta_column_group_cache_mem_tracker um);
     meta_calls := meta_calls um |}.

End KeyedCaches.

(** ** The generic reference-counted cache *)

(** Modelled from the spec: [DynamicCache] (util/dynamic_cache.h is not part of
    the sources).  An entry wraps a value, a reference count, an expiration
    time and an object size; the entries are kept in the order in which
    eviction visits them. *)
Record Entry (K V : Type) := {
  entry_key : K;
  entry_value : V;
  entry_ref : nat;
  entry_expire : Z;
  entry_size : Z;
}.
Arguments entry_key {K V} _.
Arguments entry_value {K V} _.
Arguments entry_ref {K V} _.
Arguments entry_expire {K V} _.
Arguments entry_size {K V} _.

Record DynamicCache (K V : Type) := {
  dc_entries : list (Entry K V);
  dc_capacity : Z;
  dc_ttl : Z;
}.
Arguments dc_entries {K V} _.
Arguments dc_capacity {K V} _.
Arguments dc_ttl {K V} _.

Section DynamicCache.
Context {K V : Type} `{EqDecision K}.

Definition dc_with_entries (l : list (Entry K V)) (c : DynamicCache K V) : DynamicCache K V :=
  {| dc_entries := l; dc_capacity := dc_capacity c; dc_ttl := dc_ttl c |}.

Definition entry_with_ref (n : nat) (e : Entry K V) : Entry K V :=
  {| entry_key := entry_key e; entry_value := entry_value e; entry_ref := n;
     entry_expire := entry_expire e; entry_size := entry_size e |}.

Definition entry_with_value (v : V) (e : Entry K V) : Entry K V :=
  {| entry_key := entry_key e; entry_value := v; entry_ref := entry_ref e;
     entry_expire := entry_expire e; entry_size := entry_size e |}.

(** [Entry::update_expire_time] *)
Definition update_expire_time (t : Z) (e : Entry K V) : Entry K V :=
  {| entry_key := entry_key e; entry_value := entry_value e; entry_ref := entry_ref e;
     entry_expire := t; entry_size := entry_size e |}.

Definition entry_with_size (bytes : Z) (e : Entry K V) : Entry K V :=
  {| entry_key := entry_key e; entry_value := entry_value e; entry_ref := entry_ref e;
     entry_expire := entry_expire e; entry_size := bytes |}.

(** The entry a handle points to. *)
Definition dc_find (key : K) (c : DynamicCache K V) : option (Entry K V) :=
  snd <$> list_find (fun e => entry_key e = key) (dc_entries c).

(** A write through a handle. *)
Definition dc_alter (f : Entry K V -> Entry K V) (key : K) (c : DynamicCache K V)
    : DynamicCache K V :=
  dc_with_entries ((fun e => if decide (entry_key e = key) then f e else e) <$> dc_entries c) c.

(** [size()]: the total of the object sizes. *)
Definition dc_size (c : DynamicCache K V) : Z :=
  foldr (fun e acc => entry_size e + acc) 0 (dc_entries c).

(** [capacity()] *)
Definition capacity (c : DynamicCache K V) : Z := dc_capacity c.

(** [get(key)]: the entry with one more reference, or [nullptr]. *)
Definition dc_get (key : K) (c : DynamicCache K V) : option (Entry K V) * DynamicCache K V :=
  match dc_find key c with
  | Some e =>
      (Some (entry_with_ref (S (entry_ref e)) e),
       dc_alter (fun e => entry_with_ref (S (entry_ref e)) e) key c)
  | None => (None, c)
  end.

(** [get_or_create(key)]: the existing entry with one more reference, or a
    new empty entry with reference count 1. *)
Definition get_or_create (key : K) (empty : V) (c : DynamicCache K V)
    : Entry K V * DynamicCache K V :=
  match dc_find key c with
  | Some e =>
      (entry_with_ref (S (entry_ref e)) e,
       dc_alter (fun e => entry_with_ref (S (entry_ref e)) e) key c)
  | None =>
      let e := {| entry_key := key; entry_value := empty; entry_ref := 1;
                  entry_expire := 0; entry_size := 0 |} in
      (e, dc_with_entries (dc_entries c ++ [e]) c)
  end.

(** [update_object_size(entry, bytes)] *)
Definition update_object_size (key : K) (bytes : Z) (c : DynamicCache K V) : DynamicCache K V :=
  dc_alter (entry_with_size bytes) key c.

(** [release(entry)]: one reference less; at zero the expiration becomes now
    plus the time to live. *)
Definition dc_release (now : Z) (key : K) (c : DynamicCache K V) : DynamicCache K V :=
  dc_alter (fun e =>
              let e' := entry_with_ref (pred (entry_ref e)) e in
              if decide (entry_ref e' = 0%nat) then update_expire_time (now + dc_ttl c) e'
              else e') key c.

(** [remove(entry)]: the entry leaves the cache, whatever its reference
    count. *)
Definition dc_remove (key : K) (c : DynamicCache K V) : DynamicCache K V :=
  dc_with_entries (filter (fun e => entry_key e <> key) (dc_entries c)) c.

(** One pass of eviction over the entries: an entry nobody references goes as
    long as the size is above the target. *)
Fixpoint evict_entries (target size : Z) (l : list (Entry K V)) : list (Entry K V) :=
  match l with
  | [] => []
  | e :: l' =>
      if bool_decide (size <= target) then e :: l'
      else if decide (entry_ref e = 0%nat) then evict_entries target (size - entry_size e) l'
      else e :: evict_entries target size l'
  end.

(** [try_evict(target)] *)
Definition try_evict (target : Z) (c : DynamicCache K V) : DynamicCache K V :=
  dc_with_entries (evict_entries target (dc_size c) (dc_entries c)) c.

End DynamicCache.

(** ** Ingestion hooks *)

Inductive TabletState :=
  | TABLET_NOTREADY
  | TABLET_RUNNING
  | TABLET_TOMBSTONED
  | TABLET_STOPPED
  | TABLET_SHUTDOWN.

#[global] Instance TabletState_eq_dec : EqDecision TabletState.
Proof. solve_decision. Defined.

Record Tablet := {
  tablet_tablet_id : Z;
  tablet_state : TabletState;
}.

Record Rowset := {
  rowset_id : string;
  has_data_files : bool;
  is_partial_update : bool;
  is_column_mode_partial_update : bool;
}.

(** The loaders the ingestion hooks call but do not define. *)
Class StateLoaders := {
  RowsetUpdateState : Type;
  RowsetColumnUpdateState : Type;
  PrimaryIndex : Type;
  (** a default-constructed state, as a new cache entry holds it *)
  RowsetUpdateState_new : RowsetUpdateState;
  RowsetColumnUpdateState_new : RowsetColumnUpdateState;
  (** [RowsetUpdateState::load(tablet, rowset)]: the status and the state
      after the call *)
  RowsetUpdateState_load : Tablet -> Rowset -> RowsetUpdateState -> Status * RowsetUpdateState;
  (** [RowsetColumnUpdateState::load(tablet, rowset, mem_tracker)] *)
  RowsetColumnUpdateState_load :
    Tablet -> Rowset -> RowsetColumnUpdateState -> Status * RowsetColumnUpdateState;
  RowsetUpdateState_memory_usage : RowsetUpdateState -> Z;
  RowsetColumnUpdateState_memory_usage : RowsetColumnUpdateState -> Z;
  (** [_pindex_load_executor->submit_task_and_wait_for(tablet,
      config::pindex_rebuild_load_wait_seconds)]: the task loads the primary
      index of the tablet into the index cache; the status, and the index
      cache as the call leaves it *)
  submit_task_and_wait_for :
    Tablet -> DynamicCache Z PrimaryIndex -> Status * DynamicCache Z PrimaryIndex;
}.

Section Ingestion.
Context {SL : StateLoaders}.

(** The caches of [UpdateManager] behind the ingestion hooks and eviction. *)
Record StateCaches := {
  _index_cache : DynamicCache Z PrimaryIndex;
  _update_state_cache : DynamicCache string RowsetUpdateState;
  _update_column_state_cache : DynamicCache string RowsetColumnUpdateState;
  _keep_pindex_bf : bool;
  _cache_expire_ms : Z;
}.

Definition with_update_state_cache (c : DynamicCache string RowsetUpdateState)
    (s : StateCaches) : StateCaches :=
  {| _index_cache := _index_cache s; _update_state_cache := c;
     _update_column_state_cache := _update_column_state_cache s;
     _keep_pindex_bf := _keep_pindex_bf s; _cache_expire_ms := _cache_expire_ms s |}.

Definition with_update_column_state_cache (c : DynamicCache string RowsetColumnUpdateState)
    (s : StateCaches) : StateCaches :=
  {| _index_cache := _index_cache s; _update_state_cache := _update_state_cache s;
     _update_column_state_cache := c;
     _keep_pindex_bf := _keep_pindex_bf s; _cache_expire_ms := _cache_expire_ms s |}.

Definition with_index_cache (c : DynamicCache Z PrimaryIndex) (keep : bool)
    (s : StateCaches) : StateCaches :=
  {| _index_cache := c; _update_state_cache := _update_state_cache s;
     _update_column_state_cache := _update_column_state_cache s;
     _keep_pindex_bf := keep; _cache_expire_ms := _cache_expire_ms s |}.

(** [strings::Substitute("$0_$1", tablet->tablet_id(), rowset_unique_id)] *)
Definition state_key (tablet : Tablet) (rowset : Rowset) : string :=
  pretty (tablet_tablet_id tablet) +:+ "_" +:+ rowset_id rowset.

(** The load of one kind of state into its cache, as both branches of
    [on_rowset_finished] do it: get or create the entry, load, set the
    expiration and the size, then release the entry on success and remove it
    on failure. *)
Definition load_state_entry {S : Type} (empty : S) (load : S -> Status * S)
    (usage : S -> Z) (now expire_ms : Z) (key : string) (c : DynamicCache string S)
    : Status * DynamicCache string S :=
  let '(state_entry, c1) := get_or_create key empty c in
  let '(st, value) := load (entry_value state_entry) in
  let c2 := dc_alter (entry_with_value value) key c1 in
  let c3 := dc_alter (update_expire_time (now + expire_ms)) key c2 in
  let c4 := update_object_size key (usage value) c3 in
  if status_ok st then (st, dc_release now key c4) else (st, dc_remove key c4).

(** The first step of [on_rowset_finished] after its guard: for a partial
    update the load executor is asked for the primary index of the tablet,
    which it loads into the index cache. *)
Definition preload_index (tablet : Tablet) (rowset : Rowset) (s : StateCaches)
    : Status * StateCaches :=
  if is_partial_update rowset then
    let '(task_st, index_cache) := submit_task_and_wait_for tablet (_index_cache s) in
    (task_st, with_index_cache index_cache (_keep_pindex_bf s) s)
  else (OK, s).

(** [UpdateManager::on_rowset_finished].  [now] is the reading of
    [MonotonicMillis()], [fail_point] tells whether the fail point
    [on_rowset_finished_failed_due_to_mem] fires. *)
Definition on_rowset_finished (now : Z) (fail_point : bool) (tablet : Tablet)
    (rowset : Rowset) (s : StateCaches) : Status * StateCaches :=
  if negb (has_data_files rowset) || bool_decide (tablet_state tablet = TABLET_NOTREADY)
  then (OK, s)
  else
    let '(task_st, s) := preload_index tablet rowset s in
    if negb (status_ok task_st) then (Err Uninitialized (status_message task_st), s)
    else
      let '(st, s1) :=
        if is_column_mode_partial_update rowset then
          let '(st, c) :=
            load_state_entry RowsetColumnUpdateState_new
              (RowsetColumnUpdateState_load tablet rowset)
              RowsetColumnUpdateState_memory_usage now (_cache_expire_ms s)
              (state_key tablet rowset) (_update_column_state_cache s) in
          (st, with_update_column_state_cache c s)
        else
          let '(st, c) :=
            load_state_entry RowsetUpdateState_new (RowsetUpdateState_load tablet rowset)
              RowsetUpdateState_memory_usage now (_cache_expire_ms s)
              (state_key tablet rowset) (_update_state_cache s) in
          (st, with_update_state_cache c s) in
      let st := if fail_point then Err MemLimitExceeded "on_rowset_finished failed" else st in
      if is_mem_limit_exceeded st || is_time_out st then (OK, s1) else (st, s1).


(** [UpdateManager::TEST_update_state_exist] *)
Definition TEST_update_state_exist (now : Z) (tablet : Tablet) (rowset : Rowset)
    (s : StateCaches) : bool * StateCaches :=
  if is_column_mode_partial_update rowset then
    match dc_get (state_key tablet rowset) (_update_column_state_cache s) with
    | (Some _, c) =>
        (true, with_update_column_state_cache (dc_release now (state_key tablet rowset) c) s)
    | (None, _) => (false, s)
    end
  else
    match dc_get (state_key tablet rowset) (_update_state_cache s) with
    | (Some _, c) =>
        (true, with_update_state_cache (dc_release now (state_key tablet rowset) c) s)
    | (None, _) => (false, s)
    end.

(** ** Eviction *)

(** [UpdateManager::evict_cache].  [capacity()] and [size()] are [size_t]
    values stored into [int64_t] variables, the products are taken in
    [int64_t], the targets go back to [size_t], and the last comparison is
    between a [size_t] and an [int64_t], so it is made in [size_t]. *)
Definition evict_cache (memory_urgent_level memory_high_level : Z) (s : StateCaches)
    : StateCaches :=
  let capacity := to_int64 (capacity (_index_cache s)) in
  let size := to_int64 (dc_size (_index_cache s)) in
  let memory_urgent := to_int64 (capacity * memory_urgent_level) `quot` 100 in
  let memory_high := to_int64 (capacity * memory_high_level) `quot` 100 in
  let c1 :=
    if bool_decide (memory_urgent < size) then try_evict (to_uint64 memory_urgent) (_index_cache s)
    else _index_cache s in
  let size := to_int64 (dc_size c1) in
  let c2 :=
    if bool_decide (memory_high < size) then
      let target_memory := Z.max (to_int64 (size * 9) `quot` 10) memory_high in
      try_evict (to_uint64 target_memory) c1
    else c1 in
  with_index_cache c2
    (if bool_decide (to_uint64 memory_high < to_uint64 (dc_size c2)) then false else true) s.

(** The status of the state load that [on_rowset_finished] performs for the
    pair, from the state of the caches before the call. *)
Definition update_state_load_status (tablet : Tablet) (rowset : Rowset) (s : StateCaches)
    : Status :=
  if is_column_mode_partial_update rowset then
    (RowsetColumnUpdateState_load tablet rowset
       (entry_value
          (get_or_create (state_key tablet rowset) RowsetColumnUpdateState_new
             (_update_column_state_cache s)).1)).1
  else
    (RowsetUpdateState_load tablet rowset
       (entry_value
          (get_or_create (state_key tablet rowset) RowsetUpdateState_new
             (_update_state_cache s)).1)).1.

(** The eviction policy in the words of the specification: a watermark is a
    percentage of the capacity; above the urgent watermark evict down to it;
    measure again and, above the high watermark, evict down to the larger of
    90% of the size and the high watermark; keep the auxiliary filter unless
    the size is above the high watermark in the end.  The policy gives the
    index cache it leaves and the flag, in unbounded integers. *)
Definition watermark (c : DynamicCache Z PrimaryIndex) (pct : Z) : Z :=
  capacity c * pct / 100.

Definition damped_two_stage_policy (urgent_pct high_pct : Z) (c : DynamicCache Z PrimaryIndex)
    : DynamicCache Z PrimaryIndex * bool :=
  let urgent := watermark c urgent_pct in
  let high := watermark c high_pct in
  let c1 := if bool_decide (dc_size c > urgent) then try_evict urgent c else c in
  let c2 :=
    if bool_decide (dc_size c1 > high) then try_evict (Z.max (dc_size c1 * 9 / 10) high) c1
    else c1 in
  (c2, negb (bool_decide (dc_size c2 > high))).

End Ingestion.

(** ** Sequences of operations and totals over the keyed caches *)

Section Observations.
Context {CO : Collaborators}.

(** What a thread can do to the delete-vector cache in one critical section or
    one call: a whole [get_del_vec], the second critical section of a
    [get_del_vec] whose load ran while other threads were at work, a
    [set_cached_del_vec]. *)
Inductive DelVecOp :=
  | OpGetDelVec (meta : KVStore) (tsid : TabletSegmentId) (ver : Z)
  | OpFill (tsid : TabletSegmentId) (delvec : DelVector) (latest_version : Z)
  | OpSetCachedDelVec (tsid : TabletSegmentId) (delvec : DelVector).

Definition run_del_vec_op (um : UpdateManager) (op : DelVecOp) : UpdateManager :=
  match op with
  | OpGetDelVec meta tsid ver => (get_del_vec meta tsid ver None um).2
  | OpFill tsid delvec latest_version => get_del_vec_fill tsid delvec latest_version um
  | OpSetCachedDelVec tsid delvec => (set_cached_del_vec tsid delvec um).2
  end.

Definition run_del_vec_ops (ops : list DelVecOp) (um : UpdateManager) : UpdateManager :=
  foldl run_del_vec_op um ops.

(** The memory held by the values of a keyed cache. *)
Definition total_usage {V : Type} (usage : V -> Z) (m : gmap TabletSegmentId V) : Z :=
  map_fold (fun _ v acc => usage v + acc) 0 m.

Definition del_vec_cache_usage (um : UpdateManager) : Z :=
  total_usage (fun d => Z.of_N (memory_usage d)) (_del_vec_cache um).

Definition delta_column_group_cache_usage (um : UpdateManager) : Z :=
  total_usage delta_column_group_list_memory_usage (_delta_column_group_cache um).

(** The number of groups held by the delta-column-group cache. *)
Definition delta_column_group_count (m : gmap TabletSegmentId DeltaColumnGroupList) : Z :=
  total_usage (fun l : DeltaColumnGroupList => Z.of_nat (length l)) m.

(** The keys of a tablet come first in the rest of an iteration. *)
Definition tablet_prefix (tablet : Z) (itr : list (TabletSegmentId * DeltaColumnGroupList))
    : Prop :=
  forall a x b, itr = a ++ x :: b -> tablet_id x.1 <> tablet ->
                forall y, y ∈ b -> tablet_id y.1 <> tablet.

End Observations.

(** ** The rest of the update manager *)

(** The value of a 32-bit pattern read as [int]. *)
Definition to_int32 (x : Z) : Z := (x + 2 ^ 31) mod 2 ^ 32 - 2 ^ 31.

Section Loaders.
Context {CO : Collaborators}.

(** [LocalDelvecLoader::load] *)
Definition LocalDelvecLoader_load (_meta : KVStore) (tsid : TabletSegmentId) (ver : Z)
    (pdelvec : option DelVector) (um : UpdateManager)
    : Status * option DelVector * UpdateManager :=
  get_del_vec _meta tsid ver pdelvec um.

(** [LocalDeltaColumnGroupLoader::load(tsid, version, pdcgs)]; [None] is the
    null [_meta]. *)
Definition LocalDeltaColumnGroupLoader_load (_meta : option KVStore) (tsid : TabletSegmentId)
    (ver : Z) (pdcgs : DeltaColumnGroupList) (um : UpdateManager)
    : Status * DeltaColumnGroupList * UpdateManager :=
  match _meta with
  | None => (OK, pdcgs, um)
  | Some meta => get_delta_column_group meta tsid ver pdcgs um
  end.

(** The calls on the two keyed caches, one constructor per method. *)
Inductive CacheOp :=
  | DoGetDelVec (meta : KVStore) (tsid : TabletSegmentId) (ver : Z)
  | DoGetLatestDelVec (meta : KVStore) (tsid : TabletSegmentId)
  | DoSetCachedDelVec (tsid : TabletSegmentId) (delvec : DelVector)
  | DoClearCachedDelVec (tsids : list TabletSegmentId)
  | DoClearCachedDelVecByTabletId (tablet : Z)
  | DoGetDeltaColumnGroup (meta : KVStore) (tsid : TabletSegmentId) (ver : Z)
      (dcgs : DeltaColumnGroupList)
  | DoGetCachedDeltaColumnGroup (tsid : TabletSegmentId) (ver : Z) (dcgs : DeltaColumnGroupList)
  | DoSetCachedEmptyDeltaColumnGroup (meta : KVStore) (tsid : TabletSegmentId)
  | DoSetCachedDeltaColumnGroup (meta : KVStore) (tsid : TabletSegmentId)
      (dcg : DeltaColumnGroup)
  | DoClearCachedDeltaColumnGroup (tsids : list TabletSegmentId)
  | DoClearCachedDeltaColumnGroupByTabletId (tablet : Z)
  | DoClearDeltaColumnGroupBeforeVersion (UnixMillis : nat -> Z) (meta : KVStore)
      (tablet_path : string) (tablet : Z) (min_readable_version : Z)
  | DoClearCache.

Definition run_cache_op (um : UpdateManager) (op : CacheOp) : UpdateManager :=
  match op with
  | DoGetDelVec meta tsid ver => (get_del_vec meta tsid ver None um).2
  | DoGetLatestDelVec meta tsid => (get_latest_del_vec meta tsid None um).2
  | DoSetCachedDelVec tsid delvec => (set_cached_del_vec tsid delvec um).2
  | DoClearCachedDelVec tsids => clear_cached_del_vec tsids um
  | DoClearCachedDelVecByTabletId tablet => clear_cached_del_vec_by_tablet_id tablet um
  | DoGetDeltaColumnGroup meta tsid ver dcgs => (get_delta_column_group meta tsid ver dcgs um).2
  | DoGetCachedDeltaColumnGroup tsid ver dcgs =>
      (get_cached_delta_column_group tsid ver dcgs um).2
  | DoSetCachedEmptyDeltaColumnGroup meta tsid =>
      (set_cached_empty_delta_column_group meta tsid um).2
  | DoSetCachedDeltaColumnGroup meta tsid dcg =>
      (set_cached_delta_column_group meta tsid dcg um).2
  | DoClearCachedDeltaColumnGroup tsids => clear_cached_delta_column_group tsids um
  | DoClearCachedDeltaColumnGroupByTabletId tablet =>
      clear_cached_delta_column_group_by_tablet_id tablet um
  | DoClearDeltaColumnGroupBeforeVersion UnixMillis meta tablet_path tablet
      min_readable_version =>
      (clear_delta_column_group_before_version UnixMillis meta tablet_path tablet
         min_readable_version um).2
  | DoClearCache => clear_cache um
  end.

Definition run_cache_ops (ops : list CacheOp) (um : UpdateManager) : UpdateManager :=
  foldl run_cache_op um ops.

(** The keyed cache a method works on. *)
Inductive KeyedCache := DelVecCache | DeltaColumnGroupCache | BothCaches.

Definition cache_of (op : CacheOp) : KeyedCache :=
  match op with
  | DoGetDelVec _ _ _ | DoGetLatestDelVec _ _ | DoSetCachedDelVec _ _
  | DoClearCachedDelVec _ | DoClearCachedDelVecByTabletId _ => DelVecCache
  | DoClearCache => BothCaches
  | _ => DeltaColumnGroupCache
  end.

Definition is_garbage_collection (op : CacheOp) : bool :=
  match op with
  | DoClearDeltaColumnGroupBeforeVersion _ _ _ _ _ => true
  | _ => false
  end.

(** The gauges [expire_cache] sets. *)
Record Metrics := {
  update_primary_index_num : Z;
  update_primary_index_bytes_total : Z;
  update_del_vector_num : Z;
  update_del_vector_bytes_total : Z;
}.

(** The [std::accumulate] of [expire_cache] over the delete-vector cache: the
    initial value [0] makes the accumulator an [int]; each round adds the
    [size_t] usage in [size_t] and stores the sum back into the [int]. *)
Definition accumulate_del_vector_bytes (m : gmap TabletSegmentId DelVector) : Z :=
  foldl (fun accumulated p =>
           to_int32 (to_uint64 (to_uint64 accumulated + Z.of_N (memory_usage p.2))))
        0 (map_entries m).

End Loaders.

(** Modelled from the spec: [DynamicCache::clear_expired] and
    [DynamicCache::object_size] (util/dynamic_cache.h is not part of the
    sources).  [clear_expired] removes the entries whose expiration has
    passed, never one with a reference; [object_size] counts the entries. *)
Definition clear_expired {K V : Type} (now : Z) (c : DynamicCache K V) : DynamicCache K V :=
  {| dc_entries :=
       filter (fun e => ~ (entry_ref e = 0%nat /\ entry_expire e < now)) (dc_entries c);
     dc_capacity := dc_capacity c; dc_ttl := dc_ttl c |}.

Definition object_size {K V : Type} (c : DynamicCache K V) : Z :=
  Z.of_nat (length (dc_entries c)).

Section Housekeeping.
Context {CO : Collaborators} {SL : StateLoaders}.

(** [UpdateManager::expire_cache].  [MonotonicMillis n] is the (n+1)-th
    reading of the clock by this call: one for the test, one by each
    [clear_expired], one for the new [_last_clear_expired_cache_millis], which
    is given and returned beside the caches. *)
Definition expire_cache (MonotonicMillis : nat -> Z) (_last_clear_expired_cache_millis : Z)
    (um : UpdateManager) (s : StateCaches) : Metrics * Z * StateCaches :=
  let metrics :=
    {| update_primary_index_num := to_int64 (object_size (_index_cache s));
       update_primary_index_bytes_total := to_int64 (dc_size (_index_cache s));
       update_del_vector_num := to_int64 (Z.of_nat (size (_del_vec_cache um)));
       update_del_vector_bytes_total := accumulate_del_vector_bytes (_del_vec_cache um) |} in
  if bool_decide (_cache_expire_ms s
                  < to_int64 (MonotonicMillis 0%nat - _last_clear_expired_cache_millis))
  then
    (metrics, MonotonicMillis 4%nat,
     {| _index_cache := clear_expired (MonotonicMillis 3%nat) (_index_cache s);
        _update_state_cache := clear_expired (MonotonicMillis 1%nat) (_update_state_cache s);
        _update_column_state_cache :=
          clear_expired (MonotonicMillis 2%nat) (_update_column_state_cache s);
        _keep_pindex_bf := _keep_pindex_bf s;
        _cache_expire_ms := _cache_expire_ms s |})
  else (metrics, _last_clear_expired_cache_millis, s).

End Housekeeping.

(** ** Construction and configuration *)

(** [std::max(std::min(100, percent), 0)] *)
Definition clamp_percent (percent : Z) : Z := Z.max (Z.min 100 percent) 0.

(** The limit the constructor gives to the tracker of the update states:
    [-1] without a parent tracker, else the clamped percentage of the parent's
    limit, computed in [int64_t]. *)
Definition preload_mem_limit (_update_mem_tracker : option MemTracker)
    (lake_pk_preload_memory_limit_percent : Z) : Z :=
  match _update_mem_tracker with
  | None => -1
  | Some t =>
      to_int64 (to_int64 (limit t) * clamp_percent lake_pk_preload_memory_limit_percent)
        `quot` 100
  end.

(** The capacity the constructor sets on the index cache, a [size_t]. *)
Definition index_cache_capacity (byte_limits update_memory_limit_percent : Z) : Z :=
  to_uint64 (to_int64 (byte_limits * clamp_percent update_memory_limit_percent) `quot` 100).

(** [UpdateManager::get_index_cache_expire_ms]: the product is taken in
    [int32_t] and widened on return.  A product that does not fit is written
    as the two's-complement wrap-around the compiled multiplication gives
    (the C++ standard leaves signed overflow undefined). *)
Definition get_index_cache_expire_ms (tablet_index_cache_expire_sec _cache_expire_ms : Z) : Z :=
  if bool_decide (0 < tablet_index_cache_expire_sec)
  then to_int32 (tablet_index_cache_expire_sec * 1000)
  else _cache_expire_ms.

(** What [UpdateManager::init] has built when it returns. *)
Record Pools := {
  apply_max_threads : option Z;
  get_pindex_max_threads : option Z;
  compaction_manager : bool;
  load_executor : bool;
}.

(** [UpdateManager::init].  The builders and the [init] methods of the two
    helpers are given by their status. *)
Definition init (num_cores transaction_apply_worker_count get_pindex_worker_count : Z)
    (build_update_apply : Z -> Status) (build_get_pindex : Z -> Status)
    (compaction_mgr_init load_executor_init : Status) : Status * Pools :=
  let max_thread_cnt :=
    if bool_decide (0 < transaction_apply_worker_count) then transaction_apply_worker_count
    else num_cores in
  match build_update_apply max_thread_cnt with
  | Err code msg =>
      (Err code msg,
       {| apply_max_threads := None; get_pindex_max_threads := None;
          compaction_manager := false; load_executor := false |})
  | OK =>
      let max_get_thread_cnt :=
        if bool_decide (max_thread_cnt < get_pindex_worker_count) then get_pindex_worker_count
        else to_int32 (max_thread_cnt * 2) in
      match build_get_pindex max_get_thread_cnt with
      | Err code msg =>
          (Err code msg,
           {| apply_max_threads := Some max_thread_cnt; get_pindex_max_threads := None;
              compaction_manager := false; load_executor := false |})
      | OK =>
          match compaction_mgr_init with
          | Err code msg =>
              (Err code msg,
               {| apply_max_threads := Some max_thread_cnt;
                  get_pindex_max_threads := Some max_get_thread_cnt;
                  compaction_manager := true; load_executor := false |})
          | OK =>
              (load_executor_init,
               {| apply_max_threads := Some max_thread_cnt;
                  get_pindex_max_threads := Some max_get_thread_cnt;
                  compaction_manager := true; load_executor := true |})
          end
      end
  end.

(** ** Memory statistics *)

(** The order [std::sort] leaves with the comparator
    [lhs.second > rhs.second].  [std::sort] does not fix the order of entries
    of equal size; the sort below is one of the orders it may leave. *)
Definition by_size_desc (lhs rhs : Z * Z) : Prop := rhs.2 <= lhs.2.

#[global] Instance by_size_desc_dec lhs rhs : Decision (by_size_desc lhs rhs).
Proof. unfold by_size_desc. apply _. Defined.

(** ["%lu(%zuM)"] *)
Definition format_topn (e : Z * Z) : string :=
  pretty e.1 +:+ "(" +:+ pretty (e.2 `quot` (1024 * 1024)) +:+ "M)".

(** The entries [topn_memory_stats] prints, in the order it prints them. *)
Definition topn_entries (primary_index_stats : list (Z * Z)) (topn : nat) : list (Z * Z) :=
  take (Nat.min (length primary_index_stats) topn) (merge_sort by_size_desc primary_index_stats).

(** [UpdateManager::topn_memory_stats]; [primary_index_stats] is the result
    of [_index_cache.get_entry_sizes()]. *)
Definition topn_memory_stats (primary_index_stats : list (Z * Z)) (topn : nat) : string :=
  foldl (fun ret e => ret +:+ format_topn e) "" (topn_entries primary_index_stats topn).

(** ** The scan operator *)

(** What [OlapScanOperator::has_output] and [is_finished] read: the scan
    context, the operator's own flag and the answers of the base class. *)
Record ScanView := {
  ctx_is_prepare_finished : bool;
  ctx_is_finished : bool;
  _is_finished : bool;
  ScanOperator_has_output : bool;
  ScanOperator_is_finished : bool;
}.

(** [OlapScanOperator::has_output] *)
Definition has_output (op : ScanView) : bool :=
  if negb (ctx_is_prepare_finished op) || ctx_is_finished op then false
  else ScanOperator_has_output op.

(** [OlapScanOperator::is_finished] *)
Definition is_finished (op : ScanView) : bool :=
  if ctx_is_finished op || _is_finished op then true
  else if negb (ctx_is_prepare_finished op) then false
  else ScanOperator_is_finished op.

(** ** A store and loaders to run the model on *)

(** Modelled from the spec: the persistent meta store (storage/kv_store.h and
    storage/tablet_meta_manager.h are not part of the sources).  It holds, for
    a segment, the delete vectors written so far and its delta column groups;
    [get_del_vector] answers with the nearest vector not above the requested
    version and with the latest version held. *)
Record MemStore := {
  store_del_vecs : gmap TabletSegmentId (list DelVector);
  store_dcgs : gmap TabletSegmentId DeltaColumnGroupList;
  store_healthy : bool;
}.

Definition newest (l : list DelVector) : option DelVector :=
  foldr (fun d acc =>
           match acc with
           | Some b => if bool_decide (version b < version d) then Some d else Some b
           | None => Some d
           end) None l.

Definition MemStore_get_del_vector (s : MemStore) (tablet : Z) (segment : N) (ver : Z)
    : Status * DelVector * Z :=
  let all := default [] (store_del_vecs s !! {| tablet_id := tablet; segment_id := segment |}) in
  match store_healthy s, newest all, newest (filter (fun d => version d <= ver) all) with
  | true, Some top, Some d => (OK, d, version top)
  | true, _, _ => (Err NotFound "no delete vector", DelVector_new, 0)
  | false, _, _ => (Err IOError "meta store unavailable", DelVector_new, 0)
  end.

Definition MemStore_get_delta_column_group (s : MemStore) (tablet : Z) (segment : N) (ver : Z)
    : Status * DeltaColumnGroupList :=
  if store_healthy s then
    (OK, filter (fun dcg => dcg_version dcg <= ver)
           (default [] (store_dcgs s !! {| tablet_id := tablet; segment_id := segment |})))
  else (Err IOError "meta store unavailable", []).

(** Modelled from the spec: [StorageEngine::search_delta_column_groups_by_version]
    (storage_engine.cpp is not part of the sources).  The deltas relevant to a
    read at a version are those whose version is not above it; they are added
    to the output list. *)
Definition deltas_up_to (all_dcgs : DeltaColumnGroupList) (ver : Z)
    (dcgs : DeltaColumnGroupList) : DeltaColumnGroupList :=
  dcgs ++ filter (fun dcg => dcg_version dcg <= ver) all_dcgs.

#[global] Instance MemStore_collaborators : Collaborators := {|
  KVStore := MemStore;
  TabletMetaManager_get_del_vector := MemStore_get_del_vector;
  TabletMetaManager_get_delta_column_group := MemStore_get_delta_column_group;
  TabletMetaManager_delete_delta_column_group := fun s _ _ =>
    if store_healthy s then OK else Err IOError "meta store unavailable";
  KVStore_write_batch := fun s _ =>
    if store_healthy s then OK else Err IOError "meta store unavailable";
  FileSystem_CreateSharedFromString := fun _ => OK;
  memory_usage := fun d => (16 + 4 * N.of_nat (cardinality d))%N;
  dcg_memory_usage := fun dcg => (24 + 8 * N.of_nat (length (column_files dcg)))%N;
  search_delta_column_groups_by_version := deltas_up_to;
|}.

(** Loaders whose outcome is written in the rowset id. *)
Definition scripted_status (rowset : Rowset) : Status :=
  if bool_decide (rowset_id rowset = "oom") then Err MemLimitExceeded "memory limit exceeded"
  else if bool_decide (rowset_id rowset = "slow") then Err TimeOut "wait index lock timeout"
  else if bool_decide (rowset_id rowset = "corrupt") then Err IOError "corrupted segment"
  else OK.

#[global] Instance scripted_loaders : StateLoaders := {|
  RowsetUpdateState := Z;
  RowsetColumnUpdateState := Z;
  PrimaryIndex := unit;
  RowsetUpdateState_new := 0;
  RowsetColumnUpdateState_new := 0;
  RowsetUpdateState_load := fun _ rowset _ => (scripted_status rowset, 4096);
  RowsetColumnUpdateState_load := fun _ rowset _ => (scripted_status rowset, 8192);
  RowsetUpdateState_memory_usage := fun v => v;
  RowsetColumnUpdateState_memory_usage := fun v => v;
  submit_task_and_wait_for := fun tablet index_cache =>
    if bool_decide (tablet_state tablet = TABLET_SHUTDOWN)
    then (Err TimeOut "tablet shutdown", index_cache)
    else
      (OK,
       dc_release 0 (tablet_tablet_id tablet)
         (update_object_size (tablet_tablet_id tablet) 100
            (get_or_create (tablet_tablet_id tablet) tt index_cache).2));
|}.

(** The scenario of the specification: tablet 7, segment 3, the store holds
    the delete vectors of versions 1 and 3. *)
Definition seg73 : TabletSegmentId := {| tablet_id := 7; segment_id := 3 |}.
Definition delvec1 : DelVector := {| version := 1; roaring := [2; 5]%N |}.
Definition delvec3 : DelVector := {| version := 3; roaring := [2; 5; 9]%N |}.
Definition delvec5 : DelVector := {| version := 5; roaring := [2; 5; 9; 11]%N |}.

Definition scenario_store : MemStore :=
  {| store_del_vecs := {[ seg73 := [delvec3; delvec1] ]};
     store_dcgs := ∅;
     store_healthy := true |}.

(** The store of the scenario before version 3 was written to it. *)
Definition scenario_store_before : MemStore :=
  {| store_del_vecs := {[ seg73 := [delvec1] ]};
     store_dcgs := ∅;
     store_healthy := true |}.

Definition empty_tracker : MemTracker := {| consumption := 0; limit := -1 |}.

Definition cold : UpdateManager :=
  {| _del_vec_cache := ∅; _del_vec_cache_mem_tracker := empty_tracker;
     _delta_column_group_cache := ∅; _delta_column_group_cache_mem_tracker := empty_tracker;
     meta_calls := [] |}.

(** The cache after the segment's vector of version 3, or of version 5, was
    put there by [set_cached_del_vec]. *)
Definition warm3 : UpdateManager := (set_cached_del_vec seg73 delvec3 cold).2.
Definition warm5 : UpdateManager := (set_cached_del_vec seg73 delvec5 cold).2.

(** A store with delta column groups for two segments of tablet 7 and one of
    tablet 8, and the cache after a read of each of them. *)
Definition seg74 : TabletSegmentId := {| tablet_id := 7; segment_id := 4 |}.
Definition seg80 : TabletSegmentId := {| tablet_id := 8; segment_id := 0 |}.
Definition dcg1 : DeltaColumnGroup := {| dcg_version := 1; column_files := ["v1.cols"] |}.
Definition dcg2 : DeltaColumnGroup := {| dcg_version := 2; column_files := ["v2.cols"] |}.
Definition dcg5 : DeltaColumnGroup := {| dcg_version := 5; column_files := ["v5.cols"] |}.

Definition dcg_store : MemStore :=
  {| store_del_vecs := ∅;
     store_dcgs := {[ seg73 := [dcg5; dcg2; dcg1]; seg74 := [dcg2]; seg80 := [dcg1] ]};
     store_healthy := true |}.

Definition dcg_warm : UpdateManager :=
  (get_delta_column_group dcg_store seg80 9 []
     (get_delta_column_group dcg_store seg74 9 []
        (get_delta_column_group dcg_store seg73 9 [] cold).2).2).2.

(** A clock that stands still, and one that jumps 20 ms between readings. *)
Definition steady_clock : nat -> Z := fun _ => 1000.
Definition jumping_clock : nat -> Z := fun n => 1000 + 20 * Z.of_nat n.

(** The tracker of a keyed cache agrees with the memory of its values. *)
Definition del_vec_accounted `{Collaborators} (um : UpdateManager) : Prop :=
  consumption (_del_vec_cache_mem_tracker um) = del_vec_cache_usage um.

Definition delta_column_group_accounted `{Collaborators} (um : UpdateManager) : Prop :=
  consumption (_delta_column_group_cache_mem_tracker um) = delta_column_group_cache_usage um.

(** The delta-column-group cache of [dcg_warm] after a full sweep of tablet 7
    with minimum readable version 3: version 2 is what a read at version 3
    resolves to in both segments, only version 1 of segment 3 is below it. *)
Definition dcg_swept : gmap TabletSegmentId DeltaColumnGroupList :=
  {[ seg73 := [dcg5; dcg2]; seg74 := [dcg2]; seg80 := [dcg1] ]}.

(** A manager with empty state caches, and an index cache of capacity 1000
    holding three indexes, the second one in use. *)
Definition index_entry (tablet : Z) (refs : nat) (bytes : Z) : Entry Z unit :=
  {| entry_key := tablet; entry_value := tt; entry_ref := refs; entry_expire := 0;
     entry_size := bytes |}.

Definition idle : StateCaches :=
  {| _index_cache :=
       {| dc_entries := [index_entry 7 0 400; index_entry 8 1 300; index_entry 9 0 250];
          dc_capacity := 1000; dc_ttl := 360000 |};
     _update_state_cache := {| dc_entries := []; dc_capacity := 2 ^ 64 - 1; dc_ttl := 360000 |};
     _update_column_state_cache :=
       {| dc_entries := []; dc_capacity := 2 ^ 64 - 1; dc_ttl := 360000 |};
     _keep_pindex_bf := true;
     _cache_expire_ms := 360000 |}.

(** [idle] with the capacity the index cache has before [set_capacity], and
    keeps when the configured share of an unlimited process is 100%: the
    largest [size_t]. *)
Definition unbounded : StateCaches :=
  {| _index_cache :=
       {| dc_entries := dc_entries (_index_cache idle);
          dc_capacity := 2 ^ 64 - 1; dc_ttl := 360000 |};
     _update_state_cache := _update_state_cache idle;
     _update_column_state_cache := _update_column_state_cache idle;
     _keep_pindex_bf := true;
     _cache_expire_ms := 360000 |}.

Definition running_tablet : Tablet := {| tablet_tablet_id := 7; tablet_state := TABLET_RUNNING |}.

Definition rowset_of (id : string) (column_mode : bool) : Rowset :=
  {| rowset_id := id; has_data_files := true; is_partial_update := column_mode;
     is_column_mode_partial_update := column_mode |}.

(** A store that fails every call. *)
Definition broken_store : MemStore :=
  {| store_del_vecs := ∅; store_dcgs := ∅; store_healthy := false |}.

(** * Properties *)

(** ** The delete-vector cache *)

Section DelVecCacheProperties.
Context {CO : Collaborators}.

Implicit Types (um : UpdateManager) (tsid k : TabletSegmentId) (delvec cached : DelVector).

Lemma meta_calls_log_meta_call c um : meta_calls (log_meta_call c um) = meta_calls um ++ [c].
Proof. reflexivity. Qed.

(** The second critical section of [get_del_vec] either leaves the slot of
    its key as it is or puts a strictly newer vector there. *)
Lemma get_del_vec_fill_strict tsid delvec latest um cached :
  _del_vec_cache um !! tsid = Some cached ->
  get_del_vec_fill tsid delvec latest um = um
  \/ (_del_vec_cache (get_del_vec_fill tsid delvec latest um) !! tsid = Some delvec
      /\ version cached < version delvec).
Proof.
  intros Hc. unfold get_del_vec_fill.
  case_bool_decide as Hlatest; [|by left].
  rewrite Hc. case_bool_decide as Hnewer; [|by left].
  right. cbn. rewrite lookup_insert_eq. split; [done|lia].
Qed.

Lemma get_del_vec_fill_other tsid delvec latest um k :
  k <> tsid ->
  _del_vec_cache (get_del_vec_fill tsid delvec latest um) !! k = _del_vec_cache um !! k.
Proof.
  intros Hne. unfold get_del_vec_fill.
  case_bool_decide; [|done].
  destruct (_del_vec_cache um !! tsid) as [c|]; [case_bool_decide|]; cbn;
    by rewrite ?lookup_insert_ne.
Qed.

Lemma get_del_vec_fill_version tsid delvec latest um k cached :
  _del_vec_cache um !! k = Some cached ->
  exists cached', _del_vec_cache (get_del_vec_fill tsid delvec latest um) !! k = Some cached'
                  /\ version cached <= version cached'.
Proof.
  intros Hc. destruct (decide (k = tsid)) as [->|Hne].
  - destruct (get_del_vec_fill_strict tsid delvec latest um cached Hc) as [->|[Hd Hlt]].
    + exists cached. split; [done|lia].
    + exists delvec. split; [done|lia].
  - exists cached. rewrite get_del_vec_fill_other by done. split; [done|lia].
Qed.

Lemma set_cached_del_vec_version tsid delvec um k cached :
  _del_vec_cache um !! k = Some cached ->
  exists cached', _del_vec_cache (set_cached_del_vec tsid delvec um).2 !! k = Some cached'
                  /\ version cached <= version cached'.
Proof.
  intros Hc. unfold set_cached_del_vec.
  destruct (decide (k = tsid)) as [->|Hne].
  - rewrite Hc. case_bool_decide as Hle; cbn.
    + exists cached. split; [done|lia].
    + exists delvec. rewrite lookup_insert_eq. split; [done|lia].
  - exists cached. split; [|lia].
    destruct (_del_vec_cache um !! tsid) as [c|]; [case_bool_decide|]; cbn;
      by rewrite ?lookup_insert_ne.
Qed.

Lemma get_del_vec_state meta tsid ver pdelvec um :
  (get_del_vec meta tsid ver pdelvec um).2 = um
  \/ (get_del_vec meta tsid ver pdelvec um).2
       = log_meta_call (GetDelVector tsid ver) um
  \/ exists delvec latest,
       (get_del_vec meta tsid ver pdelvec um).2
       = get_del_vec_fill tsid delvec latest (log_meta_call (GetDelVector tsid ver) um).
Proof.
  unfold get_del_vec. destruct (get_del_vec_cached tsid ver um); [by left|].
  unfold get_del_vec_in_meta.
  destruct (TabletMetaManager_get_del_vector _ _ _ _) as [[st delvec] latest].
  destruct st; cbn; [right; right; eauto|right; by left].
Qed.

Lemma get_del_vec_version meta tsid ver pdelvec um k cached :
  _del_vec_cache um !! k = Some cached ->
  exists cached', _del_vec_cache (get_del_vec meta tsid ver pdelvec um).2 !! k = Some cached'
                  /\ version cached <= version cached'.
Proof.
  intros Hc.
  destruct (get_del_vec_state meta tsid ver pdelvec um) as [->|[->|(delvec & latest & ->)]].
  - exists cached. split; [done|lia].
  - exists cached. split; [done|lia].
  - by apply get_del_vec_fill_version.
Qed.

Lemma run_del_vec_op_version op um k cached :
  _del_vec_cache um !! k = Some cached ->
  exists cached', _del_vec_cache (run_del_vec_op um op) !! k = Some cached'
                  /\ version cached <= version cached'.
Proof.
  destruct op; cbn.
  - apply get_del_vec_version.
  - apply get_del_vec_fill_version.
  - apply set_cached_del_vec_version.
Qed.

Lemma run_del_vec_ops_version ops um k cached :
  _del_vec_cache um !! k = Some cached ->
  exists cached', _del_vec_cache (run_del_vec_ops ops um) !! k = Some cached'
                  /\ version cached <= version cached'.
Proof.
  revert um cached. induction ops as [|op ops IH]; intros um cached Hc.
  - exists cached. split; [done|lia].
  - destruct (run_del_vec_op_version op um k cached Hc) as (c1 & Hc1 & Hle1).
    destruct (IH _ _ Hc1) as (c2 & Hc2 & Hle2).
    exists c2. split; [done|lia].
Qed.

(** C1.  Once a segment key has a cached delete vector, no sequence of
    [get_del_vec] and [set_cached_del_vec] steps lowers the cached version;
    [set_cached_del_vec] with a version not above the cached one fails with
    [InternalError] and changes nothing; the fill step of [get_del_vec] only
    replaces the cached vector by one of strictly higher version. *)
Theorem del_vec_version_never_regresses tsid cached um :
  _del_vec_cache um !! tsid = Some cached ->
  (forall ops, exists cached',
      _del_vec_cache (run_del_vec_ops ops um) !! tsid = Some cached'
      /\ version cached <= version cached')
  /\ (forall delvec, version delvec <= version cached ->
        exists msg, set_cached_del_vec tsid delvec um = (Err InternalError msg, um))
  /\ (forall delvec latest,
        get_del_vec_fill tsid delvec latest um = um
        \/ (_del_vec_cache (get_del_vec_fill tsid delvec latest um) !! tsid = Some delvec
            /\ version cached < version delvec)).
Proof.
  intros Hc. split; [|split].
  - intros ops. by apply run_del_vec_ops_version.
  - intros delvec Hle. unfold set_cached_del_vec. rewrite Hc.
    rewrite bool_decide_eq_true_2 by done. eauto.
  - intros delvec latest. by apply get_del_vec_fill_strict.
Qed.

(** A request at or above the cached version is served from the cache: the
    state, and with it the list of calls on the store, is unchanged. *)
Lemma get_del_vec_cached_valid tsid ver cached um :
  _del_vec_cache um !! tsid = Some cached -> version cached <= ver ->
  get_del_vec_cached tsid ver um = Some cached.
Proof.
  intros Hc Hle. unfold get_del_vec_cached. rewrite Hc.
  by rewrite bool_decide_eq_true_2.
Qed.

(** C2, as the code has it.  A cached vector whose version is at most the
    requested version is returned without any access to the store. *)
Theorem get_del_vec_cache_hit meta tsid ver pdelvec cached um :
  _del_vec_cache um !! tsid = Some cached -> version cached <= ver ->
  get_del_vec meta tsid ver pdelvec um = (OK, Some cached, um).
Proof.
  intros Hc Hle. unfold get_del_vec.
  by rewrite (get_del_vec_cached_valid tsid ver cached um Hc Hle).
Qed.

(** After a successful [set_cached_del_vec], every request at or above the
    published version is a hit. *)
Lemma set_cached_del_vec_then_hit meta tsid ver pdelvec delvec um um' :
  set_cached_del_vec tsid delvec um = (OK, um') -> version delvec <= ver ->
  get_del_vec meta tsid ver pdelvec um' = (OK, Some delvec, um').
Proof.
  intros Hset Hle. unfold get_del_vec.
  rewrite (get_del_vec_cached_valid tsid ver delvec um'); [done| |done].
  unfold set_cached_del_vec in Hset.
  destruct (_del_vec_cache um !! tsid) as [c|]; [case_bool_decide|];
    simplify_eq; cbn; by rewrite lookup_insert_eq.
Qed.

(** C3, as the code has it.  On a miss with a successful load, the loaded
    vector is returned; it goes into the cache exactly when its version is the
    latest version reported by the store and the key has no cached vector or
    one of lower version; otherwise the cache is unchanged. *)
Theorem get_del_vec_miss_fill meta tsid ver pdelvec delvec latest um :
  get_del_vec_cached tsid ver um = None ->
  TabletMetaManager_get_del_vector meta (tablet_id tsid) (segment_id tsid) ver
    = (OK, delvec, latest) ->
  exists um',
    get_del_vec meta tsid ver pdelvec um = (OK, Some delvec, um')
    /\ meta_calls um' = meta_calls um ++ [GetDelVector tsid ver]
    /\ (version delvec <> latest -> _del_vec_cache um' = _del_vec_cache um)
    /\ (version delvec = latest ->
        match _del_vec_cache um !! tsid with
        | None => _del_vec_cache um' = <[tsid := delvec]> (_del_vec_cache um)
        | Some cached =>
            if bool_decide (version cached < latest)
            then _del_vec_cache um' = <[tsid := delvec]> (_del_vec_cache um)
            else _del_vec_cache um' = _del_vec_cache um
        end).
Proof.
  intros Hmiss Hload. unfold get_del_vec, get_del_vec_in_meta.
  rewrite Hmiss, Hload. cbn [status_ok]. eexists. split; [reflexivity|].
  unfold get_del_vec_fill. cbn [_del_vec_cache log_meta_call].
  split; [|split].
  - case_bool_decide; [|done].
    destruct (_del_vec_cache um !! tsid); [case_bool_decide|]; done.
  - intros Hne. by rewrite bool_decide_eq_false_2.
  - intros Heq. rewrite bool_decide_eq_true_2 by done.
    destruct (_del_vec_cache um !! tsid); [case_bool_decide|]; done.
Qed.

(** C8.  [get_latest_del_vec] returns the cached vector of the key when there
    is one, whatever its version and whatever the store holds, without any
    call on the store; otherwise it asks the store for version [INT64_MAX],
    puts the loaded vector into the cache, accounts for its memory and returns
    it. *)
Theorem get_latest_del_vec_resolves meta tsid pdelvec um :
  match _del_vec_cache um !! tsid with
  | Some cached => get_latest_del_vec meta tsid pdelvec um = (OK, Some cached, um)
  | None =>
      forall delvec latest,
        TabletMetaManager_get_del_vector meta (tablet_id tsid) (segment_id tsid) INT64_MAX
          = (OK, delvec, latest) ->
        exists um',
          get_latest_del_vec meta tsid pdelvec um = (OK, Some delvec, um')
          /\ _del_vec_cache um' = <[tsid := delvec]> (_del_vec_cache um)
          /\ meta_calls um' = meta_calls um ++ [GetDelVector tsid INT64_MAX]
          /\ _del_vec_cache_mem_tracker um'
             = consume (Z.of_N (memory_usage delvec)) (_del_vec_cache_mem_tracker um)
  end.
Proof.
  unfold get_latest_del_vec.
  destruct (_del_vec_cache um !! tsid) as [cached|] eqn:Hc; [done|].
  intros delvec latest Hload. unfold get_del_vec_in_meta. rewrite Hload. cbn.
  eexists. split; [reflexivity|]. done.
Qed.

End DelVecCacheProperties.

(** Witness of C1: the scenario's segment with version 3 cached. *)
Lemma del_vec_version_never_regresses_witness :
  _del_vec_cache warm3 !! seg73 = Some delvec3
  /\ ((forall ops, exists cached',
        _del_vec_cache (run_del_vec_ops ops warm3) !! seg73 = Some cached'
        /\ version delvec3 <= version cached')
      /\ (forall delvec, version delvec <= version delvec3 ->
            exists msg, set_cached_del_vec seg73 delvec warm3 = (Err InternalError msg, warm3))
      /\ (forall delvec latest,
            get_del_vec_fill seg73 delvec latest warm3 = warm3
            \/ (_del_vec_cache (get_del_vec_fill seg73 delvec latest warm3) !! seg73 = Some delvec
                /\ version delvec3 < version delvec))).
Proof.
  split; [reflexivity|].
  apply (del_vec_version_never_regresses (CO:=MemStore_collaborators) seg73 delvec3 warm3). reflexivity.
Defined.

Lemma get_del_vec_cache_hit_witness :
  _del_vec_cache warm3 !! seg73 = Some delvec3 /\ version delvec3 <= 4
  /\ get_del_vec scenario_store seg73 4 None warm3 = (OK, Some delvec3, warm3).
Proof.
  split; [reflexivity|]. split; [vm_compute; discriminate|].
  apply (get_del_vec_cache_hit (CO:=MemStore_collaborators) scenario_store seg73 4 None delvec3 warm3);
    [reflexivity|vm_compute; discriminate].
Defined.

(** C2, as the specification words it, fails on its own scenario: with
    version 3 cached, the request for version 2 goes to the store and gets
    the vector of version 1. *)
Lemma get_del_vec_newer_cached_is_miss :
  _del_vec_cache warm3 !! seg73 = Some delvec3
  /\ 2 <= version delvec3
  /\ get_del_vec scenario_store seg73 2 None warm3
     = (OK, Some delvec1, log_meta_call (GetDelVector seg73 2) warm3)
  /\ get_del_vec scenario_store seg73 2 None warm3 <> (OK, Some delvec3, warm3).
Proof.
  split; [reflexivity|]. split; [vm_compute; discriminate|].
  split; [reflexivity|]. intros Heq. discriminate Heq.
Qed.

Lemma get_del_vec_miss_fill_witness :
  get_del_vec_cached seg73 3 cold = None
  /\ TabletMetaManager_get_del_vector scenario_store (tablet_id seg73) (segment_id seg73) 3
     = (OK, delvec3, 3)
  /\ exists um',
      get_del_vec scenario_store seg73 3 None cold = (OK, Some delvec3, um')
      /\ meta_calls um' = meta_calls cold ++ [GetDelVector seg73 3]
      /\ (version delvec3 <> 3 -> _del_vec_cache um' = _del_vec_cache cold)
      /\ (version delvec3 = 3 ->
          match _del_vec_cache cold !! seg73 with
          | None => _del_vec_cache um' = <[seg73 := delvec3]> (_del_vec_cache cold)
          | Some cached =>
              if bool_decide (version cached < 3)
              then _del_vec_cache um' = <[seg73 := delvec3]> (_del_vec_cache cold)
              else _del_vec_cache um' = _del_vec_cache cold
          end).
Proof.
  split; [reflexivity|]. split; [reflexivity|].
  apply (get_del_vec_miss_fill (CO:=MemStore_collaborators) scenario_store seg73 3 None delvec3 3 cold); reflexivity.
Defined.

(** C3, as the specification words it, fails when the key holds a newer
    vector: the request for version 3 misses the cache that holds version 5,
    the store answers with version 3, which is its latest, and the loaded
    vector is returned but not put into the cache. *)
Lemma get_del_vec_latest_not_published :
  get_del_vec_cached seg73 3 warm5 = None
  /\ TabletMetaManager_get_del_vector scenario_store 7 3 3 = (OK, delvec3, version delvec3)
  /\ (get_del_vec scenario_store seg73 3 None warm5).1 = (OK, Some delvec3)
  /\ _del_vec_cache (get_del_vec scenario_store seg73 3 None warm5).2 !! seg73 = Some delvec5
  /\ _del_vec_cache (get_del_vec scenario_store seg73 3 None warm5).2 !! seg73 <> Some delvec3.
Proof.
  split; [reflexivity|]. split; [reflexivity|]. split; [reflexivity|].
  split; [reflexivity|]. intros Heq. discriminate Heq.
Qed.

(** C8, as it is claimed, fails on a hit: [get_latest_del_vec] filled the
    cache with version 1 when that was the latest version of the store; the
    store has version 3 since, which nobody published into the cache, and the
    call still returns version 1, without a call on the store. *)
Lemma get_latest_del_vec_stale_hit :
  get_latest_del_vec scenario_store_before seg73 None cold
  = (OK, Some delvec1, (get_latest_del_vec scenario_store_before seg73 None cold).2)
  /\ TabletMetaManager_get_del_vector scenario_store 7 3 INT64_MAX
     = (OK, delvec3, version delvec3)
  /\ get_latest_del_vec scenario_store seg73 None
       (get_latest_del_vec scenario_store_before seg73 None cold).2
     = (OK, Some delvec1, (get_latest_del_vec scenario_store_before seg73 None cold).2)
  /\ version delvec1 < version delvec3.
Proof. split_and!; [reflexivity|reflexivity|reflexivity|]. cbn. lia. Qed.


(** ** The delta-column-group cache *)

Section DeltaColumnGroupCacheProperties.
Context {CO : Collaborators}.

Implicit Types (um : UpdateManager) (tsid k : TabletSegmentId) (dcgs : DeltaColumnGroupList).

(** A request for a key that is in the cache is answered from the cached
    list, and the state, with its list of calls on the store, is unchanged. *)
Lemma get_delta_column_group_hit meta tsid ver dcgs cached um :
  _delta_column_group_cache um !! tsid = Some cached ->
  get_delta_column_group meta tsid ver dcgs um
  = (OK, search_delta_column_groups_by_version cached ver dcgs, um).
Proof. intros Hc. unfold get_delta_column_group. by rewrite Hc. Qed.

Lemma get_cached_delta_column_group_hit tsid ver dcgs cached um :
  _delta_column_group_cache um !! tsid = Some cached ->
  get_cached_delta_column_group tsid ver dcgs um
  = (true, search_delta_column_groups_by_version cached ver dcgs, um).
Proof. intros Hc. unfold get_cached_delta_column_group. by rewrite Hc. Qed.

(** C7.  When [get_delta_column_group] misses the cache and the store answers,
    the list of the store, empty or not, is the cached list of the key
    afterwards; later calls of [get_cached_delta_column_group] and of
    [get_delta_column_group] for the key are hits that leave the state, and so
    the list of calls on the store, as it is. *)
Theorem get_delta_column_group_miss_caches meta tsid ver dcgs new_dcgs um :
  _delta_column_group_cache um !! tsid = None ->
  TabletMetaManager_get_delta_column_group meta (tablet_id tsid) (segment_id tsid) INT64_MAX
    = (OK, new_dcgs) ->
  exists um',
    get_delta_column_group meta tsid ver dcgs um
    = (OK, search_delta_column_groups_by_version new_dcgs ver dcgs, um')
    /\ _delta_column_group_cache um' = <[tsid := new_dcgs]> (_delta_column_group_cache um)
    /\ meta_calls um' = meta_calls um ++ [GetDeltaColumnGroup tsid INT64_MAX]
    /\ (forall ver' dcgs',
          get_cached_delta_column_group tsid ver' dcgs' um'
          = (true, search_delta_column_groups_by_version new_dcgs ver' dcgs', um'))
    /\ (forall meta' ver' dcgs',
          get_delta_column_group meta' tsid ver' dcgs' um'
          = (OK, search_delta_column_groups_by_version new_dcgs ver' dcgs', um')).
Proof.
  intros Hmiss Hload.
  unfold get_delta_column_group at 1. rewrite Hmiss.
  unfold get_delta_column_group_in_meta. rewrite Hload. cbn [status_ok].
  eexists. split; [reflexivity|].
  unfold get_delta_column_group_fill. cbn [_delta_column_group_cache log_meta_call].
  rewrite Hmiss.
  assert (<[tsid := new_dcgs]> (_delta_column_group_cache um) !! tsid = Some new_dcgs)
    as Hin by apply lookup_insert_eq.
  split; [done|]. split; [done|]. split.
  - intros ver' dcgs'. by apply get_cached_delta_column_group_hit.
  - intros meta' ver' dcgs'. by apply get_delta_column_group_hit.
Qed.

(** C10.  [get_cached_delta_column_group] leaves the whole state as it is,
    cache and list of calls on the store; on a hit it answers [true] with the
    output list as the version search over the cached list leaves it, on a
    miss it answers [false] with the output list as it was. *)
Theorem get_cached_delta_column_group_read_only tsid ver dcgs um :
  (get_cached_delta_column_group tsid ver dcgs um).2 = um
  /\ (get_cached_delta_column_group tsid ver dcgs um).1
     = match _delta_column_group_cache um !! tsid with
       | Some cached => (true, search_delta_column_groups_by_version cached ver dcgs)
       | None => (false, dcgs)
       end.
Proof.
  unfold get_cached_delta_column_group.
  by destruct (_delta_column_group_cache um !! tsid).
Qed.

End DeltaColumnGroupCacheProperties.

Lemma get_delta_column_group_miss_caches_witness :
  _delta_column_group_cache cold !! seg73 = None
  /\ TabletMetaManager_get_delta_column_group scenario_store (tablet_id seg73)
       (segment_id seg73) INT64_MAX = (OK, [])
  /\ exists um',
      get_delta_column_group scenario_store seg73 4 [] cold
      = (OK, search_delta_column_groups_by_version [] 4 [], um')
      /\ _delta_column_group_cache um' = <[seg73 := []]> (_delta_column_group_cache cold)
      /\ meta_calls um' = meta_calls cold ++ [GetDeltaColumnGroup seg73 INT64_MAX]
      /\ (forall ver' dcgs',
            get_cached_delta_column_group seg73 ver' dcgs' um'
            = (true, search_delta_column_groups_by_version [] ver' dcgs', um'))
      /\ (forall meta' ver' dcgs',
            get_delta_column_group meta' seg73 ver' dcgs' um'
            = (OK, search_delta_column_groups_by_version [] ver' dcgs', um')).
Proof.
  split; [reflexivity|]. split; [reflexivity|].
  apply (get_delta_column_group_miss_caches (CO:=MemStore_collaborators)
           scenario_store seg73 4 [] [] cold); reflexivity.
Defined.

(** ** Totals over a keyed cache *)

Section TotalUsage.
Context {V : Type} (usage : V -> Z).

Lemma total_usage_empty : total_usage usage ∅ = 0.
Proof. unfold total_usage. apply map_fold_empty. Qed.

Lemma total_usage_insert_None (m : gmap TabletSegmentId V) k v :
  m !! k = None -> total_usage usage (<[k := v]> m) = usage v + total_usage usage m.
Proof.
  intros Hk. unfold total_usage.
  rewrite map_fold_insert_L; [done| |done]. intros. lia.
Qed.

Lemma total_usage_delete (m : gmap TabletSegmentId V) k v :
  m !! k = Some v -> total_usage usage (delete k m) = total_usage usage m - usage v.
Proof.
  intros Hk. unfold total_usage.
  rewrite (map_fold_delete_L _ _ k v m); [lia| |done]. intros. lia.
Qed.

Lemma total_usage_insert_Some (m : gmap TabletSegmentId V) k old v :
  m !! k = Some old ->
  total_usage usage (<[k := v]> m) = usage v + total_usage usage m - usage old.
Proof.
  intros Hk. rewrite <-insert_delete_eq.
  rewrite total_usage_insert_None by apply lookup_delete_eq.
  rewrite (total_usage_delete m k old) by done. lia.
Qed.

Lemma total_usage_nonneg (m : gmap TabletSegmentId V) :
  (forall x, 0 <= usage x) -> 0 <= total_usage usage m.
Proof.
  intros Hpos. induction m as [|j x m Hj _ IH] using map_first_key_ind.
  - by rewrite total_usage_empty.
  - rewrite total_usage_insert_None by done. specialize (Hpos x). lia.
Qed.

Lemma total_usage_lookup_le (m : gmap TabletSegmentId V) k v :
  (forall x, 0 <= usage x) -> m !! k = Some v -> usage v <= total_usage usage m.
Proof.
  intros Hpos Hk. pose proof (total_usage_delete m k v Hk) as Hdel.
  pose proof (total_usage_nonneg (delete k m) Hpos). lia.
Qed.

End TotalUsage.

(** ** Garbage collection of delta column groups *)

Section GarbageCollectionProperties.
Context {CO : Collaborators}.

Implicit Types (um : UpdateManager) (k : TabletSegmentId) (l : DeltaColumnGroupList)
  (itr : list (TabletSegmentId * DeltaColumnGroupList))
  (cache : gmap TabletSegmentId DeltaColumnGroupList) (min tablet : Z).

Lemma tablet_prefix_tail tablet x itr : tablet_prefix tablet (x :: itr) -> tablet_prefix tablet itr.
Proof. intros Hp a y b -> Hy. by apply (Hp (x :: a) y b). Qed.

Lemma still_needed_version_spec min l :
  match still_needed_version min l with
  | Some n =>
      n <= min /\ (exists d, d ∈ l /\ dcg_version d = n)
      /\ forall d, d ∈ l -> dcg_version d <= min -> dcg_version d <= n
  | None => forall d, d ∈ l -> min < dcg_version d
  end.
Proof.
  induction l as [|d0 l IH]; cbn [still_needed_version foldr].
  - intros d Hd. by apply elem_of_nil in Hd.
  - fold (still_needed_version min l).
    destruct (still_needed_version min l) as [n|]; case_bool_decide as Hd0.
    + destruct IH as (Hn & (d & Hd & Hdv) & Hmax). split_and!; [lia| |].
      * destruct (decide (n <= dcg_version d0)).
        -- exists d0. split; [left|lia].
        -- exists d. split; [by right|lia].
      * intros d' [->|Hd']%elem_of_cons Hle; [lia|]. specialize (Hmax d' Hd' Hle). lia.
    + destruct IH as (Hn & (d & Hd & Hdv) & Hmax). split_and!; [done| |].
      * exists d. split; [by right|done].
      * intros d' [->|Hd']%elem_of_cons Hle; [lia|]. by apply Hmax.
    + split_and!; [done| |].
      * exists d0. split; [left|done].
      * intros d' [->|Hd']%elem_of_cons Hle; [lia|]. specialize (IH d' Hd'). lia.
    + intros d' [->|Hd']%elem_of_cons; [lia|]. by apply IH.
Qed.

Lemma still_needed_version_Some min l n :
  n <= min -> (exists d, d ∈ l /\ dcg_version d = n) ->
  (forall d, d ∈ l -> dcg_version d <= min -> dcg_version d <= n) ->
  still_needed_version min l = Some n.
Proof.
  intros Hn (d & Hd & Hdv) Hmax. pose proof (still_needed_version_spec min l) as Hspec.
  destruct (still_needed_version min l) as [n'|].
  - destruct Hspec as (Hn' & (d' & Hd' & Hdv') & Hmax'). f_equal.
    specialize (Hmax d' Hd'). specialize (Hmax' d Hd). lia.
  - specialize (Hspec d Hd). lia.
Qed.

(** A group is garbage exactly when its list has a newer group that is not
    above the minimum readable version. *)
Lemma is_garbage_superseded min l d :
  d ∈ l ->
  is_garbage min l d
  <-> exists d', d' ∈ l /\ dcg_version d < dcg_version d' /\ dcg_version d' <= min.
Proof.
  intros Hd. unfold is_garbage. pose proof (still_needed_version_spec min l) as Hspec.
  destruct (still_needed_version min l) as [n|].
  - destruct Hspec as (Hn & (d' & Hd' & Hdv') & Hmax). split.
    + intros [Hlt Hne]. exists d'. specialize (Hmax d Hd).
      assert (dcg_version d <> n) by congruence. split; [done|]. lia.
    + intros (d'' & Hd'' & Hlt & Hle). specialize (Hmax d'' Hd'' Hle).
      split; [lia|]. intros [= Heq]. lia.
  - split.
    + intros [Hlt _]. specialize (Hspec d Hd). lia.
    + intros (d'' & Hd'' & Hlt & Hle). specialize (Hspec d'' Hd''). lia.
Qed.

Lemma elem_of_live_groups min l d :
  d ∈ live_groups min l <-> d ∈ l /\ ~ is_garbage min l d.
Proof. unfold live_groups. rewrite list_elem_of_filter. tauto. Qed.

Lemma garbage_collection_kept l k min path cd cf :
  garbage_collection l k min path cd cf
  = (live_groups min l,
     cd ++ ((fun dcg => (k, dcg_version dcg)) <$> filter (is_garbage min l) l),
     cf ++ (filter (is_garbage min l) l
              ≫= fun dcg => (fun f => path +:+ "/" +:+ f) <$> column_files dcg)).
Proof. reflexivity. Qed.

(** What stays is at or above the minimum readable version, or is the version
    a read at the minimum readable version resolves to. *)
Lemma kept_versions l min :
  Forall (fun dcg => min <= dcg_version dcg
                     \/ still_needed_version min l = Some (dcg_version dcg))
         (live_groups min l).
Proof.
  apply Forall_forall. intros d [_ Hd]%elem_of_live_groups. unfold is_garbage in Hd.
  destruct (decide (min <= dcg_version d)); [by left|]. right.
  destruct (decide (still_needed_version min l = Some (dcg_version d))); [done|].
  exfalso. apply Hd. split; [lia|done].
Qed.

(** A read at any version from the minimum readable version on resolves to
    the same version before and after. *)
Lemma live_groups_readable l min ver :
  min <= ver -> still_needed_version ver (live_groups min l) = still_needed_version ver l.
Proof.
  intros Hver. pose proof (still_needed_version_spec ver l) as Hspec.
  destruct (still_needed_version ver l) as [n|].
  - destruct Hspec as (Hn & (d & Hd & Hdv) & Hmax).
    apply still_needed_version_Some; [done| |].
    + exists d. split; [|done]. apply elem_of_live_groups. split; [done|].
      intros (d' & Hd' & Hlt & Hle)%is_garbage_superseded; [|done].
      specialize (Hmax d' Hd'). lia.
    + intros d' [Hd' _]%elem_of_live_groups. by apply Hmax.
  - pose proof (still_needed_version_spec ver (live_groups min l)) as Hspec'.
    destruct (still_needed_version ver (live_groups min l)) as [n'|]; [|done].
    destruct Hspec' as (Hn' & (d & [Hd _]%elem_of_live_groups & Hdv) & _).
    specialize (Hspec d Hd). lia.
Qed.

Lemma live_groups_above l min d :
  d ∈ l -> min <= dcg_version d -> d ∈ live_groups min l.
Proof. intros Hd Hv. apply elem_of_live_groups. split; [done|]. intros [Hlt _]. lia. Qed.

Lemma filter_all {A : Type} (P : A -> Prop) `{!forall x, Decision (P x)} (l : list A) :
  Forall P l -> filter P l = l.
Proof.
  induction 1 as [|x l Hx _ IH]; [done|]. by rewrite filter_cons, decide_True, IH.
Qed.

Lemma filter_none {A : Type} (P : A -> Prop) `{!forall x, Decision (P x)} (l : list A) :
  Forall (fun x => ~ P x) l -> filter P l = [].
Proof.
  induction 1 as [|x l Hx _ IH]; [done|]. by rewrite filter_cons, decide_False.
Qed.

(** A second collection with the same or a lower minimum readable version
    finds nothing to remove. *)
Lemma live_groups_settled l min min' d :
  min' <= min -> d ∈ live_groups min l -> ~ is_garbage min' (live_groups min l) d.
Proof.
  intros Hmin Hd (d' & Hd' & Hlt & Hle)%is_garbage_superseded; [|done].
  apply elem_of_live_groups in Hd as [Hd Hlive]. apply elem_of_live_groups in Hd' as [Hd' _].
  apply Hlive. apply is_garbage_superseded; [done|]. exists d'. split_and!; [done|done|lia].
Qed.

Lemma length_kept_garbage l min :
  Z.of_nat (length l)
  = Z.of_nat (length (live_groups min l))
    + Z.of_nat (length (filter (is_garbage min l) l)).
Proof.
  unfold live_groups.
  rewrite <-(Permutation_length (filter_app_complement (is_garbage min l) l)).
  rewrite length_app. lia.
Qed.

Lemma garbage_collection_loop_spec clock begin tablet min path itr :
  forall reading cache cd cf cache' cd' cf',
    NoDup (itr.*1) ->
    (forall k l, (k, l) ∈ itr -> cache !! k = Some l) ->
    garbage_collection_loop clock begin reading tablet min path itr cache cd cf
    = (cache', cd', cf') ->
    (forall k v, (k, v) ∈ cd' ->
       (k, v) ∈ cd
       \/ (tablet_id k = tablet
           /\ exists l d, (k, l) ∈ itr /\ d ∈ l /\ dcg_version d = v /\ is_garbage min l d))
    /\ (forall k,
          cache' !! k = cache !! k
          \/ (tablet_id k = tablet
              /\ exists l, (k, l) ∈ itr /\ cache' !! k = Some (live_groups min l)))
    /\ delta_column_group_count cache
       = delta_column_group_count cache' + (Z.of_nat (length cd') - Z.of_nat (length cd))
    /\ ((forall n, clock n <= begin + 10) -> tablet_prefix tablet itr ->
        forall k l, (k, l) ∈ itr -> tablet_id k = tablet ->
                    cache' !! k = Some (live_groups min l)).
Proof.
  induction itr as [|[k0 l0] itr IH]; intros reading cache cd cf cache' cd' cf' Hnd Hin Hrun.
  - cbn in Hrun. simplify_eq. split_and!; [by left|by left|lia|].
    intros _ _ k l Hk. by apply elem_of_nil in Hk.
  - cbn [garbage_collection_loop] in Hrun.
    destruct (is_timeout begin (clock reading)) eqn:Htime.
    { simplify_eq. split_and!; [by left|by left|lia|].
      intros Hclock. specialize (Hclock reading).
      unfold is_timeout in Htime. apply bool_decide_eq_true_1 in Htime. lia. }
    case_bool_decide as Htab.
    2:{ simplify_eq. split_and!; [by left|by left|lia|].
        intros _ Hp k l Hk Hkt. exfalso.
        apply elem_of_cons in Hk as [Hk|Hk]; [by simplify_eq|].
        by apply (Hp [] (k0, l0) itr eq_refl Htab (k, l) Hk). }
    rewrite garbage_collection_kept in Hrun.
    apply NoDup_cons in Hnd as [Hk0 Hnd].
    assert (cache !! k0 = Some l0) as Hc0 by (apply Hin; left).
    assert (forall l, (k0, l) ∈ itr -> False) as Hfresh.
    { intros l Hl. apply Hk0. apply list_elem_of_fmap. by exists (k0, l). }
    apply IH in Hrun as (P1 & P2 & P3 & P4); [|done|].
    2:{ intros k l Hk. rewrite lookup_insert_ne; [apply Hin; by right|].
        intros ->. by eapply Hfresh. }
    split_and!.
    + intros k v Hkv. destruct (P1 k v Hkv) as [Hcd|(Ht & l & d & Hl & Hd & Hdv & Hg)].
      * apply elem_of_app in Hcd as [Hcd|Hcd]; [by left|]. right.
        apply list_elem_of_fmap in Hcd as (d & Heq & [Hg Hd]%list_elem_of_filter).
        simplify_eq. split; [done|]. exists l0, d. split_and!; [left|done|done|done].
      * right. split; [done|]. exists l, d. split_and!; [by right|done|done|done].
    + intros k. destruct (P2 k) as [Heq|(Ht & l & Hl & Hk)].
      * destruct (decide (k = k0)) as [->|Hne].
        -- right. split; [done|]. exists l0. split; [left|].
           by rewrite Heq, lookup_insert_eq.
        -- left. by rewrite Heq, lookup_insert_ne.
      * right. split; [done|]. exists l. split; [by right|done].
    + unfold delta_column_group_count in *.
      rewrite length_app, length_fmap in P3.
      rewrite (total_usage_insert_Some _ cache k0 l0) in P3 by done.
      pose proof (length_kept_garbage l0 min). lia.
    + intros Hclock Hp k l Hk Hkt.
      apply elem_of_cons in Hk as [Hk|Hk].
      * simplify_eq. destruct (P2 k0) as [Heq|(_ & l & Hl & _)].
        -- by rewrite Heq, lookup_insert_eq.
        -- exfalso. by eapply Hfresh.
      * apply P4; [done|by eapply tablet_prefix_tail|done|done].
Qed.

End GarbageCollectionProperties.

Section LowerBound.
Context {V : Type}.

Implicit Types (m : gmap TabletSegmentId V) (k : TabletSegmentId).

#[local] Instance entry_le_transitive :
  Transitive (fun a b : TabletSegmentId * V => tsid_le a.1 b.1).
Proof. intros a b c. unfold tsid_le. lia. Qed.

#[local] Instance entry_le_total :
  Total (fun a b : TabletSegmentId * V => tsid_le a.1 b.1).
Proof. intros a b. unfold tsid_le. lia. Qed.

Lemma elem_of_map_lower_bound k0 m k v :
  (k, v) ∈ map_lower_bound k0 m <-> m !! k = Some v /\ tsid_le k0 k.
Proof.
  unfold map_lower_bound, map_entries. rewrite list_elem_of_filter, merge_sort_Permutation.
  rewrite elem_of_map_to_list. cbn. tauto.
Qed.

Lemma NoDup_fst_filter (P : TabletSegmentId * V -> Prop) `{!forall x, Decision (P x)}
    (l : list (TabletSegmentId * V)) :
  NoDup (l.*1) -> NoDup ((filter P l).*1).
Proof.
  induction l as [|x l IH]; [done|]. rewrite fmap_cons. intros [Hx Hnd]%NoDup_cons.
  rewrite filter_cons. case_decide; [|by apply IH].
  rewrite fmap_cons. apply NoDup_cons. split; [|by apply IH].
  intros (y & Hy & [_ Hin]%list_elem_of_filter)%list_elem_of_fmap.
  apply Hx. apply list_elem_of_fmap. by exists y.
Qed.

Lemma NoDup_map_lower_bound k0 m : NoDup ((map_lower_bound k0 m).*1).
Proof.
  unfold map_lower_bound, map_entries. apply NoDup_fst_filter.
  rewrite merge_sort_Permutation. apply NoDup_fst_map_to_list.
Qed.

Lemma StronglySorted_filter_keep (R : relation (TabletSegmentId * V))
    (P : TabletSegmentId * V -> Prop) `{!forall x, Decision (P x)} l :
  StronglySorted R l -> StronglySorted R (filter P l).
Proof.
  induction 1 as [|x l Hl IH Hx]; [constructor|].
  rewrite filter_cons. case_decide; [|done]. constructor; [done|].
  apply Forall_forall. intros y [_ Hy]%list_elem_of_filter.
  by eapply Forall_forall in Hx.
Qed.

Lemma StronglySorted_map_lower_bound k0 m :
  StronglySorted (fun a b : TabletSegmentId * V => tsid_le a.1 b.1) (map_lower_bound k0 m).
Proof.
  unfold map_lower_bound, map_entries. apply StronglySorted_filter_keep.
  apply StronglySorted_merge_sort; apply _.
Qed.

End LowerBound.

Section ClearBeforeVersion.
Context {CO : Collaborators}.

Lemma map_lower_bound_tablet_prefix (tablet : Z)
    (m : gmap TabletSegmentId DeltaColumnGroupList) :
  tablet_prefix tablet (map_lower_bound {| tablet_id := tablet; segment_id := 0 |} m).
Proof.
  intros a x b Hsplit Hx y Hy.
  pose proof (StronglySorted_map_lower_bound {| tablet_id := tablet; segment_id := 0 |} m)
    as Hsorted.
  assert (x ∈ map_lower_bound {| tablet_id := tablet; segment_id := 0 |} m) as Hxin.
  { rewrite Hsplit. apply elem_of_app. right. left. }
  destruct x as [kx lx]. apply elem_of_map_lower_bound in Hxin as [_ Hlow].
  rewrite Hsplit in Hsorted. apply StronglySorted_app_1_r in Hsorted.
  apply StronglySorted_cons in Hsorted as [Hall _].
  eapply Forall_forall in Hall; [|done].
  unfold tsid_le in *. cbn in *. lia.
Qed.

Lemma delete_collected_state meta clear_dcgs um :
  _delta_column_group_cache (delete_collected meta clear_dcgs um).2
  = _delta_column_group_cache um
  /\ _delta_column_group_cache_mem_tracker (delete_collected meta clear_dcgs um).2
     = _delta_column_group_cache_mem_tracker um.
Proof.
  unfold delete_collected.
  enough (forall acc : list (TabletSegmentId * Z) * UpdateManager,
             _delta_column_group_cache
               (foldl (fun '(wb, um) dcg =>
                         let st := TabletMetaManager_delete_delta_column_group meta dcg.1 dcg.2 in
                         (if status_ok st then wb ++ [dcg] else wb,
                          log_meta_call (DeleteDeltaColumnGroup dcg.1 dcg.2) um))
                      acc clear_dcgs).2
             = _delta_column_group_cache acc.2
             /\ _delta_column_group_cache_mem_tracker
                  (foldl (fun '(wb, um) dcg =>
                            let st := TabletMetaManager_delete_delta_column_group meta dcg.1 dcg.2 in
                            (if status_ok st then wb ++ [dcg] else wb,
                             log_meta_call (DeleteDeltaColumnGroup dcg.1 dcg.2) um))
                         acc clear_dcgs).2
                = _delta_column_group_cache_mem_tracker acc.2) as Hacc
    by apply (Hacc ([], um)).
  induction clear_dcgs as [|dcg rest IH]; intros [wb um0]; [done|].
  cbn [foldl]. by destruct (IH (if status_ok
                                   (TabletMetaManager_delete_delta_column_group meta dcg.1 dcg.2)
                                then wb ++ [dcg] else wb,
                                log_meta_call (DeleteDeltaColumnGroup dcg.1 dcg.2) um0)).
Qed.

(** C6.  The groups collected by [clear_delta_column_group_before_version]
    are cached groups of the tablet with a version below
    [min_readable_version] that are superseded: the list of their segment
    holds a newer group that is not above [min_readable_version].  A cached
    list is either left as it was or, for a segment of the tablet the sweep
    reached, cut down to its groups at or above [min_readable_version] and
    the version a read at [min_readable_version] resolves to, so that a read
    at any version from [min_readable_version] on resolves to the same
    version as before; when the clock never passes the 10 ms budget every
    segment of the tablet is reached; the collected groups are exactly what
    the cache lost, and their number is the value returned, which takes the
    write of the batch and the opening of the file system to succeed. *)
Theorem clear_delta_column_group_before_version_collects clock meta tablet_path tablet
    min_readable_version um cache' clear_dcgs clear_filenames :
  collect_before_version clock tablet_path tablet min_readable_version um
  = (cache', clear_dcgs, clear_filenames) ->
  let result :=
    clear_delta_column_group_before_version clock meta tablet_path tablet
      min_readable_version um in
  _delta_column_group_cache result.2 = cache'
  /\ (forall k v, (k, v) ∈ clear_dcgs ->
        tablet_id k = tablet /\ v < min_readable_version
        /\ exists l d d', _delta_column_group_cache um !! k = Some l
                          /\ d ∈ l /\ dcg_version d = v
                          /\ d' ∈ l /\ v < dcg_version d' <= min_readable_version)
  /\ (forall k l', cache' !! k = Some l' ->
        exists l, _delta_column_group_cache um !! k = Some l
                  /\ (l' = l
                      \/ (tablet_id k = tablet
                          /\ l' = live_groups min_readable_version l
                          /\ Forall (fun dcg =>
                                       min_readable_version <= dcg_version dcg
                                       \/ still_needed_version min_readable_version l
                                          = Some (dcg_version dcg)) l'
                          /\ (forall d, d ∈ l -> min_readable_version <= dcg_version d ->
                                         d ∈ l')
                          /\ (forall ver, min_readable_version <= ver ->
                                 still_needed_version ver l' = still_needed_version ver l))))
  /\ ((forall n, clock n <= clock 0%nat + 10) ->
      forall k l, tablet_id k = tablet -> _delta_column_group_cache um !! k = Some l ->
                  cache' !! k = Some (live_groups min_readable_version l))
  /\ delta_column_group_count (_delta_column_group_cache um)
     = delta_column_group_count cache' + Z.of_nat (length clear_dcgs)
  /\ (forall n, result.1.1 = Value n -> n = length clear_dcgs)
  /\ ((forall wb, KVStore_write_batch meta wb = OK) ->
      FileSystem_CreateSharedFromString tablet_path = OK ->
      result.1 = (Value (length clear_dcgs), clear_filenames)).
Proof.
  intros Hcollect result.
  pose proof Hcollect as Hloop. unfold collect_before_version in Hloop.
  apply garbage_collection_loop_spec in Hloop as (P1 & P2 & P3 & P4);
    [|apply NoDup_map_lower_bound|by intros k l [? _]%elem_of_map_lower_bound].
  assert (result
          = let um1 := with_dcg cache' (_delta_column_group_cache_mem_tracker um) um in
            let um3 := log_meta_call (WriteBatch (delete_collected meta clear_dcgs um1).1)
                         (delete_collected meta clear_dcgs um1).2 in
            match KVStore_write_batch meta (delete_collected meta clear_dcgs um1).1 with
            | Err code msg => (Failed code msg, [], um3)
            | OK =>
                match FileSystem_CreateSharedFromString tablet_path with
                | Err code msg => (Failed code msg, [], um3)
                | OK => (Value (length clear_dcgs), clear_filenames, um3)
                end
            end) as Hresult.
  { subst result. unfold clear_delta_column_group_before_version. rewrite Hcollect.
    by destruct (delete_collected meta clear_dcgs _). }
  split_and!.
  - rewrite Hresult. cbn zeta.
    destruct (KVStore_write_batch _ _); [destruct (FileSystem_CreateSharedFromString _)|];
      cbn; apply delete_collected_state.
  - intros k v Hkv. destruct (P1 k v Hkv) as [Hnil|(Ht & l & d & Hl & Hd & Hdv & Hg)].
    + by apply elem_of_nil in Hnil.
    + apply elem_of_map_lower_bound in Hl as [Hl _].
      pose proof Hg as [Hlt _].
      apply is_garbage_superseded in Hg as (d' & Hd' & Hnewer & Hle); [|done].
      split_and!; [done|lia|]. exists l, d, d'. split_and!; [done|done|done|done|lia|lia].
  - intros k l' Hl'. destruct (P2 k) as [Heq|(Ht & l & Hl & Hk)].
    + exists l'. rewrite <-Heq. eauto.
    + apply elem_of_map_lower_bound in Hl as [Hl _]. exists l. split; [done|].
      right. rewrite Hk in Hl'. simplify_eq.
      split_and!; [done|done|apply kept_versions| |].
      * intros d Hd Hv. by apply live_groups_above.
      * intros ver Hver. by apply live_groups_readable.
  - intros Hclock k l Ht Hl.
    apply (P4 Hclock (map_lower_bound_tablet_prefix _ _) k l); [|done].
    apply elem_of_map_lower_bound. split; [done|]. unfold tsid_le. cbn. lia.
  - rewrite P3. cbn. lia.
  - intros n. rewrite Hresult. cbn zeta.
    destruct (KVStore_write_batch _ _); [destruct (FileSystem_CreateSharedFromString _)|];
      cbn; congruence.
  - intros Hwb Hfs. rewrite Hresult. cbn zeta. by rewrite Hwb, Hfs.
Qed.

End ClearBeforeVersion.

Lemma clear_delta_column_group_before_version_collects_witness :
  collect_before_version steady_clock "/data/7" 7 3 dcg_warm
  = (dcg_swept, [(seg73, 1)], ["/data/7/v1.cols"])
  /\ (let result :=
        clear_delta_column_group_before_version steady_clock dcg_store "/data/7" 7 3 dcg_warm in
      _delta_column_group_cache result.2 = dcg_swept
      /\ (forall k v, (k, v) ∈ [(seg73, 1)] ->
            tablet_id k = 7 /\ v < 3
            /\ exists l d d', _delta_column_group_cache dcg_warm !! k = Some l
                              /\ d ∈ l /\ dcg_version d = v
                              /\ d' ∈ l /\ v < dcg_version d' <= 3)
      /\ (forall k l', dcg_swept !! k = Some l' ->
            exists l, _delta_column_group_cache dcg_warm !! k = Some l
                      /\ (l' = l
                          \/ (tablet_id k = 7
                              /\ l' = live_groups 3 l
                              /\ Forall (fun dcg =>
                                           3 <= dcg_version dcg
                                           \/ still_needed_version 3 l
                                              = Some (dcg_version dcg)) l'
                              /\ (forall d, d ∈ l -> 3 <= dcg_version d -> d ∈ l')
                              /\ (forall ver, 3 <= ver ->
                                     still_needed_version ver l'
                                     = still_needed_version ver l))))
      /\ ((forall n, steady_clock n <= steady_clock 0%nat + 10) ->
          forall k l, tablet_id k = 7 -> _delta_column_group_cache dcg_warm !! k = Some l ->
                      dcg_swept !! k = Some (live_groups 3 l))
      /\ delta_column_group_count (_delta_column_group_cache dcg_warm)
         = delta_column_group_count dcg_swept + Z.of_nat (length [(seg73, 1)])
      /\ (forall n, result.1.1 = Value n -> n = length [(seg73, 1)])
      /\ ((forall wb, KVStore_write_batch dcg_store wb = OK) ->
          FileSystem_CreateSharedFromString "/data/7" = OK ->
          result.1 = (Value (length [(seg73, 1)]), ["/data/7/v1.cols"]))).
Proof.
  split; [vm_compute; reflexivity|].
  apply (clear_delta_column_group_before_version_collects (CO:=MemStore_collaborators)
           steady_clock dcg_store "/data/7" 7 3 dcg_warm).
  vm_compute; reflexivity.
Defined.

(** C6 as it is claimed fails on the version still needed: after a full sweep
    of tablet 7 with minimum readable version 3, segment 3 has lost the
    superseded version 1, and both segments of the tablet still hold version
    2, which is below 3 and is what a read at version 3 resolves to. *)
Lemma clear_before_version_keeps_needed_version :
  (clear_delta_column_group_before_version steady_clock dcg_store "/data/7" 7 3 dcg_warm).1
  = (Value 1%nat, ["/data/7/v1.cols"])
  /\ _delta_column_group_cache
       (clear_delta_column_group_before_version steady_clock dcg_store "/data/7" 7 3
          dcg_warm).2 !! seg74 = Some [dcg2]
  /\ dcg_version dcg2 < 3
  /\ ~ (forall k l',
          tablet_id k = 7 ->
          _delta_column_group_cache
            (clear_delta_column_group_before_version steady_clock dcg_store "/data/7" 7 3
               dcg_warm).2 !! k = Some l' ->
          Forall (fun dcg => 3 <= dcg_version dcg) l').
Proof.
  split_and!; [vm_compute; reflexivity|vm_compute; reflexivity|vm_compute; reflexivity|].
  intros Hall. specialize (Hall seg74 [dcg2] eq_refl).
  assert (Forall (fun dcg => 3 <= dcg_version dcg) [dcg2]) as Hbad
    by (apply Hall; vm_compute; reflexivity).
  apply Forall_cons in Hbad as [Hbad _]. vm_compute in Hbad. by apply Hbad.
Qed.

(** ** Memory accounting of the keyed caches *)

Section Accounting.
Context {CO : Collaborators}.

Implicit Types (um : UpdateManager) (tsid k : TabletSegmentId).

Lemma memory_usage_nonneg (d : DelVector) : 0 <= Z.of_N (memory_usage d).
Proof. lia. Qed.

Lemma delta_column_group_list_memory_usage_nonneg (l : DeltaColumnGroupList) :
  0 <= delta_column_group_list_memory_usage l.
Proof.
  unfold delta_column_group_list_memory_usage.
  induction l as [|d l IH]; cbn [foldr]; lia.
Qed.

Lemma release_cached (usage : Z) (t : MemTracker) :
  0 <= usage <= consumption t -> consumption (release usage t) = consumption t - usage.
Proof. intros. unfold release. cbn [consumption]. lia. Qed.

(** Putting a vector in the slot of a key, with the release of the old vector
    and the consumption of the new one, keeps the tracker in step. *)
Lemma del_vec_replace_accounted tsid delvec cached um :
  del_vec_accounted um -> _del_vec_cache um !! tsid = Some cached ->
  del_vec_accounted
    (with_del_vec (<[tsid := delvec]> (_del_vec_cache um))
       (consume (Z.of_N (memory_usage delvec))
          (release (Z.of_N (memory_usage cached)) (_del_vec_cache_mem_tracker um))) um).
Proof.
  unfold del_vec_accounted, del_vec_cache_usage. intros Hacc Hc.
  cbn [with_del_vec _del_vec_cache _del_vec_cache_mem_tracker consume consumption].
  rewrite release_cached.
  - rewrite (total_usage_insert_Some _ _ tsid cached) by done. lia.
  - split; [lia|]. rewrite Hacc.
    apply (total_usage_lookup_le (fun d => Z.of_N (memory_usage d)) _ tsid cached); [|done].
    intros. lia.
Qed.

Lemma del_vec_insert_accounted tsid delvec um :
  del_vec_accounted um -> _del_vec_cache um !! tsid = None ->
  del_vec_accounted
    (with_del_vec (<[tsid := delvec]> (_del_vec_cache um))
       (consume (Z.of_N (memory_usage delvec)) (_del_vec_cache_mem_tracker um)) um).
Proof.
  unfold del_vec_accounted, del_vec_cache_usage. intros Hacc Hc. cbn.
  rewrite total_usage_insert_None by done. lia.
Qed.

Lemma set_cached_del_vec_accounted tsid delvec um :
  del_vec_accounted um -> del_vec_accounted (set_cached_del_vec tsid delvec um).2.
Proof.
  intros Hacc. unfold set_cached_del_vec.
  destruct (_del_vec_cache um !! tsid) as [cached|] eqn:Hc.
  - case_bool_decide; [done|]. by apply del_vec_replace_accounted.
  - by apply del_vec_insert_accounted.
Qed.

Lemma get_del_vec_fill_accounted tsid delvec latest um :
  del_vec_accounted um -> del_vec_accounted (get_del_vec_fill tsid delvec latest um).
Proof.
  intros Hacc. unfold get_del_vec_fill. case_bool_decide; [|done].
  destruct (_del_vec_cache um !! tsid) as [cached|] eqn:Hc.
  - case_bool_decide; [|done]. by apply del_vec_replace_accounted.
  - by apply del_vec_insert_accounted.
Qed.

Lemma get_del_vec_accounted meta tsid ver pdelvec um :
  del_vec_accounted um -> del_vec_accounted (get_del_vec meta tsid ver pdelvec um).2.
Proof.
  intros Hacc.
  destruct (get_del_vec_state meta tsid ver pdelvec um) as [->|[->|(delvec & latest & ->)]];
    [done|done|]. by apply get_del_vec_fill_accounted.
Qed.

Lemma get_latest_del_vec_accounted meta tsid pdelvec um :
  del_vec_accounted um -> del_vec_accounted (get_latest_del_vec meta tsid pdelvec um).2.
Proof.
  intros Hacc. unfold get_latest_del_vec.
  destruct (_del_vec_cache um !! tsid) as [cached|] eqn:Hc; [done|].
  unfold get_del_vec_in_meta.
  destruct (TabletMetaManager_get_del_vector _ _ _ _) as [[st delvec] latest].
  destruct st; [|done]. cbn [status_ok snd].
  by apply (del_vec_insert_accounted tsid delvec (log_meta_call _ um)).
Qed.

Lemma del_vec_erase_accounted tsid cached um :
  del_vec_accounted um -> _del_vec_cache um !! tsid = Some cached ->
  del_vec_accounted
    (with_del_vec (delete tsid (_del_vec_cache um))
       (release (Z.of_N (memory_usage cached)) (_del_vec_cache_mem_tracker um)) um).
Proof.
  unfold del_vec_accounted, del_vec_cache_usage. intros Hacc Hc.
  cbn [with_del_vec _del_vec_cache _del_vec_cache_mem_tracker].
  rewrite release_cached.
  - rewrite (total_usage_delete _ _ tsid cached) by done. lia.
  - split; [lia|]. rewrite Hacc.
    apply (total_usage_lookup_le (fun d => Z.of_N (memory_usage d)) _ tsid cached); [|done].
    intros. lia.
Qed.

Lemma clear_cached_del_vec_accounted tsids um :
  del_vec_accounted um -> del_vec_accounted (clear_cached_del_vec tsids um).
Proof.
  unfold clear_cached_del_vec. revert um.
  induction tsids as [|tsid tsids IH]; intros um Hacc; [done|].
  cbn [foldl]. apply IH.
  destruct (_del_vec_cache um !! tsid) as [cached|] eqn:Hc; [|done].
  by apply del_vec_erase_accounted.
Qed.

Lemma NoDup_map_entries {V : Type} (m : gmap TabletSegmentId V) : NoDup ((map_entries m).*1).
Proof. unfold map_entries. rewrite merge_sort_Permutation. apply NoDup_fst_map_to_list. Qed.

Lemma elem_of_map_entries {V : Type} (m : gmap TabletSegmentId V) k v :
  (k, v) ∈ map_entries m <-> m !! k = Some v.
Proof. unfold map_entries. by rewrite merge_sort_Permutation, elem_of_map_to_list. Qed.

Lemma clear_cached_del_vec_by_tablet_id_accounted tablet um :
  del_vec_accounted um -> del_vec_accounted (clear_cached_del_vec_by_tablet_id tablet um).
Proof.
  unfold clear_cached_del_vec_by_tablet_id.
  pose proof (NoDup_map_entries (_del_vec_cache um)) as Hnd.
  assert (forall k v, (k, v) ∈ map_entries (_del_vec_cache um) ->
                      _del_vec_cache um !! k = Some v) as Hin
    by (intros k v; apply elem_of_map_entries).
  revert Hnd Hin. generalize (map_entries (_del_vec_cache um)) as l. intros l. revert um.
  induction l as [|[k v] l IH]; intros um Hnd Hin Hacc; [done|].
  rewrite fmap_cons in Hnd. apply NoDup_cons in Hnd as [Hk Hnd].
  cbn [foldl fst snd]. apply IH; [done| |].
  - intros k' v' Hk'.
    assert (k' <> k) as Hne.
    { intros ->. apply Hk. apply list_elem_of_fmap. by exists (k, v'). }
    case_bool_decide; cbn [with_del_vec _del_vec_cache];
      rewrite ?lookup_delete_ne by done; apply Hin; by right.
  - case_bool_decide; [|done].
    apply del_vec_erase_accounted; [done|]. apply Hin. left.
Qed.

Lemma clear_cache_accounted um :
  del_vec_accounted (clear_cache um) /\ delta_column_group_accounted (clear_cache um).
Proof.
  unfold del_vec_accounted, delta_column_group_accounted, del_vec_cache_usage,
    delta_column_group_cache_usage, clear_cache, release.
  cbn [_del_vec_cache _del_vec_cache_mem_tracker _delta_column_group_cache
       _delta_column_group_cache_mem_tracker consumption].
  rewrite !total_usage_empty. lia.
Qed.

(** The same for the delta-column-group cache, for every method but the
    garbage collection. *)
Lemma delta_column_group_erase_accounted tsid cached um :
  delta_column_group_accounted um -> _delta_column_group_cache um !! tsid = Some cached ->
  delta_column_group_accounted
    (with_dcg (delete tsid (_delta_column_group_cache um))
       (release (delta_column_group_list_memory_usage cached)
          (_delta_column_group_cache_mem_tracker um)) um).
Proof.
  unfold delta_column_group_accounted, delta_column_group_cache_usage. intros Hacc Hc.
  cbn [with_dcg _delta_column_group_cache _delta_column_group_cache_mem_tracker].
  rewrite release_cached.
  - rewrite (total_usage_delete _ _ tsid cached) by done. lia.
  - split; [apply delta_column_group_list_memory_usage_nonneg|]. rewrite Hacc.
    apply (total_usage_lookup_le delta_column_group_list_memory_usage _ tsid cached);
      [|done].
    apply delta_column_group_list_memory_usage_nonneg.
Qed.

Lemma clear_cached_delta_column_group_by_tablet_id_accounted tablet um :
  delta_column_group_accounted um ->
  delta_column_group_accounted (clear_cached_delta_column_group_by_tablet_id tablet um).
Proof.
  unfold clear_cached_delta_column_group_by_tablet_id.
  pose proof (NoDup_map_entries (_delta_column_group_cache um)) as Hnd.
  assert (forall k v, (k, v) ∈ map_entries (_delta_column_group_cache um) ->
                      _delta_column_group_cache um !! k = Some v) as Hin
    by (intros k v; apply elem_of_map_entries).
  revert Hnd Hin. generalize (map_entries (_delta_column_group_cache um)) as l.
  intros l. revert um.
  induction l as [|[k v] l IH]; intros um Hnd Hin Hacc; [done|].
  rewrite fmap_cons in Hnd. apply NoDup_cons in Hnd as [Hk Hnd].
  cbn [foldl fst snd]. apply IH; [done| |].
  - intros k' v' Hk'.
    assert (k' <> k) as Hne.
    { intros ->. apply Hk. apply list_elem_of_fmap. by exists (k, v'). }
    case_bool_decide; cbn [with_dcg _delta_column_group_cache];
      rewrite ?lookup_delete_ne by done; apply Hin; by right.
  - case_bool_decide; [|done].
    apply delta_column_group_erase_accounted; [done|]. apply Hin. left.
Qed.

Lemma get_delta_column_group_accounted meta tsid ver dcgs um :
  delta_column_group_accounted um ->
  delta_column_group_accounted (get_delta_column_group meta tsid ver dcgs um).2.
Proof.
  intros Hacc. unfold get_delta_column_group.
  destruct (_delta_column_group_cache um !! tsid) as [cached|] eqn:Hc; [done|].
  unfold get_delta_column_group_in_meta.
  destruct (TabletMetaManager_get_delta_column_group _ _ _ _) as [st new_dcgs].
  destruct st; [|done]. cbn [status_ok snd].
  unfold get_delta_column_group_fill. cbn [_delta_column_group_cache log_meta_call].
  rewrite Hc. unfold delta_column_group_accounted, delta_column_group_cache_usage in *. cbn.
  rewrite total_usage_insert_None by done. lia.
Qed.

Lemma set_cached_empty_delta_column_group_accounted meta tsid um :
  delta_column_group_accounted um ->
  delta_column_group_accounted (set_cached_empty_delta_column_group meta tsid um).2.
Proof.
  intros Hacc. unfold set_cached_empty_delta_column_group.
  destruct (_delta_column_group_cache um !! tsid) as [cached|] eqn:Hc; [done|].
  unfold get_delta_column_group_in_meta.
  destruct (TabletMetaManager_get_delta_column_group _ _ _ _) as [st new_dcgs].
  destruct st; [|done]. cbn [status_ok _delta_column_group_cache log_meta_call].
  rewrite Hc. destruct new_dcgs; [|done].
  unfold delta_column_group_accounted, delta_column_group_cache_usage in *. cbn.
  rewrite total_usage_insert_None by done. cbn. lia.
Qed.

Lemma set_cached_delta_column_group_accounted meta tsid dcg um :
  delta_column_group_accounted um ->
  delta_column_group_accounted (set_cached_delta_column_group meta tsid dcg um).2.
Proof.
  intros Hacc. unfold set_cached_delta_column_group.
  destruct (_delta_column_group_cache um !! tsid) as [cached|] eqn:Hc.
  - unfold delta_column_group_accounted, delta_column_group_cache_usage in *.
    cbn [with_dcg _delta_column_group_cache _delta_column_group_cache_mem_tracker
         consume consumption snd].
    rewrite (total_usage_insert_Some _ _ tsid cached) by done.
    change (delta_column_group_list_memory_usage (dcg :: cached))
      with (Z.of_N (dcg_memory_usage dcg) + delta_column_group_list_memory_usage cached).
    lia.
  - unfold get_delta_column_group_in_meta.
    destruct (TabletMetaManager_get_delta_column_group _ _ _ _) as [st new_dcgs].
    destruct st; [|done]. cbn [status_ok _delta_column_group_cache log_meta_call].
    rewrite Hc.
    unfold delta_column_group_accounted, delta_column_group_cache_usage in *. cbn.
    rewrite total_usage_insert_None by done. lia.
Qed.

Lemma clear_cached_delta_column_group_accounted tsids um :
  delta_column_group_accounted um ->
  delta_column_group_accounted (clear_cached_delta_column_group tsids um).
Proof.
  unfold clear_cached_delta_column_group. revert um.
  induction tsids as [|tsid tsids IH]; intros um Hacc; [done|].
  cbn [foldl]. apply IH.
  destruct (_delta_column_group_cache um !! tsid) as [cached|] eqn:Hc; [|done].
  by apply delta_column_group_erase_accounted.
Qed.

End Accounting.

(** C9 fails on the garbage collection: the tracker of the
    delta-column-group cache agrees with the cached lists before
    [clear_delta_column_group_before_version]; the call takes the superseded
    version 1 out of the list of segment 3, which holds versions 5, 2 and 1,
    without any release, and the tracker is 32 bytes ahead afterwards. *)
Theorem clear_before_version_leaves_tracker_behind :
  delta_column_group_accounted dcg_warm
  /\ _delta_column_group_cache dcg_warm !! seg73 = Some [dcg5; dcg2; dcg1]
  /\ consumption (_delta_column_group_cache_mem_tracker dcg_warm) = 160
  /\ (clear_delta_column_group_before_version steady_clock dcg_store "/data/7" 7 3 dcg_warm).1
     = (Value 1%nat, ["/data/7/v1.cols"])
  /\ _delta_column_group_cache
       (clear_delta_column_group_before_version steady_clock dcg_store "/data/7" 7 3
          dcg_warm).2 !! seg73 = Some [dcg5; dcg2]
  /\ consumption
       (_delta_column_group_cache_mem_tracker
          (clear_delta_column_group_before_version steady_clock dcg_store "/data/7" 7 3
             dcg_warm).2) = 160
  /\ delta_column_group_cache_usage
       (clear_delta_column_group_before_version steady_clock dcg_store "/data/7" 7 3
          dcg_warm).2 = 128
  /\ ~ delta_column_group_accounted
         (clear_delta_column_group_before_version steady_clock dcg_store "/data/7" 7 3
            dcg_warm).2.
Proof.
  split_and!; try (vm_compute; reflexivity).
  intros Hacc. vm_compute in Hacc. discriminate Hacc.
Qed.

(** ** The generic cache *)

Section DynamicCacheProperties.
Context {K V : Type} `{EqDecision K}.

Implicit Types (c : DynamicCache K V) (l : list (Entry K V)) (key : K).

Lemma dc_find_remove key c : dc_find key (dc_remove key c) = None.
Proof.
  unfold dc_find, dc_remove. cbn [dc_entries dc_with_entries].
  rewrite (proj2 (list_find_None _ _)); [done|].
  apply Forall_forall. by intros e [Hne _]%list_elem_of_filter.
Qed.

Lemma dc_get_remove key c : dc_get key (dc_remove key c) = (None, dc_remove key c).
Proof. unfold dc_get. by rewrite dc_find_remove. Qed.

Lemma evict_entries_size target size l :
  Forall (fun e => 0 <= entry_size e) l ->
  0 <= foldr (fun e acc => entry_size e + acc) 0 (evict_entries target size l)
    <= foldr (fun e acc => entry_size e + acc) 0 l.
Proof.
  intros Hpos. revert size. induction Hpos as [|e l He Hl IH]; intros size; [done|].
  cbn [evict_entries]. case_bool_decide.
  - cbn [foldr]. specialize (IH 0). 
    assert (0 <= foldr (fun e acc => entry_size e + acc) 0 l); [|lia].
    clear -Hl. induction Hl as [|e' l' He' _ IH']; cbn [foldr]; lia.
  - case_decide.
    + specialize (IH (size - entry_size e)). cbn [foldr]. lia.
    + specialize (IH size). cbn [foldr]. lia.
Qed.

Lemma dc_size_try_evict target c :
  Forall (fun e => 0 <= entry_size e) (dc_entries c) ->
  0 <= dc_size (try_evict target c) <= dc_size c.
Proof. intros Hpos. unfold dc_size, try_evict. cbn. by apply evict_entries_size. Qed.

Lemma evict_entries_sizes target size l :
  Forall (fun e => 0 <= entry_size e) l ->
  Forall (fun e => 0 <= entry_size e) (evict_entries target size l).
Proof.
  intros Hpos. revert size. induction Hpos as [|e l He Hl IH]; intros size; [done|].
  cbn [evict_entries]. case_bool_decide; [by constructor|].
  case_decide; [apply IH|constructor; [done|apply IH]].
Qed.

Lemma dc_size_nonneg c :
  Forall (fun e => 0 <= entry_size e) (dc_entries c) -> 0 <= dc_size c.
Proof.
  unfold dc_size. induction 1 as [|e l He _ IH]; cbn [foldr]; lia.
Qed.

Lemma evict_entries_unreferenced target l :
  Forall (fun e => entry_ref e = 0%nat) l -> 0 <= target ->
  foldr (fun e acc => entry_size e + acc) 0
    (evict_entries target (foldr (fun e acc => entry_size e + acc) 0 l) l) <= target.
Proof.
  intros Href Htarget. induction Href as [|e l He _ IH]; [cbn; lia|].
  cbn [evict_entries foldr]. case_bool_decide; [cbn [foldr]; lia|].
  rewrite decide_True by done.
  replace (entry_size e + foldr (fun e acc => entry_size e + acc) 0 l - entry_size e)
    with (foldr (fun e acc => entry_size e + acc) 0 l) by lia.
  exact IH.
Qed.

Lemma dc_size_try_evict_unreferenced target c :
  Forall (fun e => entry_ref e = 0%nat) (dc_entries c) -> 0 <= target ->
  dc_size (try_evict target c) <= target.
Proof. intros Href Htarget. unfold dc_size, try_evict. cbn. by apply evict_entries_unreferenced. Qed.

Lemma evict_entries_refs target size l :
  Forall (fun e => entry_ref e = 0%nat) l ->
  Forall (fun e => entry_ref e = 0%nat) (evict_entries target size l).
Proof.
  intros Href. revert size. induction Href as [|e l He Hl IH]; intros size; [done|].
  cbn [evict_entries]. case_bool_decide; [by constructor|].
  case_decide; [apply IH|constructor; [done|apply IH]].
Qed.

End DynamicCacheProperties.

Lemma to_int64_small x : - 2 ^ 63 <= x < 2 ^ 63 -> to_int64 x = x.
Proof. intros Hx. unfold to_int64. rewrite Z.mod_small; lia. Qed.

Lemma to_uint64_small x : 0 <= x < 2 ^ 64 -> to_uint64 x = x.
Proof. intros Hx. unfold to_uint64. by rewrite Z.mod_small. Qed.

(** ** Ingestion and eviction *)

Section IngestionProperties.
Context {SL : StateLoaders}.

Implicit Types (s : StateCaches) (tablet : Tablet) (rowset : Rowset).

(** A failed load leaves no entry under the key. *)
Lemma load_state_entry_failure {S : Type} (empty : S) (load : S -> Status * S)
    (usage : S -> Z) now expire_ms key (c : DynamicCache string S) :
  status_ok (load (entry_value (get_or_create key empty c).1)).1 = false ->
  exists c',
    load_state_entry empty load usage now expire_ms key c
    = ((load (entry_value (get_or_create key empty c).1)).1, c')
    /\ dc_get key c' = (None, c').
Proof.
  intros Hfail. unfold load_state_entry.
  destruct (get_or_create key empty c) as [state_entry c1]. cbn [fst] in *.
  destruct (load (entry_value state_entry)) as [st value]. cbn [fst] in *.
  rewrite Hfail. eexists. split; [reflexivity|]. apply dc_get_remove.
Qed.

Lemma preload_index_frame tablet rowset s :
  _update_state_cache (preload_index tablet rowset s).2 = _update_state_cache s
  /\ _update_column_state_cache (preload_index tablet rowset s).2
     = _update_column_state_cache s
  /\ _keep_pindex_bf (preload_index tablet rowset s).2 = _keep_pindex_bf s
  /\ _cache_expire_ms (preload_index tablet rowset s).2 = _cache_expire_ms s
  /\ _index_cache (preload_index tablet rowset s).2
     = (if is_partial_update rowset then (submit_task_and_wait_for tablet (_index_cache s)).2
        else _index_cache s)
  /\ (preload_index tablet rowset s).1
     = (if is_partial_update rowset then (submit_task_and_wait_for tablet (_index_cache s)).1
        else OK).
Proof.
  unfold preload_index. destruct (is_partial_update rowset); [|done].
  by destruct (submit_task_and_wait_for tablet (_index_cache s)).
Qed.

(** A call that gets as far as the state load: the status and the state it
    returns, from the outcome of the load. *)
Lemma on_rowset_finished_loaded now fail_point tablet rowset s :
  has_data_files rowset = true ->
  tablet_state tablet <> TABLET_NOTREADY ->
  (is_partial_update rowset = true ->
   (submit_task_and_wait_for tablet (_index_cache s)).1 = OK) ->
  exists st c,
    (if is_column_mode_partial_update rowset
     then load_state_entry RowsetColumnUpdateState_new
            (RowsetColumnUpdateState_load tablet rowset)
            RowsetColumnUpdateState_memory_usage now (_cache_expire_ms s)
            (state_key tablet rowset) (_update_column_state_cache s) = (st, c.1)
     else load_state_entry RowsetUpdateState_new (RowsetUpdateState_load tablet rowset)
            RowsetUpdateState_memory_usage now (_cache_expire_ms s)
            (state_key tablet rowset) (_update_state_cache s) = (st, c.2))
    /\ on_rowset_finished now fail_point tablet rowset s
       = ((let st' := if fail_point then Err MemLimitExceeded "on_rowset_finished failed"
                      else st in
           if is_mem_limit_exceeded st' || is_time_out st' then OK else st'),
          if is_column_mode_partial_update rowset
          then with_update_column_state_cache c.1 (preload_index tablet rowset s).2
          else with_update_state_cache c.2 (preload_index tablet rowset s).2).
Proof.
  intros Hdata Hready Htask. unfold on_rowset_finished.
  rewrite Hdata, bool_decide_eq_false_2 by done. cbn [negb orb].
  destruct (preload_index_frame tablet rowset s) as (Hc1 & Hc2 & _ & He & _ & Hst).
  destruct (preload_index tablet rowset s) as [task_st s0]. cbn [fst snd] in *.
  assert (task_st = OK) as ->.
  { rewrite Hst. destruct (is_partial_update rowset); [by apply Htask|done]. }
  cbn [status_ok negb]. rewrite Hc1, Hc2, He.
  destruct (is_column_mode_partial_update rowset).
  - destruct (load_state_entry _ _ _ _ _ _ _) as [st c].
    exists st, (c, _update_state_cache s). split; [done|].
    cbn zeta. by destruct (_ || _).
  - destruct (load_state_entry _ _ _ _ _ _ _) as [st c].
    exists st, (_update_column_state_cache s, c). split; [done|].
    cbn zeta. by destruct (_ || _).
Qed.

(** C4.  When [on_rowset_finished] gets as far as the state load (the rowset
    has data files, the tablet is ready, the index preload of a partial update
    succeeded) and the load fails, the entry of the pair is gone afterwards,
    so [TEST_update_state_exist] answers [false]; the call returns OK for
    [MemLimitExceeded] and [TimeOut], and the status of the load for any other
    failure unless the test fail point turns it into a memory failure. *)
Theorem on_rowset_finished_load_failure now fail_point tablet rowset s code msg :
  has_data_files rowset = true ->
  tablet_state tablet <> TABLET_NOTREADY ->
  (is_partial_update rowset = true ->
   (submit_task_and_wait_for tablet (_index_cache s)).1 = OK) ->
  update_state_load_status tablet rowset s = Err code msg ->
  exists st s',
    on_rowset_finished now fail_point tablet rowset s = (st, s')
    /\ (forall now', TEST_update_state_exist now' tablet rowset s' = (false, s'))
    /\ (code = MemLimitExceeded \/ code = TimeOut -> st = OK)
    /\ (code <> MemLimitExceeded -> code <> TimeOut -> fail_point = false ->
        st = Err code msg).
Proof.
  intros Hdata Hready Htask Hload.
  destruct (on_rowset_finished_loaded now fail_point tablet rowset s Hdata Hready Htask)
    as (st & c & Hentry & ->).
  unfold update_state_load_status in Hload. unfold TEST_update_state_exist.
  eexists _, _. split; [reflexivity|].
  destruct (is_column_mode_partial_update rowset).
  - destruct (load_state_entry_failure RowsetColumnUpdateState_new
                (RowsetColumnUpdateState_load tablet rowset)
                RowsetColumnUpdateState_memory_usage now (_cache_expire_ms s)
                (state_key tablet rowset) (_update_column_state_cache s))
      as (c' & Heq & Hget); [by rewrite Hload|].
    rewrite Hload in Heq. rewrite Heq in Hentry. injection Hentry as <- Hc. rewrite <-Hc.
    cbn [_update_column_state_cache with_update_column_state_cache]. rewrite Hget.
    split_and!; [done| |].
    + intros [-> | ->]; by destruct fail_point.
    + intros Hm Ht ->. by destruct code.
  - destruct (load_state_entry_failure RowsetUpdateState_new
                (RowsetUpdateState_load tablet rowset)
                RowsetUpdateState_memory_usage now (_cache_expire_ms s)
                (state_key tablet rowset) (_update_state_cache s))
      as (c' & Heq & Hget); [by rewrite Hload|].
    rewrite Hload in Heq. rewrite Heq in Hentry. injection Hentry as <- Hc. rewrite <-Hc.
    cbn [_update_state_cache with_update_state_cache]. rewrite Hget.
    split_and!; [done| |].
    + intros [-> | ->]; by destruct fail_point.
    + intros Hm Ht ->. by destruct code.
Qed.

Lemma evict_cache_as_policy urgent_pct high_pct s :
  0 <= urgent_pct -> 0 <= high_pct ->
  0 <= capacity (_index_cache s) < 2 ^ 63 ->
  capacity (_index_cache s) * urgent_pct < 2 ^ 63 ->
  capacity (_index_cache s) * high_pct < 2 ^ 63 ->
  Forall (fun e => 0 <= entry_size e) (dc_entries (_index_cache s)) ->
  dc_size (_index_cache s) * 9 < 2 ^ 63 ->
  evict_cache urgent_pct high_pct s
  = with_index_cache (damped_two_stage_policy urgent_pct high_pct (_index_cache s)).1
      (damped_two_stage_policy urgent_pct high_pct (_index_cache s)).2 s.
Proof.
  intros Hu Hh Hcap Hcu Hch Hsizes Hsize.
  pose proof (dc_size_nonneg _ Hsizes) as Hsz0.
  unfold evict_cache, damped_two_stage_policy, watermark.
  rewrite (to_int64_small (capacity _)) by lia.
  rewrite (to_int64_small (dc_size (_index_cache s))) by lia.
  rewrite !(to_int64_small (capacity _ * _)) by nia.
  rewrite !Z.quot_div_nonneg by nia.
  set (urgent := capacity (_index_cache s) * urgent_pct / 100).
  set (high := capacity (_index_cache s) * high_pct / 100).
  assert (0 <= urgent < 2 ^ 63) as Hurgent.
  { subst urgent. split; [apply Z.div_pos; nia|].
    apply Z.div_lt_upper_bound; nia. }
  assert (0 <= high < 2 ^ 63) as Hhigh.
  { subst high. split; [apply Z.div_pos; nia|].
    apply Z.div_lt_upper_bound; nia. }
  rewrite (to_uint64_small urgent) by lia.
  rewrite (bool_decide_ext (urgent < dc_size (_index_cache s))
             (dc_size (_index_cache s) > urgent)) by lia.
  set (c1 := if bool_decide (dc_size (_index_cache s) > urgent)
             then try_evict urgent (_index_cache s) else _index_cache s).
  assert (Forall (fun e => 0 <= entry_size e) (dc_entries c1)
          /\ 0 <= dc_size c1 <= dc_size (_index_cache s)) as [Hsizes1 Hsz1].
  { subst c1. case_bool_decide.
    - split; [by apply evict_entries_sizes|by apply dc_size_try_evict].
    - split; [done|lia]. }
  rewrite (to_int64_small (dc_size c1)) by lia.
  rewrite (to_int64_small (dc_size c1 * 9)) by lia.
  rewrite Z.quot_div_nonneg by lia.
  assert (0 <= dc_size c1 * 9 / 10 < 2 ^ 63) as Hninety.
  { split; [apply Z.div_pos; lia|]. apply Z.div_lt_upper_bound; lia. }
  rewrite (to_uint64_small (Z.max _ _)) by lia.
  rewrite (bool_decide_ext (high < dc_size c1) (dc_size c1 > high)) by lia.
  set (c2 := if bool_decide (dc_size c1 > high)
             then try_evict (Z.max (dc_size c1 * 9 / 10) high) c1 else c1).
  assert (0 <= dc_size c2 <= dc_size c1) as Hsz2.
  { subst c2. case_bool_decide; [by apply dc_size_try_evict|lia]. }
  rewrite (to_uint64_small high), (to_uint64_small (dc_size c2)) by lia.
  rewrite (bool_decide_ext (high < dc_size c2) (dc_size c2 > high)) by lia.
  cbn [fst snd]. by destruct (bool_decide (dc_size c2 > high)).
Qed.

(** C5.  With percentages that are not negative and the capacity and the size
    of the index cache in the range of [int64_t], far enough from its end for
    the products not to overflow, the index cache and the filter flag that
    [evict_cache] leaves are those of the damped two-stage policy of the
    specification: the flag is false exactly when the size left is above the
    high watermark; a cache at or below both watermarks is left as it is; and
    when no index is referenced the size left is at most the urgent
    watermark and at most the larger of 90% of the size before and the high
    watermark.  Nothing else of the manager changes. *)
Theorem evict_cache_two_stage urgent_pct high_pct s :
  0 <= urgent_pct -> 0 <= high_pct ->
  0 <= capacity (_index_cache s) < 2 ^ 63 ->
  capacity (_index_cache s) * urgent_pct < 2 ^ 63 ->
  capacity (_index_cache s) * high_pct < 2 ^ 63 ->
  Forall (fun e => 0 <= entry_size e) (dc_entries (_index_cache s)) ->
  dc_size (_index_cache s) * 9 < 2 ^ 63 ->
  let urgent := watermark (_index_cache s) urgent_pct in
  let high := watermark (_index_cache s) high_pct in
  let after := evict_cache urgent_pct high_pct s in
  (_index_cache after, _keep_pindex_bf after)
  = damped_two_stage_policy urgent_pct high_pct (_index_cache s)
  /\ (_keep_pindex_bf after = false <-> dc_size (_index_cache after) > high)
  /\ (dc_size (_index_cache s) <= urgent -> dc_size (_index_cache s) <= high ->
      _index_cache after = _index_cache s)
  /\ (Forall (fun e => entry_ref e = 0%nat) (dc_entries (_index_cache s)) ->
      dc_size (_index_cache after) <= urgent
      /\ dc_size (_index_cache after) <= Z.max (dc_size (_index_cache s) * 9 / 10) high)
  /\ _update_state_cache after = _update_state_cache s
  /\ _update_column_state_cache after = _update_column_state_cache s
  /\ _cache_expire_ms after = _cache_expire_ms s.
Proof.
  intros Hu Hh Hcap Hcu Hch Hsizes Hsize urgent high after.
  subst after. rewrite evict_cache_as_policy by done.
  cbn [_index_cache _keep_pindex_bf _update_state_cache _update_column_state_cache
       _cache_expire_ms with_index_cache].
  pose proof (dc_size_nonneg _ Hsizes) as Hsz0.
  assert (0 <= urgent) as Hurgent.
  { subst urgent. unfold watermark. apply Z.div_pos; nia. }
  assert (0 <= high) as Hhigh.
  { subst high. unfold watermark. apply Z.div_pos; nia. }
  unfold damped_two_stage_policy. fold urgent high. cbn [fst snd].
  set (c1 := if bool_decide (dc_size (_index_cache s) > urgent)
             then try_evict urgent (_index_cache s) else _index_cache s).
  set (c2 := if bool_decide (dc_size c1 > high)
             then try_evict (Z.max (dc_size c1 * 9 / 10) high) c1 else c1).
  assert (Forall (fun e => 0 <= entry_size e) (dc_entries c1)
          /\ 0 <= dc_size c1 <= dc_size (_index_cache s)) as [Hsizes1 Hsz1].
  { subst c1. case_bool_decide.
    - split; [by apply evict_entries_sizes|by apply dc_size_try_evict].
    - split; [done|lia]. }
  assert (0 <= dc_size c2 <= dc_size c1) as Hsz2.
  { subst c2. case_bool_decide; [by apply dc_size_try_evict|lia]. }
  split_and!; [done| | | |done|done|done].
  - case_bool_decide; cbn; split; intros; (done || lia).
  - intros Hbelow1 Hbelow2. subst c2 c1.
    rewrite (bool_decide_eq_false_2 (dc_size (_index_cache s) > urgent)) by lia.
    by rewrite bool_decide_eq_false_2 by lia.
  - intros Href.
    assert (Forall (fun e => entry_ref e = 0%nat) (dc_entries c1)
            /\ dc_size c1 <= urgent) as [Href1 Hstage1].
    { subst c1. case_bool_decide.
      - split; [by apply evict_entries_refs|by apply dc_size_try_evict_unreferenced].
      - split; [done|lia]. }
    assert (dc_size c2 <= Z.max (dc_size c1 * 9 / 10) high) as Hstage2.
    { subst c2. case_bool_decide; [apply dc_size_try_evict_unreferenced; [done|lia]|lia]. }
    split; [lia|].
    assert (dc_size c1 * 9 / 10 <= dc_size (_index_cache s) * 9 / 10)
      by (apply Z.div_le_mono; lia).
    lia.
Qed.

End IngestionProperties.

Lemma on_rowset_finished_load_failure_witness :
  has_data_files (rowset_of "oom" false) = true
  /\ tablet_state running_tablet <> TABLET_NOTREADY
  /\ (is_partial_update (rowset_of "oom" false) = true ->
      (submit_task_and_wait_for running_tablet (_index_cache idle)).1 = OK)
  /\ update_state_load_status running_tablet (rowset_of "oom" false) idle
     = Err MemLimitExceeded "memory limit exceeded"
  /\ exists st s',
      on_rowset_finished 5 false running_tablet (rowset_of "oom" false) idle = (st, s')
      /\ (forall now',
            TEST_update_state_exist now' running_tablet (rowset_of "oom" false) s'
            = (false, s'))
      /\ (MemLimitExceeded = MemLimitExceeded \/ MemLimitExceeded = TimeOut -> st = OK)
      /\ (MemLimitExceeded <> MemLimitExceeded -> MemLimitExceeded <> TimeOut ->
          false = false -> st = Err MemLimitExceeded "memory limit exceeded").
Proof.
  split; [reflexivity|]. split; [discriminate|]. split; [reflexivity|].
  split; [reflexivity|].
  apply (on_rowset_finished_load_failure (SL:=scripted_loaders) 5 false running_tablet
           (rowset_of "oom" false) idle MemLimitExceeded "memory limit exceeded");
    [reflexivity|discriminate|reflexivity|reflexivity].
Defined.

(** The three kinds of failure on the scripted loaders: the soft ones return
    OK, the hard one is handed to the caller, and no entry is left. *)
Example on_rowset_finished_failures :
  (on_rowset_finished 5 false running_tablet (rowset_of "oom" false) idle).1 = OK
  /\ (on_rowset_finished 5 false running_tablet (rowset_of "slow" true) idle).1 = OK
  /\ (on_rowset_finished 5 false running_tablet (rowset_of "corrupt" true) idle).1
     = Err IOError "corrupted segment"
  /\ (TEST_update_state_exist 6 running_tablet (rowset_of "corrupt" true)
        (on_rowset_finished 5 false running_tablet (rowset_of "corrupt" true) idle).2).1
     = false
  /\ (TEST_update_state_exist 6 running_tablet (rowset_of "fine" true)
        (on_rowset_finished 5 false running_tablet (rowset_of "fine" true) idle).2).1
     = true.
Proof. repeat split. Qed.

Lemma evict_cache_two_stage_witness :
  0 <= 85 /\ 0 <= 75
  /\ 0 <= capacity (_index_cache idle) < 2 ^ 63
  /\ capacity (_index_cache idle) * 85 < 2 ^ 63
  /\ capacity (_index_cache idle) * 75 < 2 ^ 63
  /\ Forall (fun e => 0 <= entry_size e) (dc_entries (_index_cache idle))
  /\ dc_size (_index_cache idle) * 9 < 2 ^ 63
  /\ (let urgent := watermark (_index_cache idle) 85 in
      let high := watermark (_index_cache idle) 75 in
      let after := evict_cache 85 75 idle in
      (_index_cache after, _keep_pindex_bf after)
      = damped_two_stage_policy 85 75 (_index_cache idle)
      /\ (_keep_pindex_bf after = false <-> dc_size (_index_cache after) > high)
      /\ (dc_size (_index_cache idle) <= urgent -> dc_size (_index_cache idle) <= high ->
          _index_cache after = _index_cache idle)
      /\ (Forall (fun e => entry_ref e = 0%nat) (dc_entries (_index_cache idle)) ->
          dc_size (_index_cache after) <= urgent
          /\ dc_size (_index_cache after)
             <= Z.max (dc_size (_index_cache idle) * 9 / 10) high)
      /\ _update_state_cache after = _update_state_cache idle
      /\ _update_column_state_cache after = _update_column_state_cache idle
      /\ _cache_expire_ms after = _cache_expire_ms idle).
Proof.
  assert (Forall (fun e : Entry Z unit => 0 <= entry_size e) (dc_entries (_index_cache idle)))
    as Hsizes by (repeat constructor; vm_compute; discriminate).
  split; [lia|]. split; [lia|]. split; [vm_compute; split; [discriminate|reflexivity]|].
  split; [vm_compute; reflexivity|]. split; [vm_compute; reflexivity|].
  split; [exact Hsizes|]. split; [vm_compute; reflexivity|].
  apply (evict_cache_two_stage (SL:=scripted_loaders) 85 75 idle);
    [lia|lia|vm_compute; split; [discriminate|reflexivity]|vm_compute; reflexivity
    |vm_compute; reflexivity|exact Hsizes|vm_compute; reflexivity].
Defined.

(** C5, as it is claimed, fails outside that range.  With the capacity
    2^64-1 the 950 bytes of the index cache are far below both watermarks, 85%
    and 75% of the capacity, and the policy leaves the cache alone and keeps
    the filter; [evict_cache] reads the capacity as -1, takes both
    watermarks for 0, evicts every index that is not in use and drops the
    filter.  With the percentages -10 and -20 of the capacity 1000 the size is
    above both watermarks and the policy evicts what it can, 300 bytes being
    left, and drops the filter; [evict_cache] evicts down to 550 bytes and
    keeps the filter. *)
Lemma evict_cache_beyond_int64 :
  dc_size (_index_cache unbounded) = 950
  /\ 950 < watermark (_index_cache unbounded) 75 < watermark (_index_cache unbounded) 85
  /\ damped_two_stage_policy 85 75 (_index_cache unbounded) = (_index_cache unbounded, true)
  /\ dc_size (_index_cache (evict_cache 85 75 unbounded)) = 300
  /\ _keep_pindex_bf (evict_cache 85 75 unbounded) = false
  /\ dc_size (damped_two_stage_policy (-10) (-20) (_index_cache idle)).1 = 300
  /\ (damped_two_stage_policy (-10) (-20) (_index_cache idle)).2 = false
  /\ dc_size (_index_cache (evict_cache (-10) (-20) idle)) = 550
  /\ _keep_pindex_bf (evict_cache (-10) (-20) idle) = true.
Proof. split_and!; vm_compute; reflexivity. Qed.

(** The index cache of [idle] holds 950 bytes of a capacity of 1000: at the
    levels 60 and 50 the first stage takes it to 550 bytes, which is below the
    urgent watermark of 600, the second to 300 bytes, where only the index in
    use is left, and the filter is kept. *)
Example evict_cache_idle :
  dc_size (_index_cache (evict_cache 60 50 idle)) = 300
  /\ _keep_pindex_bf (evict_cache 60 50 idle) = true
  /\ dc_size (_index_cache (evict_cache 35 25 idle)) = 300
  /\ _keep_pindex_bf (evict_cache 35 25 idle) = false.
Proof. repeat split. Qed.

(** ** The scenario of the specification on the store in memory *)

Lemma newest_filter_all (l : list DelVector) (ver : Z) :
  Forall (fun d => version d <= ver) l -> filter (fun d => version d <= ver) l = l.
Proof.
  induction 1 as [|d l Hd _ IH]; [done|].
  rewrite filter_cons, decide_True by done. by rewrite IH.
Qed.

(** On the store in memory a request for version [INT64_MAX] is answered with
    the latest vector: its version is the latest version reported. *)
Lemma MemStore_unbounded_request_is_latest (s : MemStore) tablet segment delvec latest :
  Forall (fun d => version d <= INT64_MAX)
    (default [] (store_del_vecs s !! {| tablet_id := tablet; segment_id := segment |})) ->
  MemStore_get_del_vector s tablet segment INT64_MAX = (OK, delvec, latest) ->
  version delvec = latest.
Proof.
  intros Hrange. unfold MemStore_get_del_vector.
  rewrite newest_filter_all by done.
  destruct (store_healthy s); [|done].
  destruct (newest _) as [top|]; [|done]. by intros [= <- <-].
Qed.

(** The first two calls of the scenario: the request for version 2 on the
    cold cache gets version 1 from the store and caches nothing, since the
    latest version of the store is 3; the request for version 3 gets version
    3 and caches it. *)
Example scenario_cold_calls :
  get_del_vec scenario_store seg73 2 None cold
  = (OK, Some delvec1, log_meta_call (GetDelVector seg73 2) cold)
  /\ _del_vec_cache (get_del_vec scenario_store seg73 3 None cold).2 !! seg73 = Some delvec3
  /\ (get_del_vec scenario_store seg73 3 None cold).1 = (OK, Some delvec3).
Proof. repeat split. Qed.

(** A sweep that runs out of its time slice before the first segment collects
    nothing and returns 0. *)
Example clear_before_version_partial_sweep :
  collect_before_version jumping_clock "/data/7" 7 3 dcg_warm
  = (_delta_column_group_cache dcg_warm, [], [])
  /\ (clear_delta_column_group_before_version jumping_clock dcg_store "/data/7" 7 3
        dcg_warm).1 = (Value 0%nat, []).
Proof. split; vm_compute; reflexivity. Qed.

(** * More properties of the update manager *)

(** ** Delete vectors *)

Section MoreDelVecProperties.
Context {CO : Collaborators}.

Implicit Types (um : UpdateManager) (tsid k : TabletSegmentId) (delvec cached : DelVector).

Lemma get_del_vec_fill_meta_calls tsid delvec latest um :
  meta_calls (get_del_vec_fill tsid delvec latest um) = meta_calls um.
Proof.
  unfold get_del_vec_fill. case_bool_decide; [|done].
  destruct (_del_vec_cache um !! tsid); [case_bool_decide|]; done.
Qed.

Lemma get_del_vec_fill_dcg tsid delvec latest um :
  _delta_column_group_cache (get_del_vec_fill tsid delvec latest um)
  = _delta_column_group_cache um
  /\ _delta_column_group_cache_mem_tracker (get_del_vec_fill tsid delvec latest um)
     = _delta_column_group_cache_mem_tracker um.
Proof.
  unfold get_del_vec_fill. case_bool_decide; [|done].
  destruct (_del_vec_cache um !! tsid); [case_bool_decide|]; done.
Qed.

(** X1.  [set_cached_del_vec] on a key that has no cached vector, or one of
    lower version, returns OK and puts the vector in the slot of the key
    without any call on the store; [get_latest_del_vec], and [get_del_vec] at
    any version from the published one on, then return that vector from the
    cache. *)
Theorem set_cached_del_vec_publishes meta tsid delvec pdelvec um :
  (forall cached, _del_vec_cache um !! tsid = Some cached -> version cached < version delvec) ->
  exists um',
    set_cached_del_vec tsid delvec um = (OK, um')
    /\ _del_vec_cache um' = <[tsid := delvec]> (_del_vec_cache um)
    /\ meta_calls um' = meta_calls um
    /\ get_latest_del_vec meta tsid pdelvec um' = (OK, Some delvec, um')
    /\ (forall ver, version delvec <= ver ->
          get_del_vec meta tsid ver pdelvec um' = (OK, Some delvec, um')).
Proof.
  intros Hnewer. unfold set_cached_del_vec.
  assert (forall um', _del_vec_cache um' = <[tsid := delvec]> (_del_vec_cache um) ->
            get_latest_del_vec meta tsid pdelvec um' = (OK, Some delvec, um')
            /\ (forall ver, version delvec <= ver ->
                  get_del_vec meta tsid ver pdelvec um' = (OK, Some delvec, um'))) as Hread.
  { intros um' Hum'.
    assert (_del_vec_cache um' !! tsid = Some delvec) as Hin
      by (rewrite Hum'; apply lookup_insert_eq).
    split.
    - unfold get_latest_del_vec. by rewrite Hin.
    - intros ver Hle. unfold get_del_vec.
      by rewrite (get_del_vec_cached_valid tsid ver delvec um'). }
  destruct (_del_vec_cache um !! tsid) as [cached|] eqn:Hc.
  - specialize (Hnewer cached eq_refl). rewrite bool_decide_eq_false_2 by lia.
    eexists. split; [reflexivity|]. split; [done|]. split; [done|]. by apply Hread.
  - eexists. split; [reflexivity|]. split; [done|]. split; [done|]. by apply Hread.
Qed.

(** X2.  [get_del_vec] fails only when the cache has no vector valid for the
    requested version and the store fails, with the status of the store; the
    caches and trackers are then as before, one call on the store apart. *)
Theorem get_del_vec_failure meta tsid ver pdelvec um code msg :
  (get_del_vec meta tsid ver pdelvec um).1.1 = Err code msg ->
  get_del_vec_cached tsid ver um = None
  /\ (TabletMetaManager_get_del_vector meta (tablet_id tsid) (segment_id tsid) ver).1.1
     = Err code msg
  /\ (get_del_vec meta tsid ver pdelvec um).2 = log_meta_call (GetDelVector tsid ver) um.
Proof.
  unfold get_del_vec, get_del_vec_in_meta.
  destruct (get_del_vec_cached tsid ver um); [done|].
  destruct (TabletMetaManager_get_del_vector _ _ _ _) as [[st delvec] latest].
  destruct st; [done|]. cbn. by intros [= -> ->].
Qed.

(** X3.  After a successful [get_latest_del_vec] a second call for the key
    returns the same vector and leaves the state, with the list of calls on
    the store, as it is. *)
Theorem get_latest_del_vec_twice meta meta' tsid pdelvec pdelvec' um out um' :
  get_latest_del_vec meta tsid pdelvec um = (OK, out, um') ->
  get_latest_del_vec meta' tsid pdelvec' um' = (OK, out, um').
Proof.
  unfold get_latest_del_vec at 1.
  destruct (_del_vec_cache um !! tsid) as [cached|] eqn:Hc.
  - intros [= <- <-]. unfold get_latest_del_vec. by rewrite Hc.
  - unfold get_del_vec_in_meta.
    destruct (TabletMetaManager_get_del_vector _ _ _ _) as [[st delvec] latest].
    destruct st; [|done]. cbn [status_ok]. intros [= <- <-].
    unfold get_latest_del_vec. cbn [_del_vec_cache with_del_vec].
    by rewrite lookup_insert_eq.
Qed.

(** X4.  When [get_del_vec] returns without a call on the store, it returned
    OK with the cached vector of the key, whose version is at most the
    requested version, and changed nothing. *)
Theorem get_del_vec_without_store_call meta tsid ver pdelvec um st out um' :
  get_del_vec meta tsid ver pdelvec um = (st, out, um') ->
  meta_calls um' = meta_calls um ->
  st = OK /\ um' = um
  /\ exists cached, out = Some cached /\ _del_vec_cache um !! tsid = Some cached
                    /\ version cached <= ver.
Proof.
  unfold get_del_vec, get_del_vec_cached.
  destruct (_del_vec_cache um !! tsid) as [cached|] eqn:Hc.
  - case_bool_decide as Hle.
    + intros [= <- <- <-] _. split_and!; [done|done|]. by exists cached.
    + unfold get_del_vec_in_meta.
      destruct (TabletMetaManager_get_del_vector _ _ _ _) as [[st0 delvec] latest].
      destruct st0; cbn [status_ok]; intros [= <- <- <-] Hcalls; exfalso;
        rewrite ?get_del_vec_fill_meta_calls, meta_calls_log_meta_call in Hcalls;
        apply (f_equal length) in Hcalls; rewrite length_app in Hcalls; cbn in Hcalls; lia.
  - unfold get_del_vec_in_meta.
    destruct (TabletMetaManager_get_del_vector _ _ _ _) as [[st0 delvec] latest].
    destruct st0; cbn [status_ok]; intros [= <- <- <-] Hcalls; exfalso;
      rewrite ?get_del_vec_fill_meta_calls, meta_calls_log_meta_call in Hcalls;
      apply (f_equal length) in Hcalls; rewrite length_app in Hcalls; cbn in Hcalls; lia.
Qed.

(** X5.  [get_del_vec] never changes the slot of another key, never empties
    the slot of its own key, and never touches the delta-column-group cache or
    its tracker. *)
Theorem get_del_vec_frame meta tsid ver pdelvec um :
  (forall k, k <> tsid ->
     _del_vec_cache (get_del_vec meta tsid ver pdelvec um).2 !! k = _del_vec_cache um !! k)
  /\ (is_Some (_del_vec_cache um !! tsid) ->
      is_Some (_del_vec_cache (get_del_vec meta tsid ver pdelvec um).2 !! tsid))
  /\ _delta_column_group_cache (get_del_vec meta tsid ver pdelvec um).2
     = _delta_column_group_cache um
  /\ _delta_column_group_cache_mem_tracker (get_del_vec meta tsid ver pdelvec um).2
     = _delta_column_group_cache_mem_tracker um.
Proof.
  destruct (get_del_vec_state meta tsid ver pdelvec um) as [->|[->|(delvec & latest & ->)]].
  - done.
  - done.
  - split_and!.
    + intros k Hk. by rewrite get_del_vec_fill_other.
    + intros [cached Hc].
      destruct (get_del_vec_fill_version tsid delvec latest
                  (log_meta_call (GetDelVector tsid ver) um) tsid cached Hc) as (c' & Hc' & _).
      by exists c'.
    + by rewrite (proj1 (get_del_vec_fill_dcg _ _ _ _)).
    + by rewrite (proj2 (get_del_vec_fill_dcg _ _ _ _)).
Qed.

End MoreDelVecProperties.

(** ** Invalidation *)

Section Erasures.
Context {V : Type}.

Implicit Types (m : gmap TabletSegmentId V) (k : TabletSegmentId).

Lemma lookup_foldl_delete (l : list TabletSegmentId) m k :
  foldl (fun m k => delete k m) m l !! k = if decide (k ∈ l) then None else m !! k.
Proof.
  revert m. induction l as [|k0 l IH]; intros m; [done|].
  cbn [foldl]. rewrite IH.
  destruct (decide (k = k0)) as [->|Hne].
  - rewrite lookup_delete_eq. rewrite (decide_True _ _ (list_elem_of_here k0 l)).
    by case_decide.
  - rewrite lookup_delete_ne by done.
    destruct (decide (k ∈ l)) as [Hin|Hout].
    + by rewrite decide_True by (by right).
    + rewrite decide_False; [done|]. intros [?|?]%elem_of_cons; done.
Qed.

Lemma lookup_foldl_delete_tablet (tablet : Z) (l : list (TabletSegmentId * V)) m k :
  foldl (fun m (iter : TabletSegmentId * V) =>
           if bool_decide (tablet_id iter.1 = tablet) then delete iter.1 m else m) m l !! k
  = if decide (tablet_id k = tablet /\ k ∈ l.*1) then None else m !! k.
Proof.
  revert m. induction l as [|[k0 v0] l IH]; intros m.
  - cbn. case_decide as Hk; [|done]. destruct Hk as [_ Hk]. by apply elem_of_nil in Hk.
  - cbn [foldl fst]. rewrite IH. rewrite fmap_cons. cbn [fst].
    destruct (decide (tablet_id k = tablet /\ k ∈ l.*1)) as [[Ht Hin]|Hout].
    + rewrite decide_True; [done|]. split; [done|by right].
    + case_bool_decide as Ht0.
      * destruct (decide (k = k0)) as [->|Hne].
        -- rewrite lookup_delete_eq. rewrite decide_True; [done|]. split; [done|left].
        -- rewrite lookup_delete_ne by done. rewrite decide_False; [done|].
           intros [Ht [?|?]%elem_of_cons]; [done|]. by apply Hout.
      * rewrite decide_False; [done|].
        intros [Ht [->|?]%elem_of_cons]; [done|]. by apply Hout.
Qed.

Lemma lookup_erase_tablet (tablet : Z) m k :
  foldl (fun m (iter : TabletSegmentId * V) =>
           if bool_decide (tablet_id iter.1 = tablet) then delete iter.1 m else m)
    m (map_entries m) !! k
  = if decide (tablet_id k = tablet) then None else m !! k.
Proof.
  rewrite lookup_foldl_delete_tablet.
  destruct (decide (tablet_id k = tablet)) as [Ht|Ht].
  - destruct (m !! k) as [v|] eqn:Hk.
    + rewrite decide_True; [done|]. split; [done|].
      apply list_elem_of_fmap. exists (k, v). split; [done|].
      unfold map_entries. by rewrite merge_sort_Permutation, elem_of_map_to_list.
    + by case_decide.
  - rewrite decide_False; [done|]. by intros [? _].
Qed.

End Erasures.

Section Invalidation.
Context {CO : Collaborators}.

Implicit Types (um : UpdateManager) (tsid k : TabletSegmentId).

Lemma clear_cached_del_vec_cache tsids um :
  _del_vec_cache (clear_cached_del_vec tsids um)
  = foldl (fun m k => delete k m) (_del_vec_cache um) tsids
  /\ _delta_column_group_cache (clear_cached_del_vec tsids um) = _delta_column_group_cache um
  /\ _delta_column_group_cache_mem_tracker (clear_cached_del_vec tsids um)
     = _delta_column_group_cache_mem_tracker um
  /\ meta_calls (clear_cached_del_vec tsids um) = meta_calls um.
Proof.
  unfold clear_cached_del_vec. revert um.
  induction tsids as [|tsid tsids IH]; intros um; [done|].
  cbn [foldl]. destruct (_del_vec_cache um !! tsid) as [cached|] eqn:Hc.
  - by destruct (IH (with_del_vec (delete tsid (_del_vec_cache um))
                       (release (Z.of_N (memory_usage cached)) (_del_vec_cache_mem_tracker um))
                       um)) as (-> & -> & -> & ->).
  - rewrite (delete_id _ _ Hc). apply IH.
Qed.

Lemma clear_cached_del_vec_by_tablet_id_cache tablet um :
  _del_vec_cache (clear_cached_del_vec_by_tablet_id tablet um)
  = foldl (fun m (iter : TabletSegmentId * DelVector) =>
             if bool_decide (tablet_id iter.1 = tablet) then delete iter.1 m else m)
      (_del_vec_cache um) (map_entries (_del_vec_cache um))
  /\ _delta_column_group_cache (clear_cached_del_vec_by_tablet_id tablet um)
     = _delta_column_group_cache um
  /\ _delta_column_group_cache_mem_tracker (clear_cached_del_vec_by_tablet_id tablet um)
     = _delta_column_group_cache_mem_tracker um
  /\ meta_calls (clear_cached_del_vec_by_tablet_id tablet um) = meta_calls um.
Proof.
  unfold clear_cached_del_vec_by_tablet_id.
  generalize (map_entries (_del_vec_cache um)) as l. intros l. revert um.
  induction l as [|iter l IH]; intros um; [done|].
  cbn [foldl]. case_bool_decide; [|apply IH].
  by destruct (IH (with_del_vec (delete iter.1 (_del_vec_cache um))
                     (release (Z.of_N (memory_usage iter.2)) (_del_vec_cache_mem_tracker um))
                     um)) as (-> & -> & -> & ->).
Qed.

Lemma clear_cached_delta_column_group_cache tsids um :
  _delta_column_group_cache (clear_cached_delta_column_group tsids um)
  = foldl (fun m k => delete k m) (_delta_column_group_cache um) tsids
  /\ _del_vec_cache (clear_cached_delta_column_group tsids um) = _del_vec_cache um
  /\ _del_vec_cache_mem_tracker (clear_cached_delta_column_group tsids um)
     = _del_vec_cache_mem_tracker um
  /\ meta_calls (clear_cached_delta_column_group tsids um) = meta_calls um.
Proof.
  unfold clear_cached_delta_column_group. revert um.
  induction tsids as [|tsid tsids IH]; intros um; [done|].
  cbn [foldl]. destruct (_delta_column_group_cache um !! tsid) as [cached|] eqn:Hc.
  - by destruct (IH (with_dcg (delete tsid (_delta_column_group_cache um))
                       (release (delta_column_group_list_memory_usage cached)
                          (_delta_column_group_cache_mem_tracker um)) um))
      as (-> & -> & -> & ->).
  - rewrite (delete_id _ _ Hc). apply IH.
Qed.

Lemma clear_cached_delta_column_group_by_tablet_id_cache tablet um :
  _delta_column_group_cache (clear_cached_delta_column_group_by_tablet_id tablet um)
  = foldl (fun m (iter : TabletSegmentId * DeltaColumnGroupList) =>
             if bool_decide (tablet_id iter.1 = tablet) then delete iter.1 m else m)
      (_delta_column_group_cache um) (map_entries (_delta_column_group_cache um))
  /\ _del_vec_cache (clear_cached_delta_column_group_by_tablet_id tablet um)
     = _del_vec_cache um
  /\ _del_vec_cache_mem_tracker (clear_cached_delta_column_group_by_tablet_id tablet um)
     = _del_vec_cache_mem_tracker um
  /\ meta_calls (clear_cached_delta_column_group_by_tablet_id tablet um) = meta_calls um.
Proof.
  unfold clear_cached_delta_column_group_by_tablet_id.
  generalize (map_entries (_delta_column_group_cache um)) as l. intros l. revert um.
  induction l as [|iter l IH]; intros um; [done|].
  cbn [foldl]. case_bool_decide; [|apply IH].
  by destruct (IH (with_dcg (delete iter.1 (_delta_column_group_cache um))
                     (release (delta_column_group_list_memory_usage iter.2)
                        (_delta_column_group_cache_mem_tracker um)) um))
    as (-> & -> & -> & ->).
Qed.

(** X6.  After [clear_cached_del_vec] none of the given keys has a cached
    vector, every other key has the vector it had, and no call went to the
    store. *)
Theorem clear_cached_del_vec_clears tsids um k :
  _del_vec_cache (clear_cached_del_vec tsids um) !! k
  = (if decide (k ∈ tsids) then None else _del_vec_cache um !! k)
  /\ meta_calls (clear_cached_del_vec tsids um) = meta_calls um.
Proof.
  destruct (clear_cached_del_vec_cache tsids um) as (-> & _ & _ & ->).
  split; [apply lookup_foldl_delete|done].
Qed.

(** X7.  After [clear_cached_del_vec_by_tablet_id] no segment of the tablet
    has a cached vector and the segments of the other tablets have the vector
    they had. *)
Theorem clear_cached_del_vec_by_tablet_id_clears tablet um k :
  _del_vec_cache (clear_cached_del_vec_by_tablet_id tablet um) !! k
  = if decide (tablet_id k = tablet) then None else _del_vec_cache um !! k.
Proof.
  destruct (clear_cached_del_vec_by_tablet_id_cache tablet um) as (-> & _).
  apply lookup_erase_tablet.
Qed.

(** X9.  Invalidation lifts the version floor: once [clear_cached_del_vec]
    has removed the key, [set_cached_del_vec] accepts any vector for it, also
    one older than the vector removed. *)
Theorem clear_then_set_cached_del_vec tsids tsid delvec um :
  tsid ∈ tsids ->
  exists um', set_cached_del_vec tsid delvec (clear_cached_del_vec tsids um) = (OK, um')
              /\ _del_vec_cache um' !! tsid = Some delvec.
Proof.
  intros Hin. unfold set_cached_del_vec.
  destruct (clear_cached_del_vec_cache tsids um) as (Hcache & _).
  rewrite Hcache, lookup_foldl_delete, decide_True by done.
  eexists. split; [reflexivity|]. cbn. by rewrite lookup_insert_eq.
Qed.

(** X14.  After [clear_cached_delta_column_group] none of the given keys has
    a cached list, every other key has the list it had, and no call went to
    the store. *)
Theorem clear_cached_delta_column_group_clears tsids um k :
  _delta_column_group_cache (clear_cached_delta_column_group tsids um) !! k
  = (if decide (k ∈ tsids) then None else _delta_column_group_cache um !! k)
  /\ meta_calls (clear_cached_delta_column_group tsids um) = meta_calls um.
Proof.
  destruct (clear_cached_delta_column_group_cache tsids um) as (-> & _ & _ & ->).
  split; [apply lookup_foldl_delete|done].
Qed.

(** X15.  After [clear_cached_delta_column_group_by_tablet_id] no segment of
    the tablet has a cached list and the segments of the other tablets have
    the list they had. *)
Theorem clear_cached_delta_column_group_by_tablet_id_clears tablet um k :
  _delta_column_group_cache (clear_cached_delta_column_group_by_tablet_id tablet um) !! k
  = if decide (tablet_id k = tablet) then None else _delta_column_group_cache um !! k.
Proof.
  destruct (clear_cached_delta_column_group_by_tablet_id_cache tablet um) as (-> & _).
  apply lookup_erase_tablet.
Qed.

End Invalidation.

Lemma set_cached_del_vec_publishes_witness :
  (forall cached, _del_vec_cache warm3 !! seg73 = Some cached ->
                  version cached < version delvec5)
  /\ exists um',
      set_cached_del_vec seg73 delvec5 warm3 = (OK, um')
      /\ _del_vec_cache um' = <[seg73 := delvec5]> (_del_vec_cache warm3)
      /\ meta_calls um' = meta_calls warm3
      /\ get_latest_del_vec scenario_store seg73 None um' = (OK, Some delvec5, um')
      /\ (forall ver, version delvec5 <= ver ->
            get_del_vec scenario_store seg73 ver None um' = (OK, Some delvec5, um')).
Proof.
  assert (forall cached, _del_vec_cache warm3 !! seg73 = Some cached ->
                         version cached < version delvec5) as Hnewer.
  { intros cached Hc. vm_compute in Hc. injection Hc as <-. vm_compute. reflexivity. }
  split; [exact Hnewer|].
  apply (set_cached_del_vec_publishes (CO:=MemStore_collaborators) scenario_store seg73
           delvec5 None warm3 Hnewer).
Defined.

Lemma get_del_vec_failure_witness :
  (get_del_vec broken_store seg73 3 None cold).1.1 = Err IOError "meta store unavailable"
  /\ get_del_vec_cached seg73 3 cold = None
  /\ (TabletMetaManager_get_del_vector broken_store (tablet_id seg73) (segment_id seg73) 3).1.1
     = Err IOError "meta store unavailable"
  /\ (get_del_vec broken_store seg73 3 None cold).2 = log_meta_call (GetDelVector seg73 3) cold.
Proof.
  split; [reflexivity|].
  apply (get_del_vec_failure (CO:=MemStore_collaborators) broken_store seg73 3 None cold
           IOError "meta store unavailable").
  reflexivity.
Defined.

Lemma get_latest_del_vec_twice_witness :
  get_latest_del_vec scenario_store seg73 None cold
  = (OK, Some delvec3, (get_latest_del_vec scenario_store seg73 None cold).2)
  /\ get_latest_del_vec broken_store seg73 None
       (get_latest_del_vec scenario_store seg73 None cold).2
     = (OK, Some delvec3, (get_latest_del_vec scenario_store seg73 None cold).2).
Proof.
  split; [reflexivity|].
  apply (get_latest_del_vec_twice (CO:=MemStore_collaborators) scenario_store broken_store
           seg73 None None cold).
  reflexivity.
Defined.

Lemma get_del_vec_without_store_call_witness :
  get_del_vec scenario_store seg73 4 None warm3 = (OK, Some delvec3, warm3)
  /\ meta_calls warm3 = meta_calls warm3
  /\ OK = OK /\ warm3 = warm3
  /\ exists cached, Some delvec3 = Some cached /\ _del_vec_cache warm3 !! seg73 = Some cached
                    /\ version cached <= 4.
Proof.
  split; [reflexivity|]. split; [reflexivity|].
  apply (get_del_vec_without_store_call (CO:=MemStore_collaborators) scenario_store seg73 4
           None warm3 OK (Some delvec3) warm3); reflexivity.
Defined.

Lemma clear_then_set_cached_del_vec_witness :
  seg73 ∈ [seg73]
  /\ exists um', set_cached_del_vec seg73 delvec1 (clear_cached_del_vec [seg73] warm3) = (OK, um')
                 /\ _del_vec_cache um' !! seg73 = Some delvec1.
Proof.
  split; [left|].
  apply (clear_then_set_cached_del_vec (CO:=MemStore_collaborators) [seg73] seg73 delvec1 warm3).
  left.
Defined.

(** ** The two keyed caches side by side *)

Section SideBySide.
Context {CO : Collaborators}.

Implicit Types (um : UpdateManager) (tsid k : TabletSegmentId).

Lemma delete_collected_del_vec meta clear_dcgs um :
  _del_vec_cache (delete_collected meta clear_dcgs um).2 = _del_vec_cache um
  /\ _del_vec_cache_mem_tracker (delete_collected meta clear_dcgs um).2
     = _del_vec_cache_mem_tracker um.
Proof.
  unfold delete_collected.
  enough (forall acc : list (TabletSegmentId * Z) * UpdateManager,
             _del_vec_cache
               (foldl (fun '(wb, um) dcg =>
                         let st := TabletMetaManager_delete_delta_column_group meta dcg.1 dcg.2 in
                         (if status_ok st then wb ++ [dcg] else wb,
                          log_meta_call (DeleteDeltaColumnGroup dcg.1 dcg.2) um))
                      acc clear_dcgs).2
             = _del_vec_cache acc.2
             /\ _del_vec_cache_mem_tracker
                  (foldl (fun '(wb, um) dcg =>
                            let st := TabletMetaManager_delete_delta_column_group meta dcg.1 dcg.2 in
                            (if status_ok st then wb ++ [dcg] else wb,
                             log_meta_call (DeleteDeltaColumnGroup dcg.1 dcg.2) um))
                         acc clear_dcgs).2
                = _del_vec_cache_mem_tracker acc.2) as Hacc
    by apply (Hacc ([], um)).
  induction clear_dcgs as [|dcg rest IH]; intros [wb um0]; [done|].
  cbn [foldl]. by destruct (IH (if status_ok
                                   (TabletMetaManager_delete_delta_column_group meta dcg.1 dcg.2)
                                then wb ++ [dcg] else wb,
                                log_meta_call (DeleteDeltaColumnGroup dcg.1 dcg.2) um0)).
Qed.

Lemma clear_delta_column_group_before_version_del_vec clock meta tablet_path tablet min um :
  _del_vec_cache
    (clear_delta_column_group_before_version clock meta tablet_path tablet min um).2
  = _del_vec_cache um
  /\ _del_vec_cache_mem_tracker
       (clear_delta_column_group_before_version clock meta tablet_path tablet min um).2
     = _del_vec_cache_mem_tracker um.
Proof.
  unfold clear_delta_column_group_before_version.
  destruct (collect_before_version _ _ _ _ _) as [[cache clear_dcgs] clear_filenames].
  pose proof (delete_collected_del_vec meta clear_dcgs
                (with_dcg cache (_delta_column_group_cache_mem_tracker um) um)) as Hdel.
  destruct (delete_collected meta clear_dcgs _) as [wb um2]. cbn [snd] in Hdel.
  destruct (KVStore_write_batch meta wb);
    [destruct (FileSystem_CreateSharedFromString tablet_path)|]; cbn; exact Hdel.
Qed.

Lemma dcg_op_del_vec op um :
  cache_of op = DeltaColumnGroupCache ->
  _del_vec_cache (run_cache_op um op) = _del_vec_cache um
  /\ _del_vec_cache_mem_tracker (run_cache_op um op) = _del_vec_cache_mem_tracker um.
Proof.
  destruct op; try done; intros _; cbn [run_cache_op].
  - unfold get_delta_column_group, get_delta_column_group_in_meta, get_delta_column_group_fill.
    destruct (_delta_column_group_cache um !! tsid); [done|].
    destruct (TabletMetaManager_get_delta_column_group _ _ _ _) as [[] new_dcgs]; [|done].
    cbn. by destruct (_delta_column_group_cache um !! tsid).
  - unfold get_cached_delta_column_group.
    by destruct (_delta_column_group_cache um !! tsid).
  - unfold set_cached_empty_delta_column_group, get_delta_column_group_in_meta.
    destruct (_delta_column_group_cache um !! tsid); [done|].
    destruct (TabletMetaManager_get_delta_column_group _ _ _ _) as [[] new_dcgs]; [|done].
    cbn. destruct (_delta_column_group_cache um !! tsid); [done|]. by destruct new_dcgs.
  - unfold set_cached_delta_column_group, get_delta_column_group_in_meta.
    destruct (_delta_column_group_cache um !! tsid); [done|].
    by destruct (TabletMetaManager_get_delta_column_group _ _ _ _) as [[] new_dcgs].
  - by destruct (clear_cached_delta_column_group_cache tsids um) as (_ & -> & -> & _).
  - by destruct (clear_cached_delta_column_group_by_tablet_id_cache tablet um)
      as (_ & -> & -> & _).
  - apply clear_delta_column_group_before_version_del_vec.
Qed.

Lemma del_vec_op_dcg op um :
  cache_of op = DelVecCache ->
  _delta_column_group_cache (run_cache_op um op) = _delta_column_group_cache um
  /\ _delta_column_group_cache_mem_tracker (run_cache_op um op)
     = _delta_column_group_cache_mem_tracker um.
Proof.
  destruct op; try done; intros _; cbn [run_cache_op].
  - destruct (get_del_vec_state meta tsid ver None um) as [->|[->|(delvec & latest & ->)]];
      [done|done|]. apply (get_del_vec_fill_dcg tsid delvec latest (log_meta_call _ um)).
  - unfold get_latest_del_vec, get_del_vec_in_meta.
    destruct (_del_vec_cache um !! tsid); [done|].
    by destruct (TabletMetaManager_get_del_vector _ _ _ _) as [[[] delvec] latest].
  - unfold set_cached_del_vec.
    destruct (_del_vec_cache um !! tsid); [case_bool_decide|]; done.
  - by destruct (clear_cached_del_vec_cache tsids um) as (_ & -> & -> & _).
  - by destruct (clear_cached_del_vec_by_tablet_id_cache tablet um) as (_ & -> & -> & _).
Qed.

(** X10.  The two keyed caches are independent: a method of the delete-vector
    cache leaves the delta-column-group cache and its tracker as they are, and
    a method of the delta-column-group cache, garbage collection included,
    leaves the delete-vector cache and its tracker as they are. *)
Theorem keyed_caches_independent op um :
  (cache_of op = DelVecCache ->
   _delta_column_group_cache (run_cache_op um op) = _delta_column_group_cache um
   /\ _delta_column_group_cache_mem_tracker (run_cache_op um op)
      = _delta_column_group_cache_mem_tracker um)
  /\ (cache_of op = DeltaColumnGroupCache ->
      _del_vec_cache (run_cache_op um op) = _del_vec_cache um
      /\ _del_vec_cache_mem_tracker (run_cache_op um op) = _del_vec_cache_mem_tracker um).
Proof. split; [apply del_vec_op_dcg|apply dcg_op_del_vec]. Qed.

Lemma run_cache_op_del_vec_accounted op um :
  del_vec_accounted um -> del_vec_accounted (run_cache_op um op).
Proof.
  intros Hacc. destruct (cache_of op) eqn:Hop.
  - destruct op; try done; cbn [run_cache_op].
    + by apply get_del_vec_accounted.
    + by apply get_latest_del_vec_accounted.
    + by apply set_cached_del_vec_accounted.
    + by apply clear_cached_del_vec_accounted.
    + by apply clear_cached_del_vec_by_tablet_id_accounted.
  - destruct (dcg_op_del_vec op um Hop) as [Hc Ht].
    unfold del_vec_accounted, del_vec_cache_usage in *. by rewrite Hc, Ht.
  - destruct op; try done. apply clear_cache_accounted.
Qed.

Lemma run_cache_op_delta_column_group_accounted op um :
  is_garbage_collection op = false ->
  delta_column_group_accounted um -> delta_column_group_accounted (run_cache_op um op).
Proof.
  intros Hgc Hacc. destruct (cache_of op) eqn:Hop.
  - destruct (del_vec_op_dcg op um Hop) as [Hc Ht].
    unfold delta_column_group_accounted, delta_column_group_cache_usage in *.
    by rewrite Hc, Ht.
  - destruct op; try done; cbn [run_cache_op].
    + by apply get_delta_column_group_accounted.
    + unfold get_cached_delta_column_group.
      by destruct (_delta_column_group_cache um !! tsid).
    + by apply set_cached_empty_delta_column_group_accounted.
    + by apply set_cached_delta_column_group_accounted.
    + by apply clear_cached_delta_column_group_accounted.
    + by apply clear_cached_delta_column_group_by_tablet_id_accounted.
  - destruct op; try done. apply clear_cache_accounted.
Qed.

(** X8.  The tracker of the delete-vector cache stays equal to the memory of
    the cached vectors over any sequence of calls of the methods of the two
    keyed caches. *)
Theorem del_vec_accounting_preserved ops um :
  del_vec_accounted um -> del_vec_accounted (run_cache_ops ops um).
Proof.
  unfold run_cache_ops. revert um.
  induction ops as [|op ops IH]; intros um Hacc; [done|].
  cbn [foldl]. apply IH. by apply run_cache_op_del_vec_accounted.
Qed.

(** X16.  The tracker of the delta-column-group cache stays equal to the
    memory of the cached lists over any sequence of calls of the methods of
    the two keyed caches that has no
    [clear_delta_column_group_before_version] in it. *)
Theorem delta_column_group_accounting_preserved ops um :
  Forall (fun op => is_garbage_collection op = false) ops ->
  delta_column_group_accounted um ->
  delta_column_group_accounted (run_cache_ops ops um).
Proof.
  unfold run_cache_ops. intros Hops. revert um.
  induction Hops as [|op ops Hop _ IH]; intros um Hacc; [done|].
  cbn [foldl]. apply IH. by apply run_cache_op_delta_column_group_accounted.
Qed.

End SideBySide.

Lemma del_vec_accounting_preserved_witness :
  del_vec_accounted cold
  /\ del_vec_accounted
       (run_cache_ops
          [DoSetCachedDelVec seg73 delvec1; DoGetDelVec scenario_store seg74 3;
           DoGetLatestDelVec scenario_store seg73; DoSetCachedDelVec seg73 delvec5;
           DoClearDeltaColumnGroupBeforeVersion steady_clock dcg_store "/data/7" 7 3;
           DoClearCachedDelVecByTabletId 7] cold).
Proof.
  split; [reflexivity|].
  apply (del_vec_accounting_preserved (CO:=MemStore_collaborators)). reflexivity.
Defined.

Lemma delta_column_group_accounting_preserved_witness :
  Forall (fun op => is_garbage_collection op = false)
    [DoGetDeltaColumnGroup dcg_store seg73 9 []; DoSetCachedDeltaColumnGroup dcg_store seg73 dcg5;
     DoSetCachedEmptyDeltaColumnGroup dcg_store seg74; DoClearCachedDeltaColumnGroup [seg73]]
  /\ delta_column_group_accounted cold
  /\ delta_column_group_accounted
       (run_cache_ops
          [DoGetDeltaColumnGroup dcg_store seg73 9 [];
           DoSetCachedDeltaColumnGroup dcg_store seg73 dcg5;
           DoSetCachedEmptyDeltaColumnGroup dcg_store seg74;
           DoClearCachedDeltaColumnGroup [seg73]] cold).
Proof.
  assert (Forall (fun op => is_garbage_collection op = false)
            [DoGetDeltaColumnGroup dcg_store seg73 9 [];
             DoSetCachedDeltaColumnGroup dcg_store seg73 dcg5;
             DoSetCachedEmptyDeltaColumnGroup dcg_store seg74;
             DoClearCachedDeltaColumnGroup [seg73]]) as Hops
    by (repeat constructor).
  split; [exact Hops|]. split; [reflexivity|].
  apply (delta_column_group_accounting_preserved (CO:=MemStore_collaborators) _ cold Hops).
  reflexivity.
Defined.

(** ** More on delta column groups *)

Section MoreDeltaColumnGroupProperties.
Context {CO : Collaborators}.

Implicit Types (um : UpdateManager) (tsid k : TabletSegmentId) (dcgs : DeltaColumnGroupList)
  (min tablet : Z).

(** X11.  [get_delta_column_group] fails only when the key is not cached and
    the store fails, with the status of the store; the output list and the
    caches are then as before, one call on the store apart. *)
Theorem get_delta_column_group_failure meta tsid ver dcgs um code msg :
  (get_delta_column_group meta tsid ver dcgs um).1.1 = Err code msg ->
  _delta_column_group_cache um !! tsid = None
  /\ (TabletMetaManager_get_delta_column_group meta (tablet_id tsid) (segment_id tsid)
        INT64_MAX).1 = Err code msg
  /\ get_delta_column_group meta tsid ver dcgs um
     = (Err code msg, dcgs, log_meta_call (GetDeltaColumnGroup tsid INT64_MAX) um).
Proof.
  unfold get_delta_column_group, get_delta_column_group_in_meta.
  destruct (_delta_column_group_cache um !! tsid); [done|].
  destruct (TabletMetaManager_get_delta_column_group _ _ _ _) as [st new_dcgs].
  destruct st; [done|]. cbn. by intros [= -> ->].
Qed.

(** X12.  [set_cached_empty_delta_column_group] never changes a list that is
    cached, nor the slot of another key, nor the tracker; a key that was not
    cached is cached afterwards exactly when the store answered with the
    empty list, and then with the empty list. *)
Theorem set_cached_empty_delta_column_group_seeds meta tsid um :
  (forall k cached, _delta_column_group_cache um !! k = Some cached ->
     _delta_column_group_cache (set_cached_empty_delta_column_group meta tsid um).2 !! k
     = Some cached)
  /\ (forall k, k <> tsid ->
        _delta_column_group_cache (set_cached_empty_delta_column_group meta tsid um).2 !! k
        = _delta_column_group_cache um !! k)
  /\ _delta_column_group_cache_mem_tracker (set_cached_empty_delta_column_group meta tsid um).2
     = _delta_column_group_cache_mem_tracker um
  /\ (_delta_column_group_cache um !! tsid = None ->
      _delta_column_group_cache (set_cached_empty_delta_column_group meta tsid um).2 !! tsid
      = match TabletMetaManager_get_delta_column_group meta (tablet_id tsid) (segment_id tsid)
                INT64_MAX with
        | (OK, []) => Some []
        | _ => None
        end).
Proof.
  unfold set_cached_empty_delta_column_group, get_delta_column_group_in_meta.
  destruct (_delta_column_group_cache um !! tsid) as [cached|] eqn:Hc.
  { split_and!; [done|done|done|done]. }
  destruct (TabletMetaManager_get_delta_column_group _ _ _ _) as [st new_dcgs].
  destruct st; cbn [status_ok _delta_column_group_cache log_meta_call snd].
  2:{ split_and!; [done|done|done|]. intros _. done. }
  rewrite Hc. destruct new_dcgs as [|dcg new_dcgs]; cbn [snd].
  - split_and!.
    + intros k cached Hk. cbn. rewrite lookup_insert_ne; [done|]. intros ->. congruence.
    + intros k Hk. cbn. by rewrite lookup_insert_ne.
    + done.
    + intros _. cbn. apply lookup_insert_eq.
  - split_and!; [done|done|done|]. intros _. done.
Qed.

(** X13.  [set_cached_delta_column_group] on a cached key puts the group at
    the head of the cached list without a call on the store, so the list
    stays ordered by decreasing version when the new version is not below
    the head's; on a key that is not cached it caches the list of the store
    as it is, or returns the failure of the store and caches nothing. *)
Theorem set_cached_delta_column_group_prepends meta tsid dcg um :
  match _delta_column_group_cache um !! tsid with
  | Some cached =>
      exists um',
        set_cached_delta_column_group meta tsid dcg um = (OK, um')
        /\ _delta_column_group_cache um' = <[tsid := dcg :: cached]> (_delta_column_group_cache um)
        /\ meta_calls um' = meta_calls um
        /\ (Sorted (fun a b => dcg_version b <= dcg_version a) cached ->
            HdRel (fun a b => dcg_version b <= dcg_version a) dcg cached ->
            Sorted (fun a b => dcg_version b <= dcg_version a) (dcg :: cached))
  | None =>
      match TabletMetaManager_get_delta_column_group meta (tablet_id tsid) (segment_id tsid)
              INT64_MAX with
      | (OK, new_dcgs) =>
          exists um',
            set_cached_delta_column_group meta tsid dcg um = (OK, um')
            /\ _delta_column_group_cache um'
               = <[tsid := new_dcgs]> (_delta_column_group_cache um)
            /\ meta_calls um' = meta_calls um ++ [GetDeltaColumnGroup tsid INT64_MAX]
      | (Err code msg, _) =>
          set_cached_delta_column_group meta tsid dcg um
          = (Err code msg, log_meta_call (GetDeltaColumnGroup tsid INT64_MAX) um)
      end
  end.
Proof.
  unfold set_cached_delta_column_group, get_delta_column_group_in_meta.
  destruct (_delta_column_group_cache um !! tsid) as [cached|] eqn:Hc.
  - eexists. split; [reflexivity|]. split; [done|]. split; [done|].
    intros Hsorted Hhd. by constructor.
  - destruct (TabletMetaManager_get_delta_column_group _ _ _ _) as [st new_dcgs].
    destruct st; cbn [status_ok]; [|done].
    eexists. split; [reflexivity|]. done.
Qed.

Lemma clear_before_version_cache clock meta tablet_path tablet min um :
  _delta_column_group_cache
    (clear_delta_column_group_before_version clock meta tablet_path tablet min um).2
  = (collect_before_version clock tablet_path tablet min um).1.1.
Proof.
  unfold clear_delta_column_group_before_version.
  destruct (collect_before_version _ _ _ _ _) as [[cache clear_dcgs] clear_filenames].
  pose proof (delete_collected_state meta clear_dcgs
                (with_dcg cache (_delta_column_group_cache_mem_tracker um) um)) as [Hdel _].
  destruct (delete_collected meta clear_dcgs _) as [wb um2]. cbn [snd] in Hdel.
  destruct (KVStore_write_batch meta wb);
    [destruct (FileSystem_CreateSharedFromString tablet_path)|]; cbn; exact Hdel.
Qed.

Lemma collect_before_version_lookup clock tablet_path tablet min um k :
  (collect_before_version clock tablet_path tablet min um).1.1 !! k
  = _delta_column_group_cache um !! k
  \/ (tablet_id k = tablet
      /\ exists l, _delta_column_group_cache um !! k = Some l
                   /\ (collect_before_version clock tablet_path tablet min um).1.1 !! k
                      = Some (live_groups min l)).
Proof.
  destruct (collect_before_version clock tablet_path tablet min um)
    as [[cache' clear_dcgs] clear_filenames] eqn:Hcollect.
  unfold collect_before_version in Hcollect.
  apply garbage_collection_loop_spec in Hcollect as (_ & P2 & _);
    [|apply NoDup_map_lower_bound|by intros k' l [? _]%elem_of_map_lower_bound].
  destruct (P2 k) as [Heq|(Ht & l & Hl & Hk)]; [by left|].
  right. split; [done|]. exists l. apply elem_of_map_lower_bound in Hl as [Hl _]. done.
Qed.

(** X17.  [clear_delta_column_group_before_version] never drops or adds a
    segment key: a key is cached afterwards exactly when it was before; the
    lists of the other tablets are untouched, and a list of the tablet only
    loses groups, the rest staying in order. *)
Theorem clear_before_version_keeps_segments clock meta tablet_path tablet min um k :
  (_delta_column_group_cache
     (clear_delta_column_group_before_version clock meta tablet_path tablet min um).2 !! k
   = None <-> _delta_column_group_cache um !! k = None)
  /\ (tablet_id k <> tablet ->
      _delta_column_group_cache
        (clear_delta_column_group_before_version clock meta tablet_path tablet min um).2 !! k
      = _delta_column_group_cache um !! k)
  /\ (forall l',
        _delta_column_group_cache
          (clear_delta_column_group_before_version clock meta tablet_path tablet min um).2 !! k
        = Some l' ->
        exists l, _delta_column_group_cache um !! k = Some l /\ l' `sublist_of` l).
Proof.
  rewrite clear_before_version_cache.
  destruct (collect_before_version_lookup clock tablet_path tablet min um k)
    as [->|(Ht & l & Hl & ->)].
  - split_and!; [done|done|]. intros l' Hl'. by exists l'.
  - rewrite Hl. split_and!; [done|done|].
    intros l' [= <-]. exists l. split; [done|]. apply sublist_filter.
Qed.

End MoreDeltaColumnGroupProperties.

Section SweepOutcomes.
Context {CO : Collaborators}.

Implicit Types (um : UpdateManager) (k : TabletSegmentId) (min tablet : Z).

Lemma foldl_step {A B : Type} (f : A -> B -> A) (a : A) (x : B) (l : list B) :
  foldl f a (x :: l) = foldl f (f a x) l.
Proof. reflexivity. Qed.

Lemma delete_collected_batch meta clear_dcgs um :
  (delete_collected meta clear_dcgs um).1
  = filter (fun dcg => status_ok (TabletMetaManager_delete_delta_column_group meta dcg.1 dcg.2)
                       = true) clear_dcgs
  /\ meta_calls (delete_collected meta clear_dcgs um).2
     = meta_calls um ++ ((fun dcg => DeleteDeltaColumnGroup dcg.1 dcg.2) <$> clear_dcgs).
Proof.
  unfold delete_collected.
  enough (forall acc : list (TabletSegmentId * Z) * UpdateManager,
             (foldl (fun '(wb, um) dcg =>
                       let st := TabletMetaManager_delete_delta_column_group meta dcg.1 dcg.2 in
                       (if status_ok st then wb ++ [dcg] else wb,
                        log_meta_call (DeleteDeltaColumnGroup dcg.1 dcg.2) um))
                    acc clear_dcgs).1
             = acc.1 ++ filter (fun dcg =>
                                  status_ok (TabletMetaManager_delete_delta_column_group meta
                                               dcg.1 dcg.2) = true) clear_dcgs
             /\ meta_calls
                  (foldl (fun '(wb, um) dcg =>
                            let st := TabletMetaManager_delete_delta_column_group meta dcg.1 dcg.2 in
                            (if status_ok st then wb ++ [dcg] else wb,
                             log_meta_call (DeleteDeltaColumnGroup dcg.1 dcg.2) um))
                         acc clear_dcgs).2
                = meta_calls acc.2
                  ++ ((fun dcg => DeleteDeltaColumnGroup dcg.1 dcg.2) <$> clear_dcgs)) as Hacc
    by apply (Hacc ([], um)).
  induction clear_dcgs as [|dcg rest IH]; intros acc.
  - cbn. by rewrite !app_nil_r.
  - rewrite !foldl_step.
    match goal with
    | |- context [foldl _ ?b rest] => destruct (IH b) as [-> ->]
    end.
    destruct acc as [wb um0]. cbn [fst snd].
    rewrite meta_calls_log_meta_call, fmap_cons, <-app_assoc. cbn [app].
    split; [|done]. rewrite filter_cons.
    destruct (status_ok _) eqn:Hst.
    + rewrite decide_True by done. by rewrite <-app_assoc.
    + by rewrite decide_False by done.
Qed.

(** X18.  When [clear_delta_column_group_before_version] fails, the failure
    is the one of the batch write or, after a batch that was written, of the
    opening of the file system; no file has been deleted, but the cache has
    lost the collected groups all the same, and the store has seen one
    deletion per collected group followed by the batch. *)
Theorem clear_before_version_failure clock meta tablet_path tablet min um code msg :
  (clear_delta_column_group_before_version clock meta tablet_path tablet min um).1.1
  = Failed code msg ->
  let clear_dcgs := (collect_before_version clock tablet_path tablet min um).1.2 in
  let wb :=
    filter (fun dcg => status_ok (TabletMetaManager_delete_delta_column_group meta dcg.1 dcg.2)
                       = true) clear_dcgs in
  (clear_delta_column_group_before_version clock meta tablet_path tablet min um).1.2 = []
  /\ _delta_column_group_cache
       (clear_delta_column_group_before_version clock meta tablet_path tablet min um).2
     = (collect_before_version clock tablet_path tablet min um).1.1
  /\ meta_calls (clear_delta_column_group_before_version clock meta tablet_path tablet min um).2
     = meta_calls um ++ ((fun dcg => DeleteDeltaColumnGroup dcg.1 dcg.2) <$> clear_dcgs)
       ++ [WriteBatch wb]
  /\ (KVStore_write_batch meta wb = Err code msg
      \/ (KVStore_write_batch meta wb = OK
          /\ FileSystem_CreateSharedFromString tablet_path = Err code msg)).
Proof.
  intros Hfail clear_dcgs wb. split; [|split; [apply clear_before_version_cache|]].
  all: revert Hfail; subst clear_dcgs wb;
    unfold clear_delta_column_group_before_version;
    destruct (collect_before_version _ _ _ _ _) as [[cache cd] cf]; cbn [fst snd];
    pose proof (delete_collected_batch meta cd
                  (with_dcg cache (_delta_column_group_cache_mem_tracker um) um)) as [Hwb Hlog];
    destruct (delete_collected meta cd _) as [wb um2]; cbn [fst snd] in Hwb, Hlog;
    subst wb;
    destruct (KVStore_write_batch meta _) eqn:Hwrite;
    [destruct (FileSystem_CreateSharedFromString tablet_path) eqn:Hfs|]; cbn; try done.
  - intros [= -> ->]. rewrite Hlog. cbn. rewrite <-app_assoc. split; [done|]. by right.
  - intros [= -> ->]. rewrite Hlog. cbn. rewrite <-app_assoc. split; [done|]. by left.
Qed.

Lemma garbage_collection_loop_nothing clock begin tablet min path
    (itr : list (TabletSegmentId * DeltaColumnGroupList)) :
  forall reading (cache : gmap TabletSegmentId DeltaColumnGroupList) cd cf,
    (forall k l, (k, l) ∈ itr ->
       cache !! k = Some l
       /\ (tablet_id k = tablet -> Forall (fun dcg => ~ is_garbage min l dcg) l)) ->
    garbage_collection_loop clock begin reading tablet min path itr cache cd cf
    = (cache, cd, cf).
Proof.
  induction itr as [|[k0 l0] itr IH]; intros reading cache cd cf Hin; [done|].
  cbn [garbage_collection_loop].
  destruct (is_timeout begin (clock reading)); [done|].
  case_bool_decide as Htab; [|done].
  destruct (Hin k0 l0) as [Hc0 Hall]; [left|]. specialize (Hall Htab).
  rewrite garbage_collection_kept. unfold live_groups.
  rewrite (filter_all _ l0 Hall), (filter_none _ l0 Hall).
  cbn [fmap list_fmap mbind list_bind]. rewrite !app_nil_r, insert_id by done.
  apply IH. intros k l Hk. apply Hin. by right.
Qed.

Lemma full_sweep_versions clock tablet_path tablet min um k l' :
  (forall n, clock n <= clock 0%nat + 10) ->
  tablet_id k = tablet ->
  (collect_before_version clock tablet_path tablet min um).1.1 !! k = Some l' ->
  exists l, l' = live_groups min l.
Proof.
  intros Hclock Ht Hl'.
  destruct (collect_before_version clock tablet_path tablet min um)
    as [[cache' clear_dcgs] clear_filenames] eqn:Hcollect.
  unfold collect_before_version in Hcollect. cbn [fst] in Hl'.
  apply garbage_collection_loop_spec in Hcollect as (_ & P2 & _ & P4);
    [|apply NoDup_map_lower_bound|by intros k' l [? _]%elem_of_map_lower_bound].
  destruct (P2 k) as [Heq|(_ & l & Hl & Hk)].
  - assert ((k, l') ∈ map_lower_bound {| tablet_id := tablet; segment_id := 0 |}
                        (_delta_column_group_cache um)) as Hin.
    { apply elem_of_map_lower_bound. split; [by rewrite <-Heq|].
      unfold tsid_le. cbn. lia. }
    pose proof (P4 Hclock (map_lower_bound_tablet_prefix _ _) k l' Hin Ht) as Hkept.
    rewrite Hl' in Hkept. injection Hkept as Hkept. by exists l'.
  - rewrite Hk in Hl'. injection Hl' as <-. by exists l.
Qed.

(** X19.  A sweep that was not cut short by its time slice leaves nothing to
    collect: a later [clear_delta_column_group_before_version] of the tablet
    with the same or a lower minimum readable version collects no group,
    changes no cached list and, when it succeeds, returns 0. *)
Theorem clear_before_version_settles clock meta tablet_path tablet min
    clock' meta' tablet_path' min' um :
  (forall n, clock n <= clock 0%nat + 10) ->
  min' <= min ->
  let um1 := (clear_delta_column_group_before_version clock meta tablet_path tablet min um).2 in
  collect_before_version clock' tablet_path' tablet min' um1
  = (_delta_column_group_cache um1, [], [])
  /\ (forall n,
        (clear_delta_column_group_before_version clock' meta' tablet_path' tablet min' um1).1.1
        = Value n -> n = 0%nat).
Proof.
  intros Hclock Hmin um1.
  assert (collect_before_version clock' tablet_path' tablet min' um1
          = (_delta_column_group_cache um1, [], [])) as Hnothing.
  { unfold collect_before_version. apply garbage_collection_loop_nothing.
    intros k l [Hl _]%elem_of_map_lower_bound. split; [done|]. intros Ht.
    subst um1. rewrite clear_before_version_cache in Hl.
    destruct (full_sweep_versions clock tablet_path tablet min um k l Hclock Ht Hl)
      as [l0 ->].
    apply Forall_forall. intros d Hd. by apply (live_groups_settled l0 min min'). }
  split; [done|].
  intros n. unfold clear_delta_column_group_before_version. rewrite Hnothing.
  destruct (delete_collected meta' [] _) as [wb um2].
  destruct (KVStore_write_batch meta' wb);
    [destruct (FileSystem_CreateSharedFromString tablet_path')|]; cbn; congruence.
Qed.

End SweepOutcomes.

Lemma get_delta_column_group_failure_witness :
  (get_delta_column_group broken_store seg73 9 [dcg1] cold).1.1
  = Err IOError "meta store unavailable"
  /\ _delta_column_group_cache cold !! seg73 = None
  /\ (TabletMetaManager_get_delta_column_group broken_store (tablet_id seg73)
        (segment_id seg73) INT64_MAX).1 = Err IOError "meta store unavailable"
  /\ get_delta_column_group broken_store seg73 9 [dcg1] cold
     = (Err IOError "meta store unavailable", [dcg1],
        log_meta_call (GetDeltaColumnGroup seg73 INT64_MAX) cold).
Proof.
  split; [reflexivity|].
  apply (get_delta_column_group_failure (CO:=MemStore_collaborators) broken_store seg73 9
           [dcg1] cold IOError "meta store unavailable").
  reflexivity.
Defined.

Lemma clear_before_version_failure_witness :
  (clear_delta_column_group_before_version steady_clock broken_store "/data/7" 7 3 dcg_warm).1.1
  = Failed IOError "meta store unavailable"
  /\ (let clear_dcgs := (collect_before_version steady_clock "/data/7" 7 3 dcg_warm).1.2 in
      let wb :=
        filter (fun dcg =>
                  status_ok (TabletMetaManager_delete_delta_column_group broken_store dcg.1 dcg.2)
                  = true) clear_dcgs in
      (clear_delta_column_group_before_version steady_clock broken_store "/data/7" 7 3
         dcg_warm).1.2 = []
      /\ _delta_column_group_cache
           (clear_delta_column_group_before_version steady_clock broken_store "/data/7" 7 3
              dcg_warm).2
         = (collect_before_version steady_clock "/data/7" 7 3 dcg_warm).1.1
      /\ meta_calls
           (clear_delta_column_group_before_version steady_clock broken_store "/data/7" 7 3
              dcg_warm).2
         = meta_calls dcg_warm
           ++ ((fun dcg => DeleteDeltaColumnGroup dcg.1 dcg.2) <$> clear_dcgs)
           ++ [WriteBatch wb]
      /\ (KVStore_write_batch broken_store wb = Err IOError "meta store unavailable"
          \/ (KVStore_write_batch broken_store wb = OK
              /\ FileSystem_CreateSharedFromString "/data/7"
                 = Err IOError "meta store unavailable"))).
Proof.
  split; [vm_compute; reflexivity|].
  apply (clear_before_version_failure (CO:=MemStore_collaborators) steady_clock broken_store
           "/data/7" 7 3 dcg_warm IOError "meta store unavailable").
  vm_compute; reflexivity.
Defined.

Lemma clear_before_version_settles_witness :
  (forall n, steady_clock n <= steady_clock 0%nat + 10)
  /\ 2 <= 3
  /\ (let um1 :=
        (clear_delta_column_group_before_version steady_clock dcg_store "/data/7" 7 3
           dcg_warm).2 in
      collect_before_version jumping_clock "/data/7" 7 2 um1
      = (_delta_column_group_cache um1, [], [])
      /\ (forall n,
            (clear_delta_column_group_before_version jumping_clock dcg_store "/data/7" 7 2
               um1).1.1 = Value n -> n = 0%nat)).
Proof.
  assert (forall n, steady_clock n <= steady_clock 0%nat + 10) as Hclock
    by (intros n; unfold steady_clock; lia).
  split; [exact Hclock|]. split; [lia|].
  apply (clear_before_version_settles (CO:=MemStore_collaborators) steady_clock dcg_store
           "/data/7" 7 3 jumping_clock dcg_store "/data/7" 2 dcg_warm Hclock).
  lia.
Defined.

(** ** More on the generic cache *)

Section MoreDynamicCacheProperties.
Context {K V : Type} `{EqDecision K}.

Implicit Types (c : DynamicCache K V) (l : list (Entry K V)) (key : K) (e : Entry K V).

Lemma find_cons (P : Entry K V -> Prop) `{!forall e, Decision (P e)} e l :
  snd <$> list_find P (e :: l) = if decide (P e) then Some e else snd <$> list_find P l.
Proof.
  cbn. case_decide; [done|]. by destruct (list_find P l) as [[i y]|].
Qed.

Lemma dc_find_alter (f : Entry K V -> Entry K V) key key' c :
  (forall e, entry_key (f e) = entry_key e) ->
  dc_find key' (dc_alter f key c)
  = (fun e => if decide (entry_key e = key) then f e else e) <$> dc_find key' c.
Proof.
  intros Hkey. unfold dc_find, dc_alter. cbn [dc_entries dc_with_entries].
  induction (dc_entries c) as [|e l IH]; [done|].
  rewrite fmap_cons, !find_cons, IH.
  assert (entry_key (if decide (entry_key e = key) then f e else e) = entry_key e) as Hk
    by (case_decide; [apply Hkey|done]).
  rewrite Hk. by destruct (decide (entry_key e = key')).
Qed.

Lemma dc_find_alter_ne (f : Entry K V -> Entry K V) key key' c :
  (forall e, entry_key (f e) = entry_key e) -> key' <> key ->
  dc_find key' (dc_alter f key c) = dc_find key' c.
Proof.
  intros Hkey Hne. rewrite dc_find_alter by done.
  destruct (dc_find key' c) as [e|] eqn:He; [|done]. cbn.
  assert (entry_key e = key') as Hk.
  { unfold dc_find in He. destruct (list_find _ _) as [[i y]|] eqn:Hfind; [|done].
    apply list_find_Some in Hfind as (_ & Hy & _). by simplify_eq/=. }
  rewrite decide_False by congruence. done.
Qed.

Lemma dc_find_key key c e : dc_find key c = Some e -> entry_key e = key.
Proof.
  unfold dc_find. destruct (list_find _ _) as [[i y]|] eqn:Hfind; [|done].
  apply list_find_Some in Hfind as (_ & Hy & _). by intros [= <-].
Qed.

Lemma dc_find_snoc key key' e c :
  entry_key e = key ->
  dc_find key' (dc_with_entries (dc_entries c ++ [e]) c)
  = match dc_find key' c with
    | Some e' => Some e'
    | None => if decide (key = key') then Some e else None
    end.
Proof.
  intros <-. unfold dc_find. cbn [dc_entries dc_with_entries].
  induction (dc_entries c) as [|e0 l IH].
  - cbn [app]. rewrite find_cons. by destruct (decide (entry_key e = key')).
  - rewrite <-app_comm_cons, !find_cons, IH. by destruct (decide (entry_key e0 = key')).
Qed.


(** What [get_or_create] leaves under its key and under the other keys. *)
Lemma dc_find_get_or_create key key' (empty : V) c :
  dc_find key' (get_or_create key empty c).2
  = if decide (key' = key)
    then Some (get_or_create key empty c).1
    else dc_find key' c.
Proof.
  unfold get_or_create. destruct (dc_find key c) as [e|] eqn:He; cbn [fst snd].
  - destruct (decide (key' = key)) as [->|Hk].
    + rewrite dc_find_alter by done. rewrite He. cbn.
      by rewrite (dc_find_key key c e He), decide_True.
    + by rewrite (dc_find_alter_ne _ key key' c).
  - rewrite (dc_find_snoc key key') by done.
    destruct (decide (key' = key)) as [->|Hk].
    + by rewrite He, decide_True.
    + destruct (dc_find key' c); [done|]. by rewrite decide_False.
Qed.

Lemma get_or_create_ref key (empty : V) c :
  entry_ref (get_or_create key empty c).1 = S (default 0%nat (entry_ref <$> dc_find key c))
  /\ entry_key (get_or_create key empty c).1 = key.
Proof.
  unfold get_or_create. destruct (dc_find key c) as [e|] eqn:He; cbn; [|done].
  split; [done|]. by apply dc_find_key in He.
Qed.

Lemma evict_entries_sublist target size l : evict_entries target size l `sublist_of` l.
Proof.
  revert size. induction l as [|e l IH]; intros size; [done|].
  cbn [evict_entries]. case_bool_decide; [done|].
  case_decide; [apply sublist_cons, IH|apply sublist_skip, IH].
Qed.

Lemma evict_entries_keeps_referenced target size l e :
  e ∈ l -> entry_ref e <> 0%nat -> e ∈ evict_entries target size l.
Proof.
  intros Hin Href. revert size. induction l as [|e0 l IH]; intros size.
  - by apply elem_of_nil in Hin.
  - cbn [evict_entries]. case_bool_decide; [done|].
    apply elem_of_cons in Hin as [->|Hin].
    + rewrite decide_False by done. left.
    + case_decide; [by apply IH|right; by apply IH].
Qed.

End MoreDynamicCacheProperties.

(** ** More on ingestion and eviction *)

Section MoreIngestionProperties.
Context {SL : StateLoaders}.

Implicit Types (s : StateCaches) (tablet : Tablet) (rowset : Rowset).

Lemma dc_release_keeps_key {S : Type} (now ttl : Z) (e : Entry string S) :
  entry_key
    (let e' := entry_with_ref (Nat.pred (entry_ref e)) e in
     if decide (entry_ref e' = 0%nat) then update_expire_time (now + ttl) e' else e')
  = entry_key e.
Proof. cbn. by case_decide. Qed.


Lemma load_state_entry_success {S : Type} (empty : S) (load : S -> Status * S)
    (usage : S -> Z) now expire_ms key (c : DynamicCache string S) :
  status_ok (load (entry_value (get_or_create key empty c).1)).1 = true ->
  (load_state_entry empty load usage now expire_ms key c).1 = OK
  /\ exists e,
      dc_find key (load_state_entry empty load usage now expire_ms key c).2 = Some e
      /\ entry_ref e = default 0%nat (entry_ref <$> dc_find key c)
      /\ entry_size e = usage (load (entry_value (get_or_create key empty c).1)).2
      /\ entry_value e = (load (entry_value (get_or_create key empty c).1)).2.
Proof.
  intros Hok. unfold load_state_entry.
  pose proof (dc_find_get_or_create key key empty c) as Hgoc.
  rewrite decide_True in Hgoc by done.
  destruct (get_or_create_ref key empty c) as [Href Hkey].
  destruct (get_or_create key empty c) as [state_entry c1]. cbn [fst snd] in *.
  destruct (load (entry_value state_entry)) as [st value]. cbn [fst snd] in *.
  rewrite Hok. cbn [fst snd]. split; [by destruct st|].
  unfold dc_release, update_object_size.
  rewrite dc_find_alter by (intros e; cbn; by case_decide).
  rewrite !dc_find_alter by done. rewrite Hgoc. cbn [fmap option_fmap option_map].
  subst key.
  repeat (cbn [entry_key entry_with_value update_expire_time entry_with_size entry_with_ref];
          rewrite (decide_True (P:=entry_key state_entry = entry_key state_entry)) by done).
  eexists. split; [reflexivity|].
  cbn [entry_ref entry_with_value update_expire_time entry_with_size entry_with_ref].
  rewrite Href. cbn [Nat.pred]. by case_decide.
Qed.


(** X20.  When [on_rowset_finished] gets as far as the state load and the
    load succeeds, the call returns OK, with or without the fail point; the
    pair has an entry afterwards, so [TEST_update_state_exist] answers
    [true], and the call has left no reference on it: its reference count is
    what it was before the call, 0 for a new entry. *)
Theorem on_rowset_finished_success now fail_point tablet rowset s :
  has_data_files rowset = true ->
  tablet_state tablet <> TABLET_NOTREADY ->
  (is_partial_update rowset = true ->
   (submit_task_and_wait_for tablet (_index_cache s)).1 = OK) ->
  update_state_load_status tablet rowset s = OK ->
  (on_rowset_finished now fail_point tablet rowset s).1 = OK
  /\ (forall now',
        (TEST_update_state_exist now' tablet rowset
           (on_rowset_finished now fail_point tablet rowset s).2).1 = true)
  /\ (if is_column_mode_partial_update rowset
      then entry_ref <$> dc_find (state_key tablet rowset)
                           (_update_column_state_cache
                              (on_rowset_finished now fail_point tablet rowset s).2)
           = Some (default 0%nat
                     (entry_ref <$> dc_find (state_key tablet rowset)
                                      (_update_column_state_cache s)))
      else entry_ref <$> dc_find (state_key tablet rowset)
                           (_update_state_cache
                              (on_rowset_finished now fail_point tablet rowset s).2)
           = Some (default 0%nat
                     (entry_ref <$> dc_find (state_key tablet rowset)
                                      (_update_state_cache s)))).
Proof.
  intros Hdata Hready Htask Hload.
  destruct (on_rowset_finished_loaded now fail_point tablet rowset s Hdata Hready Htask)
    as (st & c & Hentry & ->).
  unfold update_state_load_status in Hload. unfold TEST_update_state_exist.
  destruct (is_column_mode_partial_update rowset).
  - destruct (load_state_entry_success RowsetColumnUpdateState_new
                (RowsetColumnUpdateState_load tablet rowset)
                RowsetColumnUpdateState_memory_usage now (_cache_expire_ms s)
                (state_key tablet rowset) (_update_column_state_cache s))
      as [Hok (e & He & Href & _)]; [by rewrite Hload|].
    rewrite Hentry in Hok, He. cbn [fst snd] in Hok, He. subst st.
    cbn [fst snd _update_column_state_cache with_update_column_state_cache].
    split_and!.
    + by destruct fail_point.
    + intros now'. unfold dc_get. by rewrite He.
    + by rewrite He, <-Href.
  - destruct (load_state_entry_success RowsetUpdateState_new
                (RowsetUpdateState_load tablet rowset)
                RowsetUpdateState_memory_usage now (_cache_expire_ms s)
                (state_key tablet rowset) (_update_state_cache s))
      as [Hok (e & He & Href & _)]; [by rewrite Hload|].
    rewrite Hentry in Hok, He. cbn [fst snd] in Hok, He. subst st.
    cbn [fst snd _update_state_cache with_update_state_cache].
    split_and!.
    + by destruct fail_point.
    + intros now'. unfold dc_get. by rewrite He.
    + by rewrite He, <-Href.
Qed.



(** X23.  [on_rowset_finished] never returns [MemLimitExceeded] or [TimeOut],
    whatever the loaders, the preload and the fail point do.  A failure of the
    index preload of a partial update, whatever its code, is returned as
    [Uninitialized] with the message of the preload, and no entry is made for
    the pair: the caches of update states are as before. *)
Theorem on_rowset_finished_never_soft now fail_point tablet rowset s :
  is_mem_limit_exceeded (on_rowset_finished now fail_point tablet rowset s).1 = false
  /\ is_time_out (on_rowset_finished now fail_point tablet rowset s).1 = false
  /\ (forall code msg,
        has_data_files rowset = true ->
        tablet_state tablet <> TABLET_NOTREADY ->
        is_partial_update rowset = true ->
        (submit_task_and_wait_for tablet (_index_cache s)).1 = Err code msg ->
        (on_rowset_finished now fail_point tablet rowset s).1 = Err Uninitialized msg
        /\ _update_state_cache (on_rowset_finished now fail_point tablet rowset s).2
           = _update_state_cache s
        /\ _update_column_state_cache (on_rowset_finished now fail_point tablet rowset s).2
           = _update_column_state_cache s).
Proof.
  split_and!.
  1, 2: unfold on_rowset_finished;
    destruct (negb (has_data_files rowset)
              || bool_decide (tablet_state tablet = TABLET_NOTREADY)); [done|];
    destruct (preload_index tablet rowset s) as [task_st s0];
    destruct (negb (status_ok task_st)); [done|];
    destruct (is_column_mode_partial_update rowset);
    destruct (load_state_entry _ _ _ _ _ _ _) as [st c];
    destruct (is_mem_limit_exceeded _ || is_time_out _) eqn:Hsoft; try done;
    apply orb_false_elim in Hsoft as [Hmem Htime]; done.
  intros code msg Hdata Hready Hpartial Htask. unfold on_rowset_finished.
  rewrite Hdata, bool_decide_eq_false_2 by done. cbn [negb orb].
  destruct (preload_index_frame tablet rowset s) as (Hc1 & Hc2 & _ & _ & _ & Hst).
  rewrite Hpartial, Htask in Hst.
  destruct (preload_index tablet rowset s) as [task_st s0]. cbn [fst snd] in *.
  subst task_st. done.
Qed.

(** X24.  [evict_cache] never makes the index cache larger, never evicts an
    index that is referenced, keeps the remaining entries in their order, and
    leaves the two caches of update states as they are. *)
Theorem evict_cache_keeps_referenced memory_urgent_level memory_high_level s :
  Forall (fun e => 0 <= entry_size e) (dc_entries (_index_cache s)) ->
  dc_size (_index_cache (evict_cache memory_urgent_level memory_high_level s))
  <= dc_size (_index_cache s)
  /\ (forall e, e ∈ dc_entries (_index_cache s) -> entry_ref e <> 0%nat ->
        e ∈ dc_entries (_index_cache (evict_cache memory_urgent_level memory_high_level s)))
  /\ dc_entries (_index_cache (evict_cache memory_urgent_level memory_high_level s))
     `sublist_of` dc_entries (_index_cache s)
  /\ _update_state_cache (evict_cache memory_urgent_level memory_high_level s)
     = _update_state_cache s
  /\ _update_column_state_cache (evict_cache memory_urgent_level memory_high_level s)
     = _update_column_state_cache s.
Proof.
  intros Hsizes. unfold evict_cache. cbn zeta.
  set (c1 := if bool_decide _ then try_evict _ (_index_cache s) else _index_cache s).
  assert (Forall (fun e => 0 <= entry_size e) (dc_entries c1)
          /\ dc_size c1 <= dc_size (_index_cache s)
          /\ (forall e, e ∈ dc_entries (_index_cache s) -> entry_ref e <> 0%nat ->
                e ∈ dc_entries c1)
          /\ dc_entries c1 `sublist_of` dc_entries (_index_cache s)) as (Hs1 & Hle1 & Hk1 & Hsub1).
  { subst c1. case_bool_decide.
    - split_and!.
      + by apply evict_entries_sizes.
      + by apply dc_size_try_evict.
      + intros e He Href. by apply evict_entries_keeps_referenced.
      + apply evict_entries_sublist.
    - split_and!; [done|lia|done|done]. }
  set (c2 := if bool_decide _ then try_evict _ c1 else c1).
  assert (dc_size c2 <= dc_size c1
          /\ (forall e, e ∈ dc_entries c1 -> entry_ref e <> 0%nat -> e ∈ dc_entries c2)
          /\ dc_entries c2 `sublist_of` dc_entries c1) as (Hle2 & Hk2 & Hsub2).
  { subst c2. case_bool_decide.
    - split_and!.
      + by apply dc_size_try_evict.
      + intros e He Href. by apply evict_entries_keeps_referenced.
      + apply evict_entries_sublist.
    - split_and!; [lia|done|done]. }
  cbn [_index_cache with_index_cache _update_state_cache _update_column_state_cache].
  split_and!; [lia|auto| |done|done].
  by etrans.
Qed.

End MoreIngestionProperties.

Lemma on_rowset_finished_success_witness :
  has_data_files (rowset_of "fine" true) = true
  /\ tablet_state running_tablet <> TABLET_NOTREADY
  /\ (is_partial_update (rowset_of "fine" true) = true ->
      (submit_task_and_wait_for running_tablet (_index_cache idle)).1 = OK)
  /\ update_state_load_status running_tablet (rowset_of "fine" true) idle = OK
  /\ (on_rowset_finished 5 true running_tablet (rowset_of "fine" true) idle).1 = OK
  /\ (forall now',
        (TEST_update_state_exist now' running_tablet (rowset_of "fine" true)
           (on_rowset_finished 5 true running_tablet (rowset_of "fine" true) idle).2).1 = true)
  /\ (if is_column_mode_partial_update (rowset_of "fine" true)
      then entry_ref <$> dc_find (state_key running_tablet (rowset_of "fine" true))
                           (_update_column_state_cache
                              (on_rowset_finished 5 true running_tablet
                                 (rowset_of "fine" true) idle).2)
           = Some (default 0%nat
                     (entry_ref <$> dc_find (state_key running_tablet (rowset_of "fine" true))
                                      (_update_column_state_cache idle)))
      else entry_ref <$> dc_find (state_key running_tablet (rowset_of "fine" true))
                           (_update_state_cache
                              (on_rowset_finished 5 true running_tablet
                                 (rowset_of "fine" true) idle).2)
           = Some (default 0%nat
                     (entry_ref <$> dc_find (state_key running_tablet (rowset_of "fine" true))
                                      (_update_state_cache idle)))).
Proof.
  split; [reflexivity|]. split; [discriminate|]. split; [reflexivity|].
  split; [reflexivity|].
  apply (on_rowset_finished_success (SL:=scripted_loaders) 5 true running_tablet
           (rowset_of "fine" true) idle);
    [reflexivity|discriminate|reflexivity|reflexivity].
Defined.

Lemma evict_cache_keeps_referenced_witness :
  Forall (fun e => 0 <= entry_size e) (dc_entries (_index_cache idle))
  /\ dc_size (_index_cache (evict_cache 35 25 idle)) <= dc_size (_index_cache idle)
  /\ (forall e, e ∈ dc_entries (_index_cache idle) -> entry_ref e <> 0%nat ->
        e ∈ dc_entries (_index_cache (evict_cache 35 25 idle)))
  /\ dc_entries (_index_cache (evict_cache 35 25 idle))
     `sublist_of` dc_entries (_index_cache idle)
  /\ _update_state_cache (evict_cache 35 25 idle) = _update_state_cache idle
  /\ _update_column_state_cache (evict_cache 35 25 idle) = _update_column_state_cache idle.
Proof.
  assert (Forall (fun e : Entry Z unit => 0 <= entry_size e) (dc_entries (_index_cache idle)))
    as Hsizes by (repeat constructor; vm_compute; discriminate).
  split; [exact Hsizes|].
  apply (evict_cache_keeps_referenced (SL:=scripted_loaders) 35 25 idle Hsizes).
Defined.

(** ** Construction, configuration and statistics *)

Lemma clamp_percent_range percent : 0 <= clamp_percent percent <= 100.
Proof. unfold clamp_percent. lia. Qed.

Lemma clamped_share x percent :
  0 <= x -> x * 100 < 2 ^ 63 ->
  to_int64 (to_int64 x * clamp_percent percent) `quot` 100 = x * clamp_percent percent / 100
  /\ 0 <= x * clamp_percent percent / 100 <= x.
Proof.
  intros Hx Hx100. pose proof (clamp_percent_range percent) as Hp.
  rewrite (to_int64_small x) by lia.
  rewrite to_int64_small by nia. rewrite Z.quot_div_nonneg by nia.
  split; [done|]. split; [apply Z.div_pos; nia|].
  apply Z.div_le_upper_bound; nia.
Qed.

Lemma unlimited_share percent :
  to_int64 (to_int64 (-1) * clamp_percent percent) `quot` 100
  = if bool_decide (100 <= percent) then -1 else 0.
Proof.
  case_bool_decide as Hp.
  - unfold clamp_percent. rewrite Z.min_l, Z.max_l by lia. reflexivity.
  - assert (0 <= clamp_percent percent < 100) as Hc by (unfold clamp_percent; lia).
    rewrite (to_int64_small (-1)) by lia.
    rewrite to_int64_small by lia.
    replace (-1 * clamp_percent percent) with (- clamp_percent percent) by lia.
    rewrite Z.quot_opp_l by lia. rewrite Z.quot_small by lia. done.
Qed.

(** X25.  For a parent limit and a process limit that are not negative,
    whatever the configured percentages are, the limit the constructor
    computes for the update states lies between 0 and the limit of the parent
    tracker, and the capacity it sets on the index cache between 0 and the
    process limit; a percentage of 100 or more gives the whole, one of 0 or
    less gives 0.  With the limit -1 of a tracker that has no limit, a
    percentage of 100 or more keeps it that way, -1 for the update states and
    the largest [size_t] for the index cache, and any lower percentage gives
    0 for both. *)
Theorem constructor_limits_bounded (t : MemTracker) (byte_limits preload_percent
    update_percent : Z) :
  (0 <= limit t -> limit t * 100 < 2 ^ 63 ->
   0 <= preload_mem_limit (Some t) preload_percent <= limit t
   /\ (100 <= preload_percent -> preload_mem_limit (Some t) preload_percent = limit t)
   /\ (preload_percent <= 0 -> preload_mem_limit (Some t) preload_percent = 0))
  /\ (0 <= byte_limits -> byte_limits * 100 < 2 ^ 63 ->
      0 <= index_cache_capacity byte_limits update_percent <= byte_limits
      /\ (100 <= update_percent ->
          index_cache_capacity byte_limits update_percent = byte_limits)
      /\ (update_percent <= 0 -> index_cache_capacity byte_limits update_percent = 0))
  /\ (limit t = -1 ->
      preload_mem_limit (Some t) preload_percent
      = if bool_decide (100 <= preload_percent) then -1 else 0)
  /\ index_cache_capacity (-1) update_percent
     = (if bool_decide (100 <= update_percent) then 2 ^ 64 - 1 else 0).
Proof.
  unfold preload_mem_limit, index_cache_capacity. split_and!.
  - intros Hl Hl100. destruct (clamped_share (limit t) preload_percent Hl Hl100) as [-> Hrange].
    split_and!; [lia|lia| |].
    + intros Hp. unfold clamp_percent. rewrite Z.min_l, Z.max_l by lia.
      by rewrite Z.div_mul.
    + intros Hp. unfold clamp_percent. rewrite Z.max_r by lia.
      by rewrite Z.mul_0_r.
  - intros Hb Hb100.
    destruct (clamped_share byte_limits update_percent Hb Hb100) as [Heq Hrange].
    rewrite (to_int64_small byte_limits) in Heq by lia. rewrite Heq.
    rewrite to_uint64_small by lia.
    split_and!; [lia|lia| |].
    + intros Hp. unfold clamp_percent. rewrite Z.min_l, Z.max_l by lia.
      by rewrite Z.div_mul.
    + intros Hp. unfold clamp_percent. rewrite Z.max_r by lia.
      by rewrite Z.mul_0_r.
  - intros ->. apply unlimited_share.
  - pose proof (unlimited_share update_percent) as Heq.
    rewrite (to_int64_small (-1)) in Heq by lia. rewrite Heq.
    by case_bool_decide.
Qed.

(** X26.  For a tablet whose expiry setting is a positive [int32_t],
    [get_index_cache_expire_ms] returns the setting in milliseconds exactly
    when the setting is at most 2147483 seconds: above that the 32-bit product
    does not hold the value.  A setting of 0 or less gives the default of the
    manager. *)
Theorem get_index_cache_expire_ms_exact sec default_ms :
  (0 < sec < 2 ^ 31 ->
   (get_index_cache_expire_ms sec default_ms = sec * 1000 <-> sec <= 2147483))
  /\ (sec <= 0 -> get_index_cache_expire_ms sec default_ms = default_ms).
Proof.
  unfold get_index_cache_expire_ms. split.
  - intros Hsec. rewrite bool_decide_eq_true_2 by lia. unfold to_int32. split.
    + intros Heq.
      pose proof (Z.mod_pos_bound (sec * 1000 + 2 ^ 31) (2 ^ 32) ltac:(lia)). lia.
    + intros Hle. rewrite Z.mod_small by lia. lia.
  - intros Hsec. by rewrite bool_decide_eq_false_2 by lia.
Qed.

(** X27.  When [init] returns OK the two thread pools and the two helpers
    have been built, the pool for applying has the configured number of
    workers, or one worker per core when none is configured, and the pool for
    index lookups has more threads than the pool for applying. *)
Theorem init_pools num_cores apply_count get_count build_apply build_get
    compaction_init executor_init :
  0 < num_cores < 2 ^ 30 -> apply_count < 2 ^ 30 ->
  (init num_cores apply_count get_count build_apply build_get compaction_init
     executor_init).1 = OK ->
  exists apply_max get_max,
    (init num_cores apply_count get_count build_apply build_get compaction_init
       executor_init).2
    = {| apply_max_threads := Some apply_max; get_pindex_max_threads := Some get_max;
         compaction_manager := true; load_executor := true |}
    /\ apply_max = (if bool_decide (0 < apply_count) then apply_count else num_cores)
    /\ 0 < apply_max < get_max.
Proof.
  intros Hcores Hcount. unfold init.
  set (max_thread_cnt := if bool_decide (0 < apply_count) then apply_count else num_cores).
  assert (0 < max_thread_cnt < 2 ^ 30) as Hmax by (subst max_thread_cnt; case_bool_decide; lia).
  destruct (build_apply max_thread_cnt); [|done].
  set (max_get_thread_cnt := if bool_decide (max_thread_cnt < get_count) then get_count
                             else to_int32 (max_thread_cnt * 2)).
  assert (max_thread_cnt < max_get_thread_cnt) as Hget.
  { subst max_get_thread_cnt. case_bool_decide; [done|].
    unfold to_int32. rewrite Z.mod_small by lia. lia. }
  destruct (build_get max_get_thread_cnt); [|done].
  destruct compaction_init; [|done]. cbn [fst snd]. intros ->.
  exists max_thread_cnt, max_get_thread_cnt. split_and!; [done|done|lia|done].
Qed.

Lemma init_pools_witness :
  0 < 8 < 2 ^ 30 /\ 0 < 2 ^ 30
  /\ (init 8 0 4 (fun _ => OK) (fun _ => OK) OK OK).1 = OK
  /\ exists apply_max get_max,
      (init 8 0 4 (fun _ => OK) (fun _ => OK) OK OK).2
      = {| apply_max_threads := Some apply_max; get_pindex_max_threads := Some get_max;
           compaction_manager := true; load_executor := true |}
      /\ apply_max = (if bool_decide (0 < 0) then 0 else 8)
      /\ 0 < apply_max < get_max.
Proof.
  split; [lia|]. split; [lia|]. split; [reflexivity|].
  apply (init_pools 8 0 4 (fun _ => OK) (fun _ => OK) OK OK); [lia|lia|reflexivity].
Defined.

Section Gauges.
Context {CO : Collaborators} {SL : StateLoaders}.

Lemma to_int32_idemp a b : to_int32 (to_int32 a + b) = to_int32 (a + b).
Proof.
  unfold to_int32.
  replace ((a + 2 ^ 31) mod 2 ^ 32 - 2 ^ 31 + b + 2 ^ 31)
    with ((a + 2 ^ 31) mod 2 ^ 32 + b) by lia.
  rewrite Zplus_mod_idemp_l. f_equal. f_equal. lia.
Qed.

Lemma to_int32_uint64 x : to_int32 (to_uint64 x) = to_int32 x.
Proof.
  unfold to_int32, to_uint64.
  rewrite <-(Zplus_mod_idemp_l (x mod 2 ^ 64)).
  rewrite Z.mod_mod_divide by (exists (2 ^ 32); lia).
  by rewrite Zplus_mod_idemp_l.
Qed.

Lemma accumulate_step accumulated usage :
  to_int32 (to_uint64 (to_uint64 accumulated + usage)) = to_int32 (accumulated + usage).
Proof.
  rewrite to_int32_uint64. unfold to_int32, to_uint64. f_equal.
  replace (accumulated mod 2 ^ 64 + usage + 2 ^ 31)
    with (accumulated mod 2 ^ 64 + (usage + 2 ^ 31)) by lia.
  rewrite <-(Zplus_mod_idemp_l (accumulated mod 2 ^ 64)).
  rewrite Z.mod_mod_divide by (exists (2 ^ 32); lia).
  rewrite Zplus_mod_idemp_l. f_equal. lia.
Qed.

Lemma accumulate_list (l : list (TabletSegmentId * DelVector)) accumulated :
  foldl (fun accumulated p =>
           to_int32 (to_uint64 (to_uint64 accumulated + Z.of_N (memory_usage p.2))))
        (to_int32 accumulated) l
  = to_int32 (accumulated + foldr (fun p acc => Z.of_N (memory_usage p.2) + acc) 0 l).
Proof.
  revert accumulated. induction l as [|p l IH]; intros accumulated.
  - cbn. f_equal. lia.
  - cbn [foldl foldr]. rewrite accumulate_step, to_int32_idemp, IH. f_equal. lia.
Qed.

Lemma usage_Permutation (l1 l2 : list (TabletSegmentId * DelVector)) :
  l1 ≡ₚ l2 ->
  foldr (fun p acc => Z.of_N (memory_usage p.2) + acc) 0 l1
  = foldr (fun p acc => Z.of_N (memory_usage p.2) + acc) 0 l2.
Proof. induction 1; cbn [foldr]; lia. Qed.

Lemma usage_map_entries (m : gmap TabletSegmentId DelVector) :
  foldr (fun p acc => Z.of_N (memory_usage p.2) + acc) 0 (map_entries m)
  = total_usage (fun d => Z.of_N (memory_usage d)) m.
Proof.
  unfold map_entries. rewrite (usage_Permutation _ _ (merge_sort_Permutation _ _)).
  induction m as [|k d m Hk _ IH] using map_first_key_ind.
  - by rewrite map_to_list_empty, total_usage_empty.
  - rewrite (usage_Permutation _ _ (map_to_list_insert m k d Hk)).
    rewrite total_usage_insert_None by done. cbn [foldr snd]. by rewrite IH.
Qed.

(** X28.  The gauge of the bytes of cached delete vectors that
    [expire_cache] sets is the total memory of the cached vectors reduced to
    a 32-bit [int]: it is the total as long as the total is below 2^31 bytes,
    and differs from it from there on. *)
Theorem expire_cache_del_vector_bytes clock last um s :
  update_del_vector_bytes_total (expire_cache clock last um s).1.1
  = to_int32 (del_vec_cache_usage um)
  /\ (update_del_vector_bytes_total (expire_cache clock last um s).1.1
      = del_vec_cache_usage um <-> del_vec_cache_usage um < 2 ^ 31).
Proof.
  assert (update_del_vector_bytes_total (expire_cache clock last um s).1.1
          = to_int32 (del_vec_cache_usage um)) as Hgauge.
  { unfold expire_cache. 
    assert (accumulate_del_vector_bytes (_del_vec_cache um)
            = to_int32 (del_vec_cache_usage um)) as Hacc.
    { unfold accumulate_del_vector_bytes, del_vec_cache_usage.
      change 0 with (to_int32 0) at 1. rewrite accumulate_list, usage_map_entries.
      f_equal. }
    by case_bool_decide. }
  split; [done|]. rewrite Hgauge.
  assert (0 <= del_vec_cache_usage um) as Hpos.
  { unfold del_vec_cache_usage. apply total_usage_nonneg. intros. lia. }
  unfold to_int32. split.
  - intros Heq.
    pose proof (Z.mod_pos_bound (del_vec_cache_usage um + 2 ^ 31) (2 ^ 32) ltac:(lia)). lia.
  - intros Hlt. rewrite Z.mod_small by lia. lia.
Qed.

End Gauges.

(** ** Statistics and the scan operator *)

#[local] Instance by_size_desc_transitive : Transitive by_size_desc.
Proof. intros a b c. unfold by_size_desc. lia. Qed.

#[local] Instance by_size_desc_total : Total by_size_desc.
Proof. intros a b. unfold by_size_desc. lia. Qed.

(** X29.  [topn_memory_stats] prints [min(size, topn)] entries, in order of
    decreasing memory, and every entry it leaves out is no larger than any it
    prints; with [topn] 0 it prints nothing. *)
Theorem topn_memory_stats_largest primary_index_stats topn :
  length (topn_entries primary_index_stats topn)
  = Nat.min (length primary_index_stats) topn
  /\ StronglySorted by_size_desc (topn_entries primary_index_stats topn)
  /\ (exists rest,
        topn_entries primary_index_stats topn ++ rest ≡ₚ primary_index_stats
        /\ forall a b, a ∈ topn_entries primary_index_stats topn -> b ∈ rest -> b.2 <= a.2)
  /\ topn_memory_stats primary_index_stats 0 = "".
Proof.
  unfold topn_memory_stats, topn_entries.
  pose proof (StronglySorted_merge_sort by_size_desc primary_index_stats) as Hsorted.
  pose proof (merge_sort_Permutation by_size_desc primary_index_stats) as Hperm.
  pose proof (Permutation_length Hperm) as Hlen.
  set (sorted := merge_sort by_size_desc primary_index_stats) in *.
  set (n := Nat.min (length primary_index_stats) topn).
  rewrite <-(take_drop n sorted) in Hsorted, Hperm.
  split_and!.
  - rewrite length_take. lia.
  - by apply StronglySorted_app_1_l in Hsorted.
  - exists (drop n sorted). split; [done|].
    intros a b Ha Hb. by apply (StronglySorted_app_1_elem_of _ _ _ a b Hsorted).
  - by rewrite Nat.min_0_r.
Qed.

(** X30.  An [OlapScanOperator] whose scan context is finished is finished
    and has no output; one whose context has not finished preparing has no
    output and is finished only by its own flag or its context; so an operator
    that has output has a prepared, unfinished context and output in the base
    operator. *)
Theorem scan_operator_output_and_finish (op : ScanView) :
  (ctx_is_finished op = true -> is_finished op = true /\ has_output op = false)
  /\ (ctx_is_prepare_finished op = false ->
      has_output op = false /\ is_finished op = ctx_is_finished op || _is_finished op)
  /\ (has_output op = true ->
      ctx_is_prepare_finished op = true /\ ctx_is_finished op = false
      /\ ScanOperator_has_output op = true).
Proof.
  unfold has_output, is_finished.
  destruct op as [prepared finished own base_output base_finished]. cbn.
  destruct prepared, finished, own, base_output; cbn; repeat split; intros; done.
Qed.
